(** * scripts/generate-benchmark-graphs.py: result extraction and merging

    A shallow embedding of the text-processing core of the benchmark
    graph generator: the three extractors [parse_java_results],
    [parse_javascript_results] and [parse_rust_results], the name table
    [normalize_library_name], [merge_results] and the control flow of
    [main].  Chart rendering (matplotlib) is an external effect and is
    recorded as events only. *)

From Stdlib Require Import ZArith NArith Ascii String.
From Stdlib Require Import Floats.SpecFloat.
From stdpp Require Import gmap list sorting.

Local Open Scope nat_scope.

(** ** Python runtime fragments used by the script *)

(** A Python [str] is a sequence of Unicode code points. *)
Abbreviation char := N.
Abbreviation str := (list N).

(** An ASCII literal of the source as a [str]. *)
Fixpoint lit (s : string) : str :=
  match s with
  | EmptyString => []
  | String a s' => N_of_ascii a :: lit s'
  end.

Definition newline : char := 10%N.
Definition bar : char := N_of_ascii "|".

(** [str.isspace] on one code point, which is also the class [\s] of a
    [str] pattern (CPython: [Py_UNICODE_ISSPACE]). *)
Definition isspace (c : char) : bool :=
  ((9 <=? c) && (c <=? 13) || (28 <=? c) && (c <=? 32)
   || (c =? 133) || (c =? 160) || (c =? 5760)
   || (8192 <=? c) && (c <=? 8202)
   || (c =? 8232) || (c =? 8233) || (c =? 8239) || (c =? 8287)
   || (c =? 12288))%N.

(** First code point of every run of ten decimal digits (category Nd,
    Unicode 14.0 as shipped with CPython 3.11); the digit value of a
    member is its offset in the run. *)
Definition decimal_zeros : list N :=
  [48; 1632; 1776; 1984; 2406; 2534; 2662; 2790; 2918; 3046; 3174; 3302;
   3430; 3558; 3664; 3792; 3872; 4160; 4240; 6112; 6160; 6470; 6608; 6784;
   6800; 6992; 7088; 7232; 7248; 42528; 43216; 43264; 43472; 43504; 43600;
   44016; 65296; 66720; 68912; 69734; 69872; 69942; 70096; 70384; 70736;
   70864; 71248; 71360; 71472; 71904; 72016; 72784; 73040; 73120; 92768;
   92864; 93008; 120782; 120792; 120802; 120812; 120822; 123200; 123632;
   125264; 130032]%N.

(** The decimal value of a digit code point, if it is one. *)
Fixpoint decimal_in (zeros : list N) (c : char) : option Z :=
  match zeros with
  | [] => None
  | z :: zeros' =>
      if ((z <=? c) && (c <? z + 10))%N then Some (Z.of_N (c - z))
      else decimal_in zeros' c
  end.

Definition decimal_value (c : char) : option Z := decimal_in decimal_zeros c.

(** The class [\d] of a [str] pattern. *)
Definition isdecimal (c : char) : bool :=
  match decimal_value c with Some _ => true | None => false end.

(** [s[i:j]] for [0 <= i] and [0 <= j]. *)
Definition slice (s : str) (i j : nat) : str := take (j - i) (drop i s).

(** [str.strip()]: whitespace removed at both ends. *)
Fixpoint lstrip (s : str) : str :=
  match s with
  | c :: s' => if isspace c then lstrip s' else s
  | [] => []
  end.

Definition rstrip (s : str) : str := rev (lstrip (rev s)).

Definition strip (s : str) : str := rstrip (lstrip s).

(** [s.startswith(p)], returning what follows the prefix. *)
Fixpoint strip_prefix (p s : str) : option str :=
  match p, s with
  | [], _ => Some s
  | a :: p', b :: s' => if (a =? b)%N then strip_prefix p' s' else None
  | _ :: _, [] => None
  end.

(** [s.replace(old, '')] for a non-empty [old]: every occurrence found
    scanning left to right is dropped.  [skip] counts the code points of
    the occurrence being dropped. *)
Fixpoint remove_all_from (old : str) (skip : nat) (s : str) : str :=
  match s with
  | [] => []
  | c :: s' =>
      match skip with
      | S k => remove_all_from old k s'
      | O =>
          match strip_prefix old s with
          | Some _ => remove_all_from old (length old - 1) s'
          | None => c :: remove_all_from old 0 s'
          end
      end
  end.

Definition remove_all (old s : str) : str := remove_all_from old 0 s.

(** Exceptions the modelled code can raise. *)
Inductive exn :=
| FileNotFoundError
| OSError       (* any other failure of [open]/[read] *)
| ValueError.

(** The result of running Python code that may raise. *)
Inductive py (A : Type) :=
| Return (a : A)
| Raise (e : exn).
Arguments Return {A} a.
Arguments Raise {A} e.

#[export] Instance py_ret : MRet py := fun A a => Return a.

#[export] Instance py_bind : MBind py := fun A B k m =>
  match m with
  | Return a => k a
  | Raise e => Raise e
  end.

(** A [for] loop threading an accumulator; the first exception leaves it. *)
Fixpoint for_each {A S} (body : S -> A -> py S) (s : S) (xs : list A) : py S :=
  match xs with
  | [] => Return s
  | x :: xs' => s' ← body s x; for_each body s' xs'
  end.

(** A loop that appends one computed element per iteration. *)
Fixpoint collect {A B} (f : A -> py B) (xs : list A) : py (list B) :=
  match xs with
  | [] => Return []
  | x :: xs' => y ← f x; ys ← collect f xs'; Return (y :: ys)
  end.

(** A Python [float] is an IEEE 754 binary64 value. *)
Definition float64 := spec_float.

(** The digits of a run of decimal digits as a number, most significant
    first, and what follows the run. *)
Fixpoint read_digits (acc : Z) (n : nat) (s : str) : Z * nat * str :=
  match s with
  | c :: s' =>
      match decimal_value c with
      | Some d => read_digits (10 * acc + d)%Z (S n) s'
      | None => (acc, n, s)
      end
  | [] => (acc, n, s)
  end.

(** The nearest binary64 value to [m / 10^k], ties to even. *)
Definition nearest_float (m : Z) (k : nat) : float64 :=
  match m with
  | Zpos p =>
      SFdiv 53 1024 (S754_finite false p 0)
                    (S754_finite false (Z.to_pos (10 ^ Z.of_nat k)) 0)
  | _ => S754_zero false
  end.

(** [float(s)] for a text made of decimal digits and dots, which is all
    the script passes to it (the groups [([\d.]+)]): the text must be
    [digits], [digits.], [.digits] or [digits.digits]; anything else
    raises [ValueError].  Signs, exponents, [inf]/[nan], underscores and
    surrounding blanks, which [float] also reads, cannot occur in such
    a group and are not modelled. *)
Definition float (s : str) : py float64 :=
  let '(ip, ni, rest) := read_digits 0 0 s in
  match rest with
  | [] => if ni is O then Raise ValueError else Return (nearest_float ip 0)
  | c :: rest' =>
      if (c =? 46)%N then
        let '(m, n, rest'') := read_digits ip ni rest' in
        match rest'' with
        | [] =>
            if n is O then Raise ValueError
            else Return (nearest_float m (n - ni))
        | _ :: _ => Raise ValueError
        end
      else Raise ValueError
  end.

(** ** The fragment of [re] the script's patterns use

    Every pattern of the script is a concatenation of single-character
    tests, of [+] / [+?] repetitions of a single-character test, and of
    non-nested capturing groups. *)
Module Re.

Inductive item :=
| Chr (p : char -> bool)                 (* one code point in the class *)
| Plus (greedy : bool) (p : char -> bool) (* [p+] or [p+?] *)
| GOpen                                   (* [(] *)
| GClose.                                 (* [)] *)

Definition pattern := list item.

(** Capture state while matching: where the group being read started
    and the spans of the groups already closed. *)
Record caps := { opened : nat; closed : list (nat * nat) }.

Definition no_caps : caps := {| opened := 0; closed := [] |}.

(** A match object: [start()], [end()] and the spans of groups 1, 2, ... *)
Record pymatch := { m_start : nat; m_end : nat; m_spans : list (nat * nat) }.

(** The backtracking matcher anchored at [pos], where [s] is the text
    from [pos] on.  A greedy repetition tries the longest run first and
    gives code points back one at a time; a lazy one tries the shortest
    run first. *)
Fixpoint match_here (pat : pattern) (s : str) (pos : nat) (st : caps)
  {struct pat} : option (nat * caps) :=
  match pat with
  | [] => Some (pos, st)
  | Chr p :: rest =>
      match s with
      | c :: s' => if p c then match_here rest s' (S pos) st else None
      | [] => None
      end
  | Plus greedy p :: rest =>
      (fix run (s : str) (pos : nat) {struct s} : option (nat * caps) :=
         match s with
         | c :: s' =>
             if p c then
               if greedy then
                 match run s' (S pos) with
                 | Some r => Some r
                 | None => match_here rest s' (S pos) st
                 end
               else
                 match match_here rest s' (S pos) st with
                 | Some r => Some r
                 | None => run s' (S pos)
                 end
             else None
         | [] => None
         end) s pos
  | GOpen :: rest =>
      match_here rest s pos {| opened := pos; closed := closed st |}
  | GClose :: rest =>
      match_here rest s pos
        {| opened := opened st; closed := closed st ++ [(opened st, pos)] |}
  end.

Definition match_at (pat : pattern) (s : str) (pos : nat) : option pymatch :=
  match match_here pat s pos no_caps with
  | Some (e, st) => Some {| m_start := pos; m_end := e; m_spans := closed st |}
  | None => None
  end.

(** [re.search]: the match at the leftmost position that has one;
    [s] is the text from [pos] on. *)
Fixpoint search_from (pat : pattern) (s : str) (pos : nat) : option pymatch :=
  match match_at pat s pos with
  | Some m => Some m
  | None =>
      match s with
      | [] => None
      | _ :: s' => search_from pat s' (S pos)
      end
  end.

Definition search (pat : pattern) (s : str) : option pymatch :=
  search_from pat s 0.

(** [re.finditer] as a list: successive leftmost matches, each search
    resuming where the previous match ended.  [skip] counts the code
    points still covered by the previous match.  (No pattern of the
    script matches the empty string.) *)
Fixpoint finditer_from (pat : pattern) (s : str) (pos skip : nat)
  : list pymatch :=
  match skip with
  | S k =>
      match s with
      | [] => []
      | _ :: s' => finditer_from pat s' (S pos) k
      end
  | O =>
      match match_at pat s pos with
      | Some m =>
          m :: match s with
               | [] => []
               | _ :: s' => finditer_from pat s' (S pos) (m_end m - pos - 1)
               end
      | None =>
          match s with
          | [] => []
          | _ :: s' => finditer_from pat s' (S pos) 0
          end
      end
  end.

Definition finditer (pat : pattern) (s : str) : list pymatch :=
  finditer_from pat s 0 0.

(** [m.group(i)] for [i >= 1] on the text [s] that was searched. *)
Definition group (s : str) (m : pymatch) (i : nat) : str :=
  match m_spans m !! (i - 1) with
  | Some (a, b) => slice s a b
  | None => []
  end.

(** Pattern syntax. *)
Definition just (c : char) : char -> bool := fun x => (x =? c)%N.
Definition chars (s : string) : pattern := map (fun c => Chr (just c)) (lit s).
Definition dot : char -> bool := fun c => negb (c =? newline)%N.
Definition space : char -> bool := isspace.
Definition nonspace : char -> bool := fun c => negb (isspace c).
Definition digit_or_dot : char -> bool :=
  fun c => isdecimal c || (c =? 46)%N.
Definition one_of (cs : list char) : char -> bool :=
  fun c => existsb (N.eqb c) cs.

End Re.

(** ** The script *)

Import Re.

(** [@dataclass class BenchmarkResult] *)
Record BenchmarkResult := {
  parser : str;
  language : str;           (* 'Java', 'JavaScript', 'Rust' *)
  avg_time_ms : float64;
  throughput_kb_ms : float64
}.

(** [Dict[str, List[BenchmarkResult]]] *)
Abbreviation results_dict := (gmap str (list BenchmarkResult)).

(** The medal code points of the class [[🥇🥈🥉]]: U+1F947, U+1F948, U+1F949. *)
Definition medals : list char := [129351; 129352; 129353]%N.

(** [r'Library: (.+?)\nSize: ([\d.]+) KB'], the same in all three
    extractors. *)
Definition library_pattern : pattern :=
  chars "Library: " ++ [GOpen; Plus false dot; GClose]
  ++ [Chr (just newline)] ++ chars "Size: "
  ++ [GOpen; Plus true digit_or_dot; GClose] ++ chars " KB".

(** [r'Our Java Parser\s+\|\s+([\d.]+)\s+\|\s+([\d.]+)'] *)
Definition java_result_pattern : pattern :=
  chars "Our Java Parser"
  ++ [Plus true space; Chr (just bar); Plus true space;
      GOpen; Plus true digit_or_dot; GClose;
      Plus true space; Chr (just bar); Plus true space;
      GOpen; Plus true digit_or_dot; GClose].

(** [r'[🥇🥈🥉]\s+(\S+)\s+\|\s+([\d.]+)\s+\|\s+[\d.]+x\s+\|\s+([\d.]+)\s+KB/ms'] *)
Definition js_result_pattern : pattern :=
  [Chr (one_of medals); Plus true space;
   GOpen; Plus true nonspace; GClose;
   Plus true space; Chr (just bar); Plus true space;
   GOpen; Plus true digit_or_dot; GClose;
   Plus true space; Chr (just bar); Plus true space;
   Plus true digit_or_dot; Chr (just (N_of_ascii "x"));
   Plus true space; Chr (just bar); Plus true space;
   GOpen; Plus true digit_or_dot; GClose;
   Plus true space]
  ++ chars "KB/ms".

(** [r'[🥇🥈🥉]\s+(.+?)\s+\|\s+([\d.]+)\s+\|\s+[\d.]+x\s+\|\s+([\d.]+)'] *)
Definition rust_result_pattern : pattern :=
  [Chr (one_of medals); Plus true space;
   GOpen; Plus false dot; GClose;
   Plus true space; Chr (just bar); Plus true space;
   GOpen; Plus true digit_or_dot; GClose;
   Plus true space; Chr (just bar); Plus true space;
   Plus true digit_or_dot; Chr (just (N_of_ascii "x"));
   Plus true space; Chr (just bar); Plus true space;
   GOpen; Plus true digit_or_dot; GClose].

(** [name_map] of [normalize_library_name], in source order. *)
Definition name_map : gmap str str :=
  list_to_map
    [(lit "react.production.min.js", lit "React");
     (lit "vue.global.prod.js", lit "Vue 3");
     (lit "react-dom.production.min.js", lit "React DOM");
     (lit "lodash.js", lit "Lodash");
     (lit "three.js", lit "Three.js");
     (lit "typescript.js", lit "TypeScript Compiler")].

(** [name_map.get(name, name)] *)
Definition normalize_library_name (name : str) : str :=
  default name (name_map !! name).

(** What [open(filepath, 'r')] followed by [f.read()] finds. *)
Inductive file :=
| Missing                  (* [FileNotFoundError] *)
| Unreadable               (* another [OSError], or a decoding error *)
| Text (content : str).

Definition filesystem := str -> file.

(** [enumerate(xs)] *)
Definition enumerate {A} (xs : list A) : list (nat * A) :=
  zip (seq 0 (length xs)) xs.

(** [parse_java_results] from the patterns on, [content] being the text
    read from the file. *)
Definition parse_java_text (content : str) : py results_dict :=
  for_each
    (fun (results : results_dict) (match_ : pymatch) =>
       let lib_name := strip (group content match_ 1) in
       lib_size ← float (group content match_ 2);
       (* Find the result after this library header *)
       let remaining := drop (m_end match_) content in
       match search java_result_pattern remaining with
       | Some result_match =>
           avg_time ← float (group remaining result_match 1);
           throughput ← float (group remaining result_match 2);
           Return (<[lib_name :=
                       [{| parser := lit "Harmonica"; language := lit "Java";
                           avg_time_ms := avg_time;
                           throughput_kb_ms := throughput |}]]> results)
       | None => Return results
       end)
    ∅ (finditer library_pattern content).

Definition parse_java_results (fs : filesystem) (filepath : str)
  : py results_dict :=
  let results : results_dict := ∅ in
  match fs filepath with
  | Missing => Return results       (* except FileNotFoundError *)
  | Unreadable => Raise OSError
  | Text content => parse_java_text content
  end.

(** [parse_javascript_results] from the patterns on. *)
Definition parse_javascript_text (content : str) : py results_dict :=
  (* Find all library positions *)
  let lib_matches := finditer library_pattern content in
  for_each
    (fun (results : results_dict) '(i, lib_match) =>
       let lib_name := strip (group content lib_match 1) in
       let lib_name := normalize_library_name lib_name in
       (* Get the section between this library and the next (or end) *)
       let start := m_end lib_match in
       let end_ :=
         match lib_matches !! (i + 1) with
         | Some next => m_start next
         | None => length content
         end in
       let section := slice content start end_ in
       lib_results ←
         collect
           (fun result_match =>
              let parser := strip (group section result_match 1) in
              avg_time ← float (group section result_match 2);
              throughput ← float (group section result_match 3);
              Return {| parser := parser; language := lit "JavaScript";
                        avg_time_ms := avg_time;
                        throughput_kb_ms := throughput |})
           (finditer js_result_pattern section);
       Return (if lib_results is [] then results
               else <[lib_name := lib_results]> results))
    ∅ (enumerate lib_matches).

Definition parse_javascript_results (fs : filesystem) (filepath : str)
  : py results_dict :=
  let results : results_dict := ∅ in
  match fs filepath with
  | Missing => Return results       (* except FileNotFoundError *)
  | Unreadable => Raise OSError
  | Text content => parse_javascript_text content
  end.

(** [parse_rust_results] from the patterns on. *)
Definition parse_rust_text (content : str) : py results_dict :=
  (* Find all library positions *)
  let lib_matches := finditer library_pattern content in
  for_each
    (fun (results : results_dict) '(i, lib_match) =>
       let lib_name := strip (group content lib_match 1) in
       let lib_name := normalize_library_name lib_name in
       (* Get the section between this library and the next (or end) *)
       let start := m_end lib_match in
       let end_ :=
         match lib_matches !! (i + 1) with
         | Some next => m_start next
         | None => length content
         end in
       let section := slice content start end_ in
       lib_results ←
         collect
           (fun result_match =>
              let parser := strip (group section result_match 1) in
              (* Simplify parser names *)
              let parser := remove_all (lit " (Rust)") parser in
              avg_time ← float (group section result_match 2);
              throughput ← float (group section result_match 3);
              Return {| parser := parser; language := lit "Rust";
                        avg_time_ms := avg_time;
                        throughput_kb_ms := throughput |})
           (finditer rust_result_pattern section);
       Return (if lib_results is [] then results
               else <[lib_name := lib_results]> results))
    ∅ (enumerate lib_matches).

Definition parse_rust_results (fs : filesystem) (filepath : str)
  : py results_dict :=
  let results : results_dict := ∅ in
  match fs filepath with
  | Missing => Return results       (* except FileNotFoundError *)
  | Unreadable => Raise OSError
  | Text content => parse_rust_text content
  end.

(** The list a source contributes for [lib]: [d[lib]] when [lib in d]. *)
Definition contribution (d : results_dict) (lib : str) : list BenchmarkResult :=
  default [] (d !! lib).

(** [merge_results]: the loop runs over a [set], whose iteration order
    is unspecified; [set_fold] visits the keys in some order too. *)
Definition all_libraries (java_results js_results rust_results : results_dict)
  : gset str :=
  dom java_results ∪ dom js_results ∪ dom rust_results.

(** The list built for [lib] by one iteration of the loop. *)
Definition merged_list (java_results js_results rust_results : results_dict)
    (lib : str) : list BenchmarkResult :=
  [] ++ contribution java_results lib
     ++ contribution js_results lib
     ++ contribution rust_results lib.

Definition merge_results (java_results js_results rust_results : results_dict)
  : results_dict :=
  set_fold
    (fun lib (merged : results_dict) =>
       <[lib := merged_list java_results js_results rust_results lib]> merged)
    ∅ (all_libraries java_results js_results rust_results).

(** The four chart writers called by [main]; what they draw is outside
    this development, a call is recorded with the table it receives. *)
Inductive chart :=
| time_comparison_chart
| throughput_comparison_chart
| per_library_charts
| typescript_focused_chart.

(** What a run of [main] does to the outside, in order.  A [Print] holds
    the literal text of the printed (f-)string, placeholders unexpanded;
    [PrintLibraries] stands for the loop printing one line per library. *)
Inductive event :=
| Print (line : string)
| Mkdir
| PrintLibraries (all_results : results_dict)
| Render (c : chart) (all_results : results_dict).

(** How the run ends: falling off the end of [main], [sys.exit(code)],
    or an exception nobody catches. *)
Inductive ending :=
| Finished
| SysExit (code : Z)
| Uncaught (e : exn).

(** What [main] reads from the machine: whether the results directory
    exists, the three paths [find_latest_results] returns (each a path
    or [None]) and the files. *)
Record world := {
  results_dir_exists : bool;
  latest_results : option str * option str * option str;
  files : filesystem
}.

(** Truth value of [str | None]: [None] and [''] are false. *)
Definition path_truthy (f : option str) : bool :=
  match f with
  | Some (_ :: _) => true
  | _ => false
  end.

(** Truth value of a [dict]: false exactly when empty. *)
Definition dict_truthy (d : results_dict) : bool := bool_decide (d ≠ ∅).

(** [parse(file) if file else {}] *)
Definition parse_if (parse : filesystem -> str -> py results_dict)
    (fs : filesystem) (f : option str) : py results_dict :=
  if path_truthy f then parse fs (default [] f) else Return ∅.

(** The part of [main] from the merge on. *)
Definition report (java_results js_results rust_results : results_dict)
  : list event :=
  let all_results := merge_results java_results js_results rust_results in
  [Print "Found results for {len(all_results)} libraries:";
   PrintLibraries all_results;
   Print "";
   Print "Generating graphs...";
   Render time_comparison_chart all_results;
   Render throughput_comparison_chart all_results;
   Render per_library_charts all_results;
   Render typescript_focused_chart all_results;
   Print "";
   Print "All graphs saved to: {output_dir}"].

(** What [main] does between the check of the results directory and
    the parsing. *)
Definition prologue : list event :=
  [Mkdir;
   Print "Parsing benchmark results...";
   Print "  Java: {java_file}";
   Print "  JavaScript: {js_file}";
   Print "  Rust: {rust_file}";
   Print ""].

(** [main]: the trace and the ending of a run in which [mkdir] and the
    chart writers return; their calls are recorded as events. *)
Definition main (w : world) : list event * ending :=
  if negb (results_dir_exists w) then
    ([Print "Error: Results directory not found: {results_dir}";
      Print "Run the benchmarks first with: ./scripts/run-all-benchmarks.sh"],
     SysExit 1)
  else
    let '(java_file, js_file, rust_file) := latest_results w in
    let parsed :=
      java_results ← parse_if parse_java_results (files w) java_file;
      js_results ← parse_if parse_javascript_results (files w) js_file;
      rust_results ← parse_if parse_rust_results (files w) rust_file;
      Return (java_results, js_results, rust_results) in
    match parsed with
    | Raise e => (prologue, Uncaught e)
    | Return (java_results, js_results, rust_results) =>
        if negb (dict_truthy java_results || dict_truthy js_results
                 || dict_truthy rust_results)
        then (prologue ++ [Print "Error: No benchmark results found!"],
              SysExit 1)
        else (prologue ++ report java_results js_results rust_results, Finished)
    end.

(** Whether an event is a call of a chart writer. *)
Definition is_render (e : event) : bool :=
  match e with Render _ _ => true | _ => false end.

(** ** Locating the latest result files *)

(** [a < b] on [str]: code point by code point, a proper prefix first. *)
Fixpoint str_ltb (a b : str) : bool :=
  match a, b with
  | _, [] => false
  | [], _ :: _ => true
  | x :: a', y :: b' => (x <? y)%N || ((x =? y)%N && str_ltb a' b')
  end.

(** [sub in s] *)
Fixpoint contains (sub s : str) : bool :=
  match strip_prefix sub s with
  | Some _ => true
  | None =>
      match s with
      | [] => false
      | _ :: s' => contains sub s'
      end
  end.

(** Whether a file name matches a glob pattern [prefix*suffix]: it
    starts with the prefix and what follows ends with the suffix. *)
Definition glob_match (prefix suffix name : str) : bool :=
  match strip_prefix prefix name with
  | Some rest =>
      match strip_prefix (rev suffix) (rev rest) with
      | Some _ => true
      | None => false
      end
  | None => false
  end.

(** [results_path.glob(prefix*suffix)] over the names in the directory,
    which come in no particular order. *)
Definition glob (prefix suffix : string) (listing : list str) : list str :=
  List.filter (glob_match (lit prefix) (lit suffix)) listing.

(** [sorted(xs, reverse=True)]: descending, equal elements in their
    original order. *)
Fixpoint insert_descending (x : str) (sorted : list str) : list str :=
  match sorted with
  | [] => [x]
  | y :: sorted' =>
      if str_ltb x y then y :: insert_descending x sorted' else x :: sorted
  end.

Definition sorted_reverse (xs : list str) : list str :=
  foldr insert_descending [] xs.

(** [find_latest_results] over the names found in the results
    directory.  Each component is the name of the chosen file, which
    the function returns joined to the directory, or [None]. *)
Definition find_latest_results (listing : list str)
  : option str * option str * option str :=
  let java_files := sorted_reverse (glob "java_" ".txt" listing) in
  let js_files := sorted_reverse (glob "js_" ".txt" listing) in
  let rust_files := sorted_reverse (glob "rust_" ".txt" listing) in
  (* Filter out realworld files for this purpose, we want the regular ones *)
  let java_files :=
    List.filter (fun f => negb (contains (lit "realworld") f)
                          && negb (contains (lit "our_parser") f))
                java_files in
  let js_files :=
    List.filter (fun f => negb (contains (lit "realworld") f)) js_files in
  let rust_files :=
    List.filter (fun f => negb (contains (lit "realworld") f)) rust_files in
  let java_file := head java_files in
  let js_file := head js_files in
  let rust_file := head rust_files in
  (java_file, js_file, rust_file).

(** ** Colors *)

(** [colors] of [get_language_color]. *)
Definition language_colors : gmap str str :=
  list_to_map
    [(lit "Rust", lit "#dea584");
     (lit "JavaScript", lit "#f7df1e");
     (lit "Java", lit "#5382a1")].

Definition get_language_color (language : str) : str :=
  default (lit "#888888") (language_colors !! language).

(** [colors] of [get_parser_color]. *)
Definition parser_colors : gmap str str :=
  list_to_map
    [(lit "OXC", lit "#e07020");
     (lit "SWC", lit "#ff9955");
     (lit "Meriyah", lit "#2d9f2d");
     (lit "Acorn", lit "#7cb342");
     (lit "@babel/parser", lit "#f5da55");
     (lit "Harmonica", lit "#1e88e5")].

Definition get_parser_color (parser language : str) : str :=
  default (get_language_color language) (parser_colors !! parser).

(** ** What the chart writers select and write

    The drawing itself is matplotlib's.  Modelled are the data the
    per-library and the TypeScript chart writers hand to [barh], the
    upper axis limits they compute with [max], and the files they
    save; the text labels drawn next to the bars are left out. *)

(** [library_order], the same list in every chart writer. *)
Definition library_order : list str :=
  [lit "React"; lit "Vue 3"; lit "React DOM"; lit "Lodash"; lit "Three.js";
   lit "TypeScript Compiler"].

(** [[lib for lib in library_order if lib in results]] *)
Definition libraries (results : results_dict) : list str :=
  List.filter (fun lib => bool_decide (is_Some (results !! lib))) library_order.

(** [sorted(lib_results, key=lambda r: r.avg_time_ms)]: ascending,
    equal times in their original order. *)
Fixpoint insert_by_time (r : BenchmarkResult) (sorted : list BenchmarkResult)
  : list BenchmarkResult :=
  match sorted with
  | [] => [r]
  | y :: sorted' =>
      if SFltb (avg_time_ms y) (avg_time_ms r)
      then y :: insert_by_time r sorted'
      else r :: sorted
  end.

Definition sorted_by_time (lib_results : list BenchmarkResult)
  : list BenchmarkResult :=
  foldr insert_by_time [] lib_results.

(** [max(xs)] on floats: the first greatest element; [ValueError] on an
    empty sequence. *)
Definition py_max (xs : list float64) : py float64 :=
  match xs with
  | [] => Raise ValueError
  | x :: xs' =>
      Return (foldl (fun best item => if SFltb best item then item else best)
                    x xs')
  end.

(** The product of two floats, and a decimal literal of the source. *)
Definition fmul (a b : float64) : float64 := SFmul 53 1024 a b.
Definition literal (digits : Z) (decimals : nat) : float64 :=
  nearest_float digits decimals.

(** [str.lower()] on the names of [library_order], which are ASCII. *)
Definition lower (s : str) : str :=
  map (fun c => if ((65 <=? c) && (c <=? 90))%N then (c + 32)%N else c) s.

(** [lib.lower().replace(' ', '_').replace('.', '')] *)
Definition safe_name (lib : str) : str :=
  remove_all (lit ".")
    (map (fun c => if (c =? 32)%N then N_of_ascii "_" else c) (lower lib)).

(** One chart saved by [create_per_library_charts]: the arguments of
    [barh], the upper limit of the x axis and the name of the file
    inside [output_dir]. *)
Record library_chart := {
  chart_lib : str;
  chart_parsers : list str;
  chart_times : list float64;
  chart_colors : list str;
  chart_xlim : float64;
  chart_file : str
}.

(** The loop of [create_per_library_charts] over [library_order]: the
    charts saved, in order, and the exception that ended the loop, if
    any. *)
Fixpoint per_library_loop (results : results_dict) (libs : list str)
  : list library_chart * option exn :=
  match libs with
  | [] => ([], None)
  | lib :: libs' =>
      match results !! lib with
      | None => per_library_loop results libs'       (* continue *)
      | Some lib_results =>
          (* Sort by time (fastest first) *)
          let lib_results_sorted := sorted_by_time lib_results in
          let parsers := parser <$> lib_results_sorted in
          let times := avg_time_ms <$> lib_results_sorted in
          let colors :=
            (fun r => get_parser_color (parser r) (language r))
              <$> lib_results_sorted in
          (* Extend x-axis to fit labels *)
          match py_max times with
          | Raise e => ([], Some e)
          | Return longest =>
              let saved :=
                {| chart_lib := lib; chart_parsers := parsers;
                   chart_times := times; chart_colors := colors;
                   chart_xlim := fmul longest (literal 125 2);
                   chart_file := safe_name lib ++ lit "_comparison.png" |} in
              let '(later, e) := per_library_loop results libs' in
              (saved :: later, e)
          end
      end
  end.

Definition create_per_library_charts (results : results_dict)
  : list library_chart * option exn :=
  per_library_loop results library_order.

(** The chart saved by [create_typescript_focused_chart]: the two bar
    panels and the upper limits of their x axes. *)
Record focused_chart := {
  focus_parsers : list str;
  focus_times : list float64;
  focus_throughputs : list float64;
  focus_colors : list str;
  focus_time_xlim : float64;
  focus_throughput_xlim : float64
}.

(** [create_typescript_focused_chart]: nothing when the library is
    absent, else the chart saved. *)
Definition create_typescript_focused_chart (results : results_dict)
  : py (option focused_chart) :=
  match results !! lit "TypeScript Compiler" with
  | None => Return None
  | Some lib_results =>
      let lib_results := sorted_by_time lib_results in
      let parsers := parser <$> lib_results in
      let times := avg_time_ms <$> lib_results in
      let throughputs := throughput_kb_ms <$> lib_results in
      let colors :=
        (fun r => get_parser_color (parser r) (language r)) <$> lib_results in
      longest ← py_max times;
      highest ← py_max throughputs;
      Return (Some {| focus_parsers := parsers; focus_times := times;
                      focus_throughputs := throughputs;
                      focus_colors := colors;
                      focus_time_xlim := fmul longest (literal 13 1);
                      focus_throughput_xlim := fmul highest (literal 13 1) |})
  end.

(** ** The grouped charts

    Of the two grouped bar charts, modelled are the tick labels and the
    series handed to [bar]: label, heights and color of each.  A
    [dict] is visited in the order its keys were inserted, which for
    the table of [merge_results] is the order of a set; the chart
    writers therefore take, beside the table, the list of its keys in
    the order [results.values()] visits them. *)

(** [results.values()], given the keys in the order of the [dict]. *)
Definition values (results : results_dict) (keys : list str)
  : list (list BenchmarkResult) :=
  (fun k => default [] (results !! k)) <$> keys.

(** [language_order] *)
Definition language_order : gmap str nat :=
  list_to_map [(lit "Rust", 0); (lit "JavaScript", 1); (lit "Java", 2)].

(** [a < b] on tuples of an [int] and a [str]. *)
Definition key_ltb (a b : nat * str) : bool :=
  (a.1 <? b.1) || ((a.1 =? b.1) && str_ltb a.2 b.2).

(** [sorted(ps, key=key)]: ascending, equal keys in their original
    order. *)
Fixpoint insert_by_key (key : str -> nat * str) (p : str) (sorted : list str)
  : list str :=
  match sorted with
  | [] => [p]
  | q :: sorted' =>
      if key_ltb (key q) (key p) then q :: insert_by_key key p sorted'
      else p :: sorted
  end.

Definition sorted_by_key (key : str -> nat * str) (ps : list str) : list str :=
  foldr (insert_by_key key) [] ps.

(** A height handed to [bar]: the [int] [0] of a parser without a
    measurement for the library, or a measured [float]. *)
Inductive height :=
| Zero
| Measured (value : float64).

(** One call of [bar]. *)
Record series := {
  series_label : str;
  series_heights : list height;
  series_color : str
}.

Record grouped_chart := {
  chart_libraries : list str;       (* the tick labels *)
  chart_series : list series        (* the calls of [bar], in order *)
}.

Definition create_time_comparison_chart (results : results_dict)
    (keys : list str) : grouped_chart :=
  (* Order libraries by size (smallest to largest) *)
  let libraries :=
    List.filter (fun lib => bool_decide (is_Some (results !! lib)))
                library_order in
  (* Get all unique parsers and their languages *)
  let '(all_parsers, parser_language) :=
    foldl (fun acc lib_results =>
             foldl (fun '(all_parsers, parser_language) r =>
                      (all_parsers ∪ {[ parser r ]},
                       <[ parser r := language r ]> parser_language))
                   acc lib_results)
          ((∅ : gset str), (∅ : gmap str str)) (values results keys) in
  (* Order parsers: Rust first, then JS, then Java *)
  let parsers :=
    sorted_by_key
      (fun p => (default 3 (language_order
                              !! default (lit "Other") (parser_language !! p)),
                 p))
      (elements all_parsers) in
  {| chart_libraries := libraries;
     chart_series :=
       (fun parser' =>
          let times :=
            (fun lib =>
               let lib_results := default [] (results !! lib) in
               let parser_result :=
                 List.find (fun r => bool_decide (parser r = parser'))
                           lib_results in
               match parser_result with
               | Some parser_result => Measured (avg_time_ms parser_result)
               | None => Zero
               end) <$> libraries in
          let color :=
            get_parser_color parser'
              (default (lit "Other") (parser_language !! parser')) in
          {| series_label := parser'; series_heights := times;
             series_color := color |}) <$> parsers |}.

Definition create_throughput_comparison_chart (results : results_dict)
    (keys : list str) : grouped_chart :=
  (* Order libraries by size *)
  let libraries :=
    List.filter (fun lib => bool_decide (is_Some (results !! lib)))
                library_order in
  (* Get all unique parsers *)
  let '(all_parsers, parser_language) :=
    foldl (fun acc lib_results =>
             foldl (fun '(all_parsers, parser_language) r =>
                      (all_parsers ∪ {[ parser r ]},
                       <[ parser r := language r ]> parser_language))
                   acc lib_results)
          ((∅ : gset str), (∅ : gmap str str)) (values results keys) in
  (* Order parsers *)
  let parsers :=
    sorted_by_key
      (fun p => (default 3 (language_order
                              !! default (lit "Other") (parser_language !! p)),
                 p))
      (elements all_parsers) in
  {| chart_libraries := libraries;
     chart_series :=
       (fun parser' =>
          let throughputs :=
            (fun lib =>
               let lib_results := default [] (results !! lib) in
               let parser_result :=
                 List.find (fun r => bool_decide (parser r = parser'))
                           lib_results in
               match parser_result with
               | Some parser_result =>
                   Measured (throughput_kb_ms parser_result)
               | None => Zero
               end) <$> libraries in
          let color :=
            get_parser_color parser'
              (default (lit "Other") (parser_language !! parser')) in
          {| series_label := parser'; series_heights := throughputs;
             series_color := color |}) <$> parsers |}.

(** ** Vocabulary of the properties *)

(** *** The extractors taken apart

    The three extractors share their prologue, and the JavaScript and
    Rust extractors share their outer loop; the parts are named here so
    that properties can be stated once. *)

(** The prologue: the mapping is empty when the file is missing. *)
Definition with_file (fs : filesystem) (filepath : str)
    (body : str -> py results_dict) : py results_dict :=
  match fs filepath with
  | Missing => Return ∅
  | Unreadable => Raise OSError
  | Text content => body content
  end.

(** The body of the loop of [parse_java_results]. *)
Definition java_step (content : str) (results : results_dict) (m : pymatch)
  : py results_dict :=
  let lib_name := strip (group content m 1) in
  lib_size ← float (group content m 2);
  let remaining := drop (m_end m) content in
  match search java_result_pattern remaining with
  | Some result_match =>
      avg_time ← float (group remaining result_match 1);
      throughput ← float (group remaining result_match 2);
      Return (<[lib_name :=
                  [{| parser := lit "Harmonica"; language := lit "Java";
                      avg_time_ms := avg_time;
                      throughput_kb_ms := throughput |}]]> results)
  | None => Return results
  end.

(** The text between header [i] and the next header (or the end). *)
Definition section_of (content : str) (lib_matches : list pymatch)
    (i : nat) (lib_match : pymatch) : str :=
  let start := m_end lib_match in
  let end_ :=
    match lib_matches !! (i + 1) with
    | Some next => m_start next
    | None => length content
    end in
  slice content start end_.

(** The body of the inner loop of [parse_javascript_results]. *)
Definition js_row (section : str) (result_match : pymatch) : py BenchmarkResult :=
  let parser := strip (group section result_match 1) in
  avg_time ← float (group section result_match 2);
  throughput ← float (group section result_match 3);
  Return {| parser := parser; language := lit "JavaScript";
            avg_time_ms := avg_time; throughput_kb_ms := throughput |}.

(** The body of the inner loop of [parse_rust_results]. *)
Definition rust_row (section : str) (result_match : pymatch) : py BenchmarkResult :=
  let parser := strip (group section result_match 1) in
  let parser := remove_all (lit " (Rust)") parser in
  avg_time ← float (group section result_match 2);
  throughput ← float (group section result_match 3);
  Return {| parser := parser; language := lit "Rust";
            avg_time_ms := avg_time; throughput_kb_ms := throughput |}.

(** The body of the outer loop of [parse_javascript_results] and
    [parse_rust_results], which differ in the row pattern and the row
    body only. *)
Definition section_step (result_pattern : pattern)
    (row : str -> pymatch -> py BenchmarkResult)
    (content : str) (lib_matches : list pymatch)
    (results : results_dict) (il : nat * pymatch) : py results_dict :=
  let '(i, lib_match) := il in
  let lib_name := strip (group content lib_match 1) in
  let lib_name := normalize_library_name lib_name in
  let section := section_of content lib_matches i lib_match in
  lib_results ← collect (row section) (finditer result_pattern section);
  Return (if lib_results is [] then results
          else <[lib_name := lib_results]> results).

Definition parse_sections (result_pattern : pattern)
    (row : str -> pymatch -> py BenchmarkResult) (content : str)
  : py results_dict :=
  let lib_matches := finditer library_pattern content in
  for_each (section_step result_pattern row content lib_matches) ∅
           (enumerate lib_matches).

(** The six raw labels of [name_map]. *)
Definition raw_labels : list str :=
  [lit "react.production.min.js"; lit "vue.global.prod.js";
   lit "react-dom.production.min.js"; lit "lodash.js"; lit "three.js";
   lit "typescript.js"].

(** The headers of a text, and the key under which the JavaScript and
    Rust extractors file a header. *)
Definition headers (content : str) : list pymatch :=
  finditer library_pattern content.

Definition lib_key (content : str) (h : pymatch) : str :=
  normalize_library_name (strip (group content h 1)).

(** The result rows of a format in the section of header [i]. *)
Definition section_rows (result_pattern : pattern) (content : str)
    (i : nat) (h : pymatch) : list pymatch :=
  finditer result_pattern (section_of content (headers content) i h).

(** Whether a [py] computation returns. *)
Definition returns {A} (m : py A) : bool :=
  match m with Return _ => true | Raise _ => false end.

(** A row is well formed when both of its numeric fields, groups [a]
    and [b], are float literals. *)
Definition row_ok (a b : nat) (text : str) (rm : pymatch) : bool :=
  returns (float (group text rm a)) && returns (float (group text rm b)).

(** Every row of every section is well formed (groups 2 and 3 of the
    JavaScript and Rust row patterns). *)
Definition sections_ok (result_pattern : pattern) (content : str) : bool :=
  forallb
    (fun ih : nat * pymatch =>
       let section := section_of content (headers content) ih.1 ih.2 in
       forallb (row_ok 2 3 section) (finditer result_pattern section))
    (enumerate (headers content)).

(** The dictionary update closing an iteration of an extractor's outer
    loop: [if lib_results: results[lib_name] = lib_results]. *)
Definition put (results : results_dict) (e : str * list BenchmarkResult)
  : results_dict :=
  if e.2 is [] then results else <[e.1 := e.2]> results.

(** The non-empty list filed last under [k] in a sequence of updates. *)
Fixpoint binding (k : str) (es : list (str * list BenchmarkResult))
  : option (list BenchmarkResult) :=
  match es with
  | [] => None
  | e :: es' =>
      match binding k es' with
      | Some l => Some l
      | None =>
          if decide (e.1 = k) then (if e.2 is [] then None else Some e.2)
          else None
      end
  end.

(** What an iteration of the outer loop of [parse_sections] files. *)
Definition section_entry (result_pattern : pattern)
    (row : str -> pymatch -> py BenchmarkResult)
    (content : str) (lib_matches : list pymatch) (il : nat * pymatch)
  : py (str * list BenchmarkResult) :=
  let section := section_of content lib_matches il.1 il.2 in
  lib_results ← collect (row section) (finditer result_pattern section);
  Return (lib_key content il.2, lib_results).

(** The declarative reading of a pattern: [runs pat w pos st e st'] when
    [pat] consumes exactly the word [w] from position [pos], ending at
    [e], and turns the capture state [st] into [st']. *)
Inductive runs : pattern -> str -> nat -> caps -> nat -> caps -> Prop :=
| runs_nil pos st : runs [] [] pos st pos st
| runs_chr p rest c w pos st e st' :
    p c = true ->
    runs rest w (S pos) st e st' ->
    runs (Chr p :: rest) (c :: w) pos st e st'
| runs_plus g p rest u w pos st e st' :
    u <> [] -> forallb p u = true ->
    runs rest w (pos + length u) st e st' ->
    runs (Plus g p :: rest) (u ++ w) pos st e st'
| runs_open rest w pos st e st' :
    runs rest w pos {| opened := pos; closed := closed st |} e st' ->
    runs (GOpen :: rest) w pos st e st'
| runs_close rest w pos st e st' :
    runs rest w pos
      {| opened := opened st; closed := closed st ++ [(opened st, pos)] |}
      e st' ->
    runs (GClose :: rest) w pos st e st'.

(** No test of the pattern accepts the code point [c]. *)
Definition rejects (c : char) (pat : pattern) : bool :=
  forallb (fun it => match it with
                     | Chr p | Plus _ p => negb (p c)
                     | GOpen | GClose => true
                     end) pat.

(** The text of a header: the declaration line and, on the next line,
    the size declaration. *)
Definition header_text (name size : str) : str :=
  lit "Library: " ++ name ++ [newline] ++ lit "Size: " ++ size ++ lit " KB".

(** What stands before a second header: a banner line, a first header
    and its result. *)
Definition banner_and_header : str :=
  lit "JavaScript parser benchmarks" ++ [newline]
  ++ header_text (lit "Bar") (lit "2.0") ++ [newline]
  ++ lit "Our Java Parser | 0.5 | 4.0" ++ [newline].

(** A text in which a line stands between the declaration line and the
    size line. *)
Definition size_line_later : str :=
  lit "Library: Foo" ++ [newline] ++ lit "Version: 1" ++ [newline]
  ++ lit "Size: 10.0 KB" ++ [newline]
  ++ lit "Our Java Parser | 1.5 | 6.7" ++ [newline].

(** The key under which the Java extractor files a header: the name as
    read. *)
Definition java_key (content : str) (h : pymatch) : str :=
  strip (group content h 1).

(** What an iteration of the loop of [parse_java_results] files. *)
Definition java_entry (content : str) (m : pymatch)
  : py (str * list BenchmarkResult) :=
  lib_size ← float (group content m 2);
  let remaining := drop (m_end m) content in
  match search java_result_pattern remaining with
  | Some result_match =>
      avg_time ← float (group remaining result_match 1);
      throughput ← float (group remaining result_match 2);
      Return (java_key content m,
              [{| parser := lit "Harmonica"; language := lit "Java";
                  avg_time_ms := avg_time; throughput_kb_ms := throughput |}])
  | None => Return (java_key content m, [])
  end.

(** Every text the Java extractor passes to [float] is a float literal:
    the size of each header and the fields of the result found after
    it. *)
Definition java_ok (content : str) : bool :=
  forallb
    (fun h =>
       returns (float (group content h 2))
       && match search java_result_pattern (drop (m_end h) content) with
          | Some rm => row_ok 1 2 (drop (m_end h) content) rm
          | None => true
          end)
    (headers content).

(** The claim of exact extraction, in the words of the specification:
    the extractor returns a table in which a library whose section has
    no row is absent and a library whose section has [M >= 1] rows is
    bound to [M] measurements holding, in order, the values of the
    numeric fields (groups [a] and [b]) of its rows. *)
Definition exact_extraction (parse : str -> py results_dict)
    (key : str -> pymatch -> str) (result_pattern : pattern) (a b : nat)
    (content : str) : Prop :=
  exists d,
    parse content = Return d
    /\ (forall k, k ∈ dom d ->
          exists i h, headers content !! i = Some h /\ key content h = k)
    /\ forall i h,
         headers content !! i = Some h ->
         let section := section_of content (headers content) i h in
         let rows := section_rows result_pattern content i h in
         (rows = [] -> d !! key content h = None)
         /\ (rows <> [] ->
             exists l,
               d !! key content h = Some l
               /\ length l = length rows
               /\ forall j rm,
                    rows !! j = Some rm ->
                    exists r,
                      l !! j = Some r
                      /\ float (group section rm a) = Return (avg_time_ms r)
                      /\ float (group section rm b)
                         = Return (throughput_kb_ms r)).

(** Sample report texts. *)
Definition line (s : string) : str := lit s ++ [newline].
Definition medal_line (medal : char) (s : string) : str :=
  medal :: lit s ++ [newline].
Definition gold : char := 129351%N.
Definition silver : char := 129352%N.

(** One Java library with two result rows in its section. *)
Definition java_two_rows : str :=
  line "Library: Foo" ++ line "Size: 10.0 KB"
  ++ line "Our Java Parser | 1.5 | 6.7"
  ++ line "Our Java Parser | 2.5 | 4.0".

(** Two JavaScript headers with the same normalized name, one row each. *)
Definition js_same_name : str :=
  line "Library: lodash.js" ++ line "Size: 531.3 KB"
  ++ medal_line gold " Meriyah | 0.295 | 1.00x | 35.5 KB/ms"
  ++ line "Library: Lodash" ++ line "Size: 531.3 KB"
  ++ medal_line gold " Acorn | 0.395 | 1.00x | 25.5 KB/ms".

(** The same with no row under the second header. *)
Definition js_later_empty : str :=
  line "Library: lodash.js" ++ line "Size: 531.3 KB"
  ++ medal_line gold " Meriyah | 0.295 | 1.00x | 35.5 KB/ms"
  ++ line "Library: Lodash" ++ line "Size: 531.3 KB".

(** The same in the Rust format. *)
Definition rust_later_empty : str :=
  line "Library: lodash.js" ++ line "Size: 531.3 KB"
  ++ medal_line gold " OXC (Rust) | 0.138 | 1.00x | 76.2"
  ++ line "Library: Lodash" ++ line "Size: 531.3 KB".

(** Two libraries in each format, the second with two rows. *)
Definition js_report : str :=
  line "Library: react.production.min.js" ++ line "Size: 10.5 KB"
  ++ medal_line gold " Meriyah | 0.295 | 1.00x | 35.5 KB/ms"
  ++ line "Library: lodash.js" ++ line "Size: 531.3 KB"
  ++ medal_line gold " Meriyah | 1.5 | 1.00x | 354.2 KB/ms"
  ++ medal_line silver " Acorn | 2.25 | 1.50x | 236.1 KB/ms".

Definition rust_report : str :=
  line "Library: react.production.min.js" ++ line "Size: 10.5 KB"
  ++ medal_line gold " OXC (Rust) | 0.138 | 1.00x | 76.2"
  ++ line "Library: lodash.js" ++ line "Size: 531.3 KB"
  ++ medal_line gold " OXC (Rust) | 1.5 | 1.00x | 354.2"
  ++ medal_line silver " SWC (Rust) | 2.25 | 1.50x | 236.1".

Definition java_report : str :=
  line "Library: React" ++ line "Size: 10.5 KB"
  ++ line "Our Java Parser | 1.5 | 6.7"
  ++ line "Library: Lodash" ++ line "Size: 531.3 KB"
  ++ line "Our Java Parser | 12.5 | 42.5".

(** A Java report whose first library has no result row. *)
Definition java_first_empty : str :=
  line "Library: A" ++ line "Size: 1.0 KB"
  ++ line "Library: B" ++ line "Size: 2.0 KB"
  ++ line "Our Java Parser | 1.5 | 6.7".

(** A Java report that names a library by its file name. *)
Definition java_raw_name : str :=
  line "Library: lodash.js" ++ line "Size: 531.3 KB"
  ++ line "Our Java Parser | 1.5 | 6.7".

(** Two machines: one with no result file at all, one with a Java
    report only. *)
Definition world_without_files : world :=
  {| results_dir_exists := true;
     latest_results := (None, None, None);
     files := fun _ => Missing |}.

Definition foo_report : str :=
  line "Library: Foo" ++ line "Size: 10.0 KB"
  ++ line "Our Java Parser | 1.5 | 6.7".

Definition world_with_java_only : world :=
  {| results_dir_exists := true;
     latest_results := (Some (lit "benchmark-results/java_20250101.txt"),
                        None, None);
     files := fun path =>
       if decide (path = lit "benchmark-results/java_20250101.txt")
       then Text foo_report else Missing |}.

Definition no_results_message : event :=
  Print "Error: No benchmark results found!".

(** Sample tables, one measurement per source. *)
Definition sample (parser_name language_name : string) : BenchmarkResult :=
  {| parser := lit parser_name; language := lit language_name;
     avg_time_ms := S754_zero false; throughput_kb_ms := S754_zero false |}.

Definition java_only : results_dict :=
  {[ lit "React" := [sample "Harmonica" "Java"] ]}.
Definition js_only : results_dict :=
  {[ lit "Lodash" := [sample "Meriyah" "JavaScript";
                      sample "Acorn" "JavaScript"] ]}.
Definition rust_only : results_dict :=
  {[ lit "Vue 3" := [sample "OXC" "Rust"] ]}.
Definition rust_lodash : results_dict :=
  {[ lit "Lodash" := [sample "OXC" "Rust"] ]}.

(** *** Vocabulary of the further properties *)

(** The number of code points of a text in a class. *)
Definition count (p : char -> bool) (s : str) : nat :=
  length (List.filter p s).

Definition is_dot (c : char) : bool := (c =? 46)%N.

(** A float that is [+0.0], positive and finite, or [+inf]: neither
    negative nor a NaN. *)
Definition nonneg_float (f : float64) : bool :=
  match f with
  | S754_zero false | S754_infinity false | S754_finite false _ _ => true
  | _ => false
  end.

(** The tables read from three of the sample reports. *)
Definition harmonica_row : BenchmarkResult :=
  {| parser := lit "Harmonica"; language := lit "Java";
     avg_time_ms := nearest_float 15 1;
     throughput_kb_ms := nearest_float 67 1 |}.

Definition meriyah_row : BenchmarkResult :=
  {| parser := lit "Meriyah"; language := lit "JavaScript";
     avg_time_ms := nearest_float 295 3;
     throughput_kb_ms := nearest_float 355 1 |}.

Definition oxc_row : BenchmarkResult :=
  {| parser := lit "OXC"; language := lit "Rust";
     avg_time_ms := nearest_float 138 3;
     throughput_kb_ms := nearest_float 762 1 |}.

Definition foo_table : results_dict := {[ lit "Foo" := [harmonica_row] ]}.
Definition js_lodash_table : results_dict := {[ lit "Lodash" := [meriyah_row] ]}.
Definition rust_lodash_table : results_dict := {[ lit "Lodash" := [oxc_row] ]}.

(** The files [find_latest_results] considers for each format. *)
Definition java_candidate (f : str) : bool :=
  glob_match (lit "java_") (lit ".txt") f
  && (negb (contains (lit "realworld") f)
      && negb (contains (lit "our_parser") f)).

Definition js_candidate (f : str) : bool :=
  glob_match (lit "js_") (lit ".txt") f && negb (contains (lit "realworld") f).

Definition rust_candidate (f : str) : bool :=
  glob_match (lit "rust_") (lit ".txt") f
  && negb (contains (lit "realworld") f).

(** [chosen] is the greatest candidate of the listing in the order of
    [str], or [None] when the listing has no candidate. *)
Definition latest_of (candidate : str -> bool) (listing : list str)
    (chosen : option str) : Prop :=
  match chosen with
  | Some f =>
      f ∈ listing /\ candidate f = true
      /\ forall g, g ∈ listing -> candidate g = true -> str_ltb f g = false
  | None => forall g, g ∈ listing -> candidate g = false
  end.

(** A results directory. *)
Definition sample_listing : list str :=
  [lit "js_20250101_120000.txt";
   lit "java_20250101_120000.txt";
   lit "java_realworld_20250401_120000.txt";
   lit "rust_20250102_080000.txt";
   lit "java_20250301_090000.txt";
   lit "java_our_parser_20250501_120000.txt";
   lit "notes.md"].




(** *** Bars and axis limits *)

Definition is_nan (f : float64) : bool :=
  match f with S754_nan => true | _ => false end.

(** No time of the list is a NaN. *)
Definition times_are_numbers (l : list BenchmarkResult) : bool :=
  forallb (fun r => negb (is_nan (avg_time_ms r))) l.

(** No element of the list is less than an element before it. *)
Definition ascending (ts : list float64) : Prop :=
  StronglySorted (fun a b => SFltb b a = false) ts.

(** [m] is an element of [ts] that no element of [ts] exceeds. *)
Definition greatest (m : float64) (ts : list float64) : Prop :=
  m ∈ ts /\ forall t, t ∈ ts -> SFltb m t = false.

(** The color of the bar of a measurement. *)
Definition bar_color (r : BenchmarkResult) : str :=
  get_parser_color (parser r) (language r).

(** The chart of [Lodash] for the table merged from the sample tables,
    and a table of the TypeScript compiler with its chart. *)
Definition lodash_chart : library_chart :=
  {| chart_lib := lit "Lodash";
     chart_parsers := [lit "OXC"; lit "Meriyah"];
     chart_times := [nearest_float 138 3; nearest_float 295 3];
     chart_colors := [lit "#e07020"; lit "#2d9f2d"];
     chart_xlim := fmul (nearest_float 295 3) (literal 125 2);
     chart_file := lit "lodash_comparison.png" |}.

Definition typescript_table : results_dict :=
  {[ lit "TypeScript Compiler" := [meriyah_row; oxc_row] ]}.

Definition typescript_chart : focused_chart :=
  {| focus_parsers := [lit "OXC"; lit "Meriyah"];
     focus_times := [nearest_float 138 3; nearest_float 295 3];
     focus_throughputs := [nearest_float 762 1; nearest_float 355 1];
     focus_colors := [lit "#e07020"; lit "#2d9f2d"];
     focus_time_xlim := fmul (nearest_float 295 3) (literal 13 1);
     focus_throughput_xlim := fmul (nearest_float 762 1) (literal 13 1) |}.

(** *** The grouped charts taken apart *)

(** [keys] lists the keys of the table, each once, in some order. *)
Definition iteration_order (results : results_dict) (keys : list str) : Prop :=
  NoDup keys /\ forall k, k ∈ keys <-> is_Some (results !! k).

(** The measurements of the table. *)
Definition measured (results : results_dict) (r : BenchmarkResult) : Prop :=
  exists k l, results !! k = Some l /\ r ∈ l.

(** No parser name comes with two languages. *)
Definition one_language_per_parser (results : results_dict) : Prop :=
  forall r r', measured results r -> measured results r' ->
               parser r = parser r' -> language r = language r'.

(** The body of the first loop of the two chart writers, and the
    loop. *)
Definition note_parser
  : gset str * gmap str str -> BenchmarkResult -> gset str * gmap str str :=
  fun '(all_parsers, parser_language) r =>
    (all_parsers ∪ {[ parser r ]},
     <[ parser r := language r ]> parser_language).

Definition unique_parsers (vals : list (list BenchmarkResult))
  : gset str * gmap str str :=
  foldl (fun acc lib_results => foldl note_parser acc lib_results)
        (∅, ∅) vals.

(** The position of a language in the charts. *)
Definition language_rank (language : str) : nat :=
  default 3 (language_order !! language).

(** The sort key of a parser. *)
Definition parser_key (parser_language : gmap str str) (p : str) : nat * str :=
  (language_rank (default (lit "Other") (parser_language !! p)), p).

(** The first measurement of a parser in a list. *)
Definition first_of (p : str) (l : list BenchmarkResult)
  : option BenchmarkResult :=
  List.find (fun r => bool_decide (parser r = p)) l.

(** The height of the bar of a parser for a library. *)
Definition bar_height (field : BenchmarkResult -> float64)
    (results : results_dict) (p lib : str) : height :=
  match first_of p (default [] (results !! lib)) with
  | Some r => Measured (field r)
  | None => Zero
  end.

(** What the two chart writers have in common. *)
Definition grouped (field : BenchmarkResult -> float64)
    (results : results_dict) (keys : list str) : grouped_chart :=
  let '(all_parsers, parser_language) :=
    unique_parsers (values results keys) in
  {| chart_libraries := libraries results;
     chart_series :=
       (fun p =>
          {| series_label := p;
             series_heights := bar_height field results p <$> libraries results;
             series_color :=
               get_parser_color p
                 (default (lit "Other") (parser_language !! p)) |})
       <$> sorted_by_key (parser_key parser_language)
             (elements all_parsers) |}.

(** One parser name under two languages, in two libraries. *)
Definition two_languages : results_dict :=
  {[ lit "React" := [ {| parser := lit "Esprima"; language := lit "JavaScript";
                         avg_time_ms := nearest_float 15 1;
                         throughput_kb_ms := nearest_float 67 1 |} ];
     lit "Lodash" := [ {| parser := lit "Esprima"; language := lit "Rust";
                          avg_time_ms := nearest_float 295 3;
                          throughput_kb_ms := nearest_float 355 1 |} ] ]}.

(** The table merged from the sample tables, two orders of its keys
    and the series of its time chart. *)
Definition sample_merged : results_dict :=
  merge_results foo_table js_lodash_table rust_lodash_table.

Definition sample_keys : list str := [lit "Foo"; lit "Lodash"].
Definition sample_keys' : list str := [lit "Lodash"; lit "Foo"].

Definition oxc_series : series :=
  {| series_label := lit "OXC";
     series_heights := [Measured (nearest_float 138 3)];
     series_color := lit "#e07020" |}.

Definition meriyah_series : series :=
  {| series_label := lit "Meriyah";
     series_heights := [Measured (nearest_float 295 3)];
     series_color := lit "#2d9f2d" |}.

Definition harmonica_series : series :=
  {| series_label := lit "Harmonica";
     series_heights := [Zero];
     series_color := lit "#1e88e5" |}.

(** A machine that holds the Java report of [Foo] and a Rust report
    that cannot be read. *)
Definition world_with_unreadable_rust : world :=
  {| results_dir_exists := true;
     latest_results := (Some (lit "benchmark-results/java_20250101.txt"),
                        None,
                        Some (lit "benchmark-results/rust_20250101.txt"));
     files := fun path =>
       if decide (path = lit "benchmark-results/java_20250101.txt")
       then Text foo_report
       else if decide (path = lit "benchmark-results/rust_20250101.txt")
       then Unreadable
       else Missing |}.

(** A JavaScript report with a row whose time has two dots, and a
    machine that holds it beside the Java report of [Foo]. *)
Definition js_malformed : str :=
  line "Library: lodash.js" ++ line "Size: 531.3 KB"
  ++ medal_line gold " Meriyah | 1.2.3 | 1.00x | 35.5 KB/ms".

Definition world_with_malformed_js : world :=
  {| results_dir_exists := true;
     latest_results := (Some (lit "benchmark-results/java_20250101.txt"),
                        Some (lit "benchmark-results/js_20250101.txt"),
                        None);
     files := fun path =>
       if decide (path = lit "benchmark-results/java_20250101.txt")
       then Text foo_report
       else if decide (path = lit "benchmark-results/js_20250101.txt")
       then Text js_malformed
       else Missing |}.

(** * Properties *)

Ltac compute_true := vm_compute; reflexivity.
Ltac decide_by_computation := apply (bool_decide_unpack _); vm_compute; exact I.

(** ** The extractors and their parts *)

Lemma parse_java_text_loop content :
  parse_java_text content
  = for_each (java_step content) ∅ (finditer library_pattern content).
Proof. reflexivity. Qed.

Lemma parse_javascript_text_sections content :
  parse_javascript_text content
  = parse_sections js_result_pattern js_row content.
Proof. reflexivity. Qed.

Lemma parse_rust_text_sections content :
  parse_rust_text content = parse_sections rust_result_pattern rust_row content.
Proof. reflexivity. Qed.

Lemma parse_java_results_with_file fs filepath :
  parse_java_results fs filepath = with_file fs filepath parse_java_text.
Proof. reflexivity. Qed.

Lemma parse_javascript_results_with_file fs filepath :
  parse_javascript_results fs filepath
  = with_file fs filepath parse_javascript_text.
Proof. reflexivity. Qed.

Lemma parse_rust_results_with_file fs filepath :
  parse_rust_results fs filepath = with_file fs filepath parse_rust_text.
Proof. reflexivity. Qed.

(** ** Name normalisation *)

Lemma name_map_unknown (name : str) :
  name ∉ raw_labels -> name_map !! name = None.
Proof.
  intros Hn. unfold name_map. apply not_elem_of_list_to_map_1.
  exact Hn.
Qed.

(** C8: each of the six raw labels of the table is mapped to its display
    name, and every other string is returned unchanged. *)
Theorem normalize_library_name_table :
  normalize_library_name (lit "react.production.min.js") = lit "React"
  /\ normalize_library_name (lit "vue.global.prod.js") = lit "Vue 3"
  /\ normalize_library_name (lit "react-dom.production.min.js") = lit "React DOM"
  /\ normalize_library_name (lit "lodash.js") = lit "Lodash"
  /\ normalize_library_name (lit "three.js") = lit "Three.js"
  /\ normalize_library_name (lit "typescript.js") = lit "TypeScript Compiler"
  /\ forall name : str,
       name ∉ raw_labels -> normalize_library_name name = name.
Proof.
  repeat split; try (vm_compute; reflexivity).
  intros name Hn. unfold normalize_library_name.
  rewrite (name_map_unknown name Hn). reflexivity.
Qed.

Lemma normalize_library_name_table_witness :
  (lit "jquery.js" ∉ raw_labels)
  /\ normalize_library_name (lit "jquery.js") = lit "jquery.js".
Proof.
  assert (Hn : lit "jquery.js" ∉ raw_labels).
  { unfold raw_labels. rewrite !not_elem_of_cons. repeat split;
      try (intros H; vm_compute in H; discriminate H).
    apply not_elem_of_nil. }
  split; [exact Hn |].
  exact (proj2 (proj2 (proj2 (proj2 (proj2 (proj2
           normalize_library_name_table))))) (lit "jquery.js") Hn).
Defined.

(** ** Merging *)

(** The loop invariant of [merge_results]: after visiting the keys [X],
    exactly those are bound, each to its own list. *)
Lemma set_fold_insert_lookup (g : str -> list BenchmarkResult)
    (X : gset str) (k : str) :
  set_fold (fun lib (merged : results_dict) => <[lib := g lib]> merged) ∅ X !! k
  = if decide (k ∈ X) then Some (g k) else None.
Proof.
  revert k.
  refine (set_fold_ind_L
            (fun (m : results_dict) (Y : gset str) =>
               forall k, m !! k = if decide (k ∈ Y) then Some (g k) else None)
            _ _ _ _ X).
  - intros k. rewrite lookup_empty. destruct (decide (k ∈ ∅)) as [H|H]; [|done].
    exfalso. set_solver.
  - intros x Y m Hx IH k. destruct (decide (x = k)) as [->|Hne].
    + rewrite lookup_insert_eq. destruct (decide _) as [_|H]; [done|].
      exfalso. set_solver.
    + rewrite lookup_insert_ne by done. rewrite IH.
      destruct (decide (k ∈ Y)) as [HY|HY], (decide (k ∈ {[x]} ∪ Y)) as [HU|HU];
        try done.
      * exfalso. apply HU, elem_of_union_r, HY.
      * exfalso. apply elem_of_union in HU as [HU|HU]; [|done].
        apply elem_of_singleton in HU. congruence.
Qed.

Lemma disjoint_dom_absent (a b : results_dict) (k : str) l :
  dom a ## dom b -> a !! k = Some l -> b !! k = None.
Proof.
  intros Hd Ha. apply not_elem_of_dom. intros Hb.
  apply (elem_of_dom_2 a) in Ha. exact (proj1 (elem_of_disjoint _ _) Hd k Ha Hb).
Qed.

Section Merge.
Variables java_results js_results rust_results : results_dict.

Lemma merge_results_lookup (k : str) :
  merge_results java_results js_results rust_results !! k
  = if decide (k ∈ all_libraries java_results js_results rust_results)
    then Some (merged_list java_results js_results rust_results k)
    else None.
Proof. unfold merge_results. apply set_fold_insert_lookup. Qed.

Lemma merge_results_dom :
  dom (merge_results java_results js_results rust_results)
  = dom java_results ∪ dom js_results ∪ dom rust_results.
Proof.
  apply set_eq. intros k. rewrite elem_of_dom, merge_results_lookup.
  unfold all_libraries. destruct (decide _) as [H|H].
  - split; [done | eauto].
  - split; [intros [? ?]; done | done].
Qed.

Lemma contribution_present (d : results_dict) k l :
  d !! k = Some l -> contribution d k = l.
Proof. unfold contribution. intros ->. reflexivity. Qed.

Lemma contribution_absent (d : results_dict) k :
  d !! k = None -> contribution d k = [].
Proof. unfold contribution. intros ->. reflexivity. Qed.

Lemma merge_results_present (k : str) :
  k ∈ dom java_results ∪ dom js_results ∪ dom rust_results ->
  merge_results java_results js_results rust_results !! k
  = Some (contribution java_results k ++ contribution js_results k
          ++ contribution rust_results k).
Proof.
  intros Hk. rewrite merge_results_lookup. unfold all_libraries.
  destruct (decide _); done.
Qed.
End Merge.

(** C4: the merged table has the union of the three key sets as its key
    set; every key is bound to the Java list, then the JavaScript list,
    then the Rust list (each when present).  With pairwise disjoint key
    sets a key is bound to the list of its one source, and a key of two
    sources is bound to the two lists in source order, whose length is
    the sum of theirs. *)
Theorem merge_results_union_concat
    (java_results js_results rust_results : results_dict) :
  let merged := merge_results java_results js_results rust_results in
  dom merged = dom java_results ∪ dom js_results ∪ dom rust_results
  /\ (forall k, k ∈ dom merged ->
        merged !! k = Some (contribution java_results k
                            ++ contribution js_results k
                            ++ contribution rust_results k))
  /\ (dom java_results ## dom js_results ->
      dom java_results ## dom rust_results ->
      dom js_results ## dom rust_results ->
      forall k l,
        java_results !! k = Some l \/ js_results !! k = Some l
        \/ rust_results !! k = Some l ->
        merged !! k = Some l)
  /\ (forall k a b,
        (java_results !! k = Some a /\ js_results !! k = Some b
         /\ rust_results !! k = None)
        \/ (java_results !! k = Some a /\ js_results !! k = None
            /\ rust_results !! k = Some b)
        \/ (java_results !! k = None /\ js_results !! k = Some a
            /\ rust_results !! k = Some b) ->
        merged !! k = Some (a ++ b)
        /\ forall l, merged !! k = Some l -> length l = length a + length b).
Proof.
  intros merged. unfold merged.
  split; [apply merge_results_dom|].
  split.
  { intros k Hk. rewrite merge_results_dom in Hk.
    apply merge_results_present. exact Hk. }
  split.
  { intros Hjs Hjr Hsr k l Hl.
    assert (Hk : k ∈ dom java_results ∪ dom js_results ∪ dom rust_results).
    { rewrite !elem_of_union, !elem_of_dom. destruct Hl as [H|[H|H]]; eauto. }
    rewrite merge_results_present by exact Hk.
    destruct Hl as [H|[H|H]]; rewrite (contribution_present _ _ _ H).
    - rewrite (contribution_absent js_results k),
        (contribution_absent rust_results k), app_nil_r;
        eauto using disjoint_dom_absent.
    - rewrite (contribution_absent java_results k),
        (contribution_absent rust_results k), app_nil_r;
        eauto using disjoint_dom_absent.
      symmetry in Hjs. eauto using disjoint_dom_absent.
    - symmetry in Hjr, Hsr.
      rewrite (contribution_absent java_results k),
        (contribution_absent js_results k);
        eauto using disjoint_dom_absent. }
  intros k a b Hk.
  assert (Hm : merge_results java_results js_results rust_results !! k
               = Some (a ++ b)).
  { assert (Hin : k ∈ dom java_results ∪ dom js_results ∪ dom rust_results).
    { rewrite !elem_of_union, !elem_of_dom.
      destruct Hk as [(H&_&_)|[(H&_&_)|(_&H&_)]]; eauto. }
    rewrite merge_results_present by exact Hin.
    destruct Hk as [(Ha&Hb&Hc)|[(Ha&Hb&Hc)|(Ha&Hb&Hc)]].
    - rewrite (contribution_present _ _ _ Ha), (contribution_present _ _ _ Hb),
        (contribution_absent _ _ Hc), app_nil_r. done.
    - rewrite (contribution_present _ _ _ Ha), (contribution_absent _ _ Hb),
        (contribution_present _ _ _ Hc). done.
    - rewrite (contribution_absent _ _ Ha), (contribution_present _ _ _ Hb),
        (contribution_present _ _ _ Hc). done. }
  split; [exact Hm|].
  intros l Hl. rewrite Hm in Hl. injection Hl as <-. apply length_app.
Qed.

Lemma merge_results_union_concat_witness :
  merge_results java_only js_only rust_only !! lit "Lodash"
  = Some [sample "Meriyah" "JavaScript"; sample "Acorn" "JavaScript"]
  /\ merge_results java_only js_only rust_lodash !! lit "Lodash"
     = Some ([sample "Meriyah" "JavaScript"; sample "Acorn" "JavaScript"]
             ++ [sample "OXC" "Rust"]).
Proof.
  split.
  - apply (proj1 (proj2 (proj2
             (merge_results_union_concat java_only js_only rust_only))));
      [decide_by_computation | decide_by_computation | decide_by_computation |].
    right. left. compute_true.
  - apply (proj2 (proj2 (proj2
             (merge_results_union_concat java_only js_only rust_lodash)))).
    right. right. repeat split; compute_true.
Defined.

(** ** Missing files *)

(** C6: an extractor given the path of a file that does not exist
    returns the empty mapping and raises nothing. *)
Theorem missing_file_empty_mapping (fs : filesystem) (filepath : str) :
  fs filepath = Missing ->
  parse_java_results fs filepath = Return ∅
  /\ parse_javascript_results fs filepath = Return ∅
  /\ parse_rust_results fs filepath = Return ∅.
Proof.
  intros Hm.
  unfold parse_java_results, parse_javascript_results, parse_rust_results.
  rewrite Hm. repeat split.
Qed.

Lemma missing_file_empty_mapping_witness :
  parse_java_results (fun _ => Missing) (lit "java_20250101.txt") = Return ∅
  /\ parse_javascript_results (fun _ => Missing) (lit "java_20250101.txt")
     = Return ∅
  /\ parse_rust_results (fun _ => Missing) (lit "java_20250101.txt") = Return ∅.
Proof.
  exact (missing_file_empty_mapping (fun _ => Missing)
           (lit "java_20250101.txt") eq_refl).
Defined.

(** ** The loops of the extractors *)

Lemma bind_return {A B} (m : py A) (k : A -> py B) (b : B) :
  m ≫= k = Return b -> exists a, m = Return a /\ k a = Return b.
Proof. destruct m as [a|e]; [eauto | discriminate]. Qed.

Lemma collect_length {A B} (f : A -> py B) xs ys :
  collect f xs = Return ys -> length ys = length xs.
Proof.
  revert ys. induction xs as [|x xs IH]; intros ys H; simpl in H.
  - injection H as <-. reflexivity.
  - apply bind_return in H as (y & Hy & H).
    apply bind_return in H as (ys' & Hys & H).
    injection H as <-. simpl. f_equal. eauto.
Qed.

Lemma collect_lookup {A B} (f : A -> py B) xs ys i x :
  collect f xs = Return ys -> xs !! i = Some x ->
  exists y, ys !! i = Some y /\ f x = Return y.
Proof.
  revert ys i. induction xs as [|x0 xs IH]; intros ys i H Hi; [done|].
  simpl in H.
  apply bind_return in H as (y & Hy & H).
  apply bind_return in H as (ys' & Hys & H).
  injection H as <-. destruct i as [|i]; simpl in *.
  - injection Hi as <-. eauto.
  - eauto.
Qed.

Lemma collect_returns {A B} (f : A -> py B) xs :
  (forall x, x ∈ xs -> returns (f x) = true) ->
  exists ys, collect f xs = Return ys.
Proof.
  induction xs as [|x xs IH]; intros H; simpl; [eauto|].
  destruct (f x) as [y|e] eqn:Hy.
  - destruct IH as [ys Hys].
    { intros x' Hx'. apply H. by right. }
    rewrite Hys. simpl. eauto.
  - specialize (H x ltac:(by left)). rewrite Hy in H. discriminate.
Qed.

(** A loop whose body computes an entry and files it with [put] is the
    list of its entries followed by a left fold of [put]. *)
Lemma for_each_put {A} (step : results_dict -> A -> py results_dict)
    (entry : A -> py (str * list BenchmarkResult)) :
  (forall d x, step d x = e ← entry x; Return (put d e)) ->
  forall xs d0,
    for_each step d0 xs = es ← collect entry xs; Return (foldl put d0 es).
Proof.
  intros Hstep xs. induction xs as [|x xs IH]; intros d0; simpl; [done|].
  rewrite Hstep. destruct (entry x) as [e|err]; simpl; [|done].
  rewrite IH. destruct (collect entry xs); done.
Qed.

Lemma put_lookup d e k :
  put d e !! k
  = if decide (e.1 = k) then (if e.2 is [] then d !! k else Some e.2)
    else d !! k.
Proof.
  unfold put. destruct e as [k' [|r l]]; simpl.
  - destruct (decide _); done.
  - destruct (decide (k' = k)) as [->|Hne].
    + apply lookup_insert_eq.
    + by apply lookup_insert_ne.
Qed.

Lemma foldl_put_lookup es : forall d0 k,
  foldl put d0 es !! k
  = match binding k es with Some l => Some l | None => d0 !! k end.
Proof.
  induction es as [|e es IH]; intros d0 k; simpl; [done|].
  rewrite IH. destruct (binding k es); [done|].
  rewrite put_lookup. destruct (decide _); [|done].
  destruct (e.2); done.
Qed.

Lemma binding_nonempty k es l : binding k es = Some l -> l <> [].
Proof.
  induction es as [|e es IH]; simpl; [done|].
  destruct (binding k es); [intros [= <-]; by apply IH|].
  destruct (decide _); [|done]. destruct (e.2); [done|]. by intros [= <-].
Qed.

Lemma binding_elem k es l :
  binding k es = Some l -> (k, l) ∈ es.
Proof.
  induction es as [|e es IH]; simpl; [done|].
  destruct (binding k es).
  - intros [= <-]. right. by apply IH.
  - destruct (decide _) as [<-|]; [|done]. destruct e as [k' l']; simpl.
    destruct l'; [done|]. intros [= <-]. by left.
Qed.

(** With pairwise distinct keys, the entry filed at position [i] is the
    one that counts. *)
Lemma binding_nodup es i k l :
  NoDup es.*1 -> es !! i = Some (k, l) ->
  binding k es = if l is [] then None else Some l.
Proof.
  revert i. induction es as [|e es IH]; intros i Hnd Hi; [done|].
  simpl in Hnd. apply NoDup_cons in Hnd as [Hfresh Hnd]. simpl.
  destruct i as [|i]; simpl in Hi.
  - injection Hi as ->. simpl in *.
    destruct (binding k es) as [l'|] eqn:Hb.
    + exfalso. apply Hfresh. apply binding_elem in Hb.
      apply list_elem_of_fmap. by exists (k, l').
    + destruct (decide _); done.
  - rewrite (IH i Hnd Hi). destruct l; [|done].
    destruct (decide (e.1 = k)) as [He|]; [|done].
    exfalso. apply Hfresh. rewrite He.
    apply list_elem_of_fmap. exists (k, []). split; [done|].
    by apply list_elem_of_lookup_2 in Hi.
Qed.

(** When no later entry has key [k], the non-empty entry at [i] counts. *)
Lemma binding_last es i k l :
  es !! i = Some (k, l) -> l <> [] ->
  (forall j e, i < j -> es !! j = Some e -> e.1 <> k) ->
  binding k es = Some l.
Proof.
  revert i. induction es as [|e es IH]; intros i Hi Hl Hlater; [done|].
  simpl. destruct i as [|i]; simpl in Hi.
  - injection Hi as ->. simpl.
    destruct (binding k es) as [l'|] eqn:Hb.
    + exfalso. apply binding_elem in Hb.
      apply list_elem_of_lookup in Hb as [j Hj].
      apply (Hlater (S j) (k, l')); [lia | done | done].
    + destruct (decide _); [|done]. destruct l; done.
  - rewrite (IH i Hi Hl); [done|].
    intros j e' Hj He'. apply (Hlater (S j) e'); [lia | done].
Qed.

Lemma enumerate_lookup {A} (xs : list A) i j x :
  enumerate xs !! i = Some (j, x) <-> j = i /\ xs !! i = Some x.
Proof.
  unfold enumerate. rewrite lookup_zip_with_Some. split.
  - intros (a & b & [= -> ->] & Ha & Hb).
    apply lookup_seq in Ha as [-> _]. done.
  - intros [-> Hx]. exists i, x. split; [done|]. split; [|done].
    apply lookup_seq. split; [done|]. by apply lookup_lt_Some in Hx.
Qed.

Lemma enumerate_elem {A} (xs : list A) j x :
  (j, x) ∈ enumerate xs -> xs !! j = Some x.
Proof.
  intros H. apply list_elem_of_lookup in H as [i Hi].
  apply enumerate_lookup in Hi as [-> Hx]. done.
Qed.

Lemma enumerate_snd {A} (xs : list A) : (enumerate xs).*2 = xs.
Proof.
  unfold enumerate. apply snd_zip. by rewrite length_seq.
Qed.

Section ParseSections.
Variable result_pattern : pattern.
Variable row : str -> pymatch -> py BenchmarkResult.

(** What the two row bodies have in common: a row whose two numeric
    fields are float literals yields a measurement, and a measurement
    holds the values of those two fields. *)
Hypothesis row_returns : forall section rm,
  row_ok 2 3 section rm = true -> returns (row section rm) = true.
Hypothesis row_fields : forall section rm r,
  row section rm = Return r ->
  float (group section rm 2) = Return (avg_time_ms r)
  /\ float (group section rm 3) = Return (throughput_kb_ms r).

Variable content : str.

Local Abbreviation entry :=
  (section_entry result_pattern row content (headers content)).

Lemma section_step_entry d il :
  section_step result_pattern row content (headers content) d il
  = e ← entry il; Return (put d e).
Proof.
  destruct il as [i h]. unfold section_step, entry, section_entry, lib_key.
  simpl. destruct (collect _ _) as [l|err]; simpl; [|done].
  unfold put. simpl. destruct l; done.
Qed.

Lemma parse_sections_entries :
  parse_sections result_pattern row content
  = es ← collect entry (enumerate (headers content));
    Return (foldl put ∅ es).
Proof.
  unfold parse_sections. apply for_each_put. apply section_step_entry.
Qed.

Lemma entry_key il e : entry il = Return e -> e.1 = lib_key content il.2.
Proof.
  unfold entry, section_entry. intros H.
  apply bind_return in H as (l & _ & H). by injection H as <-.
Qed.

Lemma entries_keys xs es :
  collect entry xs = Return es -> es.*1 = lib_key content <$> xs.*2.
Proof.
  revert es. induction xs as [|x xs IH]; intros es H; simpl in H.
  - by injection H as <-.
  - apply bind_return in H as (e & He & H).
    apply bind_return in H as (es' & Hes & H). injection H as <-.
    simpl. f_equal; [by apply entry_key | by apply IH].
Qed.

Lemma entries_return :
  sections_ok result_pattern content = true ->
  exists es, collect entry (enumerate (headers content)) = Return es.
Proof.
  intros Hok. apply collect_returns. intros [i h] Hih.
  unfold sections_ok in Hok. rewrite forallb_forall in Hok.
  specialize (Hok (i, h)). simpl in Hok.
  assert (Hrows : forallb
            (row_ok 2 3 (section_of content (headers content) i h))
            (finditer result_pattern
               (section_of content (headers content) i h)) = true).
  { apply Hok. by apply list_elem_of_In. }
  rewrite forallb_forall in Hrows.
  unfold entry, section_entry. simpl.
  destruct (collect_returns
              (row (section_of content (headers content) i h))
              (finditer result_pattern
                 (section_of content (headers content) i h))) as [l Hl].
  { intros rm Hrm. apply row_returns, Hrows. by apply list_elem_of_In. }
  rewrite Hl. done.
Qed.

(** The entry filed for header [i] holds one measurement per row of
    its section, in order, with the fields of that row. *)
Lemma entry_rows i h e :
  entry (i, h) = Return e ->
  e.1 = lib_key content h
  /\ length e.2 = length (section_rows result_pattern content i h)
  /\ forall j rm,
       section_rows result_pattern content i h !! j = Some rm ->
       exists r,
         e.2 !! j = Some r
         /\ float (group (section_of content (headers content) i h) rm 2)
            = Return (avg_time_ms r)
         /\ float (group (section_of content (headers content) i h) rm 3)
            = Return (throughput_kb_ms r).
Proof.
  intros He. split; [by apply (entry_key (i, h))|].
  unfold entry, section_entry in He. simpl in He.
  apply bind_return in He as (l & Hl & He). injection He as <-. simpl.
  split; [by apply collect_length in Hl|].
  intros j rm Hrm.
  destruct (collect_lookup _ _ _ _ _ Hl Hrm) as (r & Hr & Hrow).
  exists r. split; [done|]. by apply row_fields.
Qed.

(** The table built from a text whose headers have pairwise distinct
    keys and whose rows are well formed. *)
Lemma parse_sections_exact :
  NoDup (lib_key content <$> headers content) ->
  sections_ok result_pattern content = true ->
  exists d,
    parse_sections result_pattern row content = Return d
    /\ (forall k, k ∈ dom d <->
          exists i h, headers content !! i = Some h
                      /\ lib_key content h = k
                      /\ section_rows result_pattern content i h <> [])
    /\ (forall i h,
          headers content !! i = Some h ->
          section_rows result_pattern content i h <> [] ->
          exists l,
            d !! lib_key content h = Some l
            /\ length l = length (section_rows result_pattern content i h)
            /\ forall j rm,
                 section_rows result_pattern content i h !! j = Some rm ->
                 exists r,
                   l !! j = Some r
                   /\ float (group (section_of content (headers content) i h)
                               rm 2) = Return (avg_time_ms r)
                   /\ float (group (section_of content (headers content) i h)
                               rm 3) = Return (throughput_kb_ms r)).
Proof.
  intros Hnd Hok. destruct (entries_return Hok) as [es Hes].
  exists (foldl put ∅ es). rewrite parse_sections_entries, Hes.
  split; [done|].
  assert (Hkeys : NoDup es.*1).
  { rewrite (entries_keys _ _ Hes), enumerate_snd. done. }
  assert (Hat : forall i h,
             headers content !! i = Some h ->
             exists e, es !! i = Some e /\ entry (i, h) = Return e).
  { intros i h Hh. apply (collect_lookup _ _ _ _ _ Hes).
    by apply enumerate_lookup. }
  assert (Hlook : forall i h,
             headers content !! i = Some h ->
             section_rows result_pattern content i h <> [] ->
             exists e, entry (i, h) = Return e
                       /\ foldl put ∅ es !! lib_key content h = Some e.2).
  { intros i h Hh Hrows. destruct (Hat i h Hh) as (e & Hi & He).
    exists e. split; [done|].
    destruct (entry_rows _ _ _ He) as (Hk & Hlen & _).
    rewrite foldl_put_lookup.
    destruct e as [k l]; simpl in *. subst k.
    rewrite (binding_nodup _ _ _ _ Hkeys Hi).
    destruct l; [|done]. exfalso. apply Hrows.
    by apply length_zero_iff_nil. }
  split.
  - intros k. rewrite elem_of_dom. split.
    + intros [l Hl]. rewrite foldl_put_lookup, lookup_empty in Hl.
      destruct (binding k es) as [l'|] eqn:Hb; [|done].
      pose proof (binding_nonempty _ _ _ Hb) as Hne.
      apply binding_elem, list_elem_of_lookup in Hb as [i Hi].
      destruct (lookup_lt_is_Some_2 (enumerate (headers content)) i)
        as [[i' h] Hih].
      { rewrite <- (collect_length _ _ _ Hes). by apply lookup_lt_Some in Hi. }
      pose proof Hih as Hih'. apply enumerate_lookup in Hih' as [-> Hh].
      destruct (Hat i h Hh) as (e & Hi' & He). rewrite Hi in Hi'.
      injection Hi' as <-.
      destruct (entry_rows _ _ _ He) as (Hk & Hlen & _). simpl in *.
      exists i, h. split; [done|]. split; [done|].
      intros Hnil. rewrite Hnil in Hlen. by destruct l'.
    + intros (i & h & Hh & <- & Hrows).
      destruct (Hlook i h Hh Hrows) as (e & _ & Hl). eauto.
  - intros i h Hh Hrows.
    destruct (Hlook i h Hh Hrows) as (e & He & Hl).
    destruct (entry_rows _ _ _ He) as (_ & Hlen & Hf).
    exists e.2. done.
Qed.

(** When two headers share a key, the later one wins: the key is
    bound to the rows of the last header that has it, provided that
    section has a row. *)
Lemma parse_sections_later_wins i j hi hj :
  sections_ok result_pattern content = true ->
  headers content !! i = Some hi ->
  headers content !! j = Some hj ->
  i < j ->
  lib_key content hi = lib_key content hj ->
  (forall j' h', j < j' -> headers content !! j' = Some h' ->
                 lib_key content h' <> lib_key content hj) ->
  section_rows result_pattern content j hj <> [] ->
  exists d l,
    parse_sections result_pattern row content = Return d
    /\ collect (row (section_of content (headers content) j hj))
         (section_rows result_pattern content j hj) = Return l
    /\ d !! lib_key content hi = Some l
    /\ length l = length (section_rows result_pattern content j hj).
Proof.
  intros Hok Hi Hj Hij Hkey Hlast Hrows.
  destruct (entries_return Hok) as [es Hes].
  assert (Hj' : enumerate (headers content) !! j = Some (j, hj))
    by by apply enumerate_lookup.
  destruct (collect_lookup _ _ _ _ _ Hes Hj') as (e & Hej & He).
  pose proof He as He'. unfold entry, section_entry in He'. simpl in He'.
  apply bind_return in He' as (l & Hl & He'). injection He' as <-.
  exists (foldl put ∅ es), l. rewrite parse_sections_entries, Hes.
  split; [done|]. split; [done|].
  pose proof (collect_length _ _ _ Hl) as Hlen.
  split; [|done].
  rewrite foldl_put_lookup, Hkey.
  rewrite (binding_last es j (lib_key content hj) l); [done | done | |].
  - intros ->. apply Hrows. by apply length_zero_iff_nil.
  - intros j' e' Hjj' He'.
    destruct (lookup_lt_is_Some_2 (enumerate (headers content)) j')
      as [[j'' h'] Hih].
    { rewrite <- (collect_length _ _ _ Hes). by apply lookup_lt_Some in He'. }
    pose proof Hih as Hih'. apply enumerate_lookup in Hih' as [-> Hh'].
    destruct (collect_lookup _ _ _ _ _ Hes Hih) as (e'' & He'' & Hent).
    rewrite He' in He''. injection He'' as <-.
    rewrite (entry_key _ _ Hent). simpl. by apply (Hlast j').
Qed.
End ParseSections.

(** ** The matcher *)

Lemma match_here_plus_cons g p rest c s pos st :
  match_here (Plus g p :: rest) (c :: s) pos st
  = if p c then
      if g then
        match match_here (Plus g p :: rest) s (S pos) st with
        | Some r => Some r
        | None => match_here rest s (S pos) st
        end
      else
        match match_here rest s (S pos) st with
        | Some r => Some r
        | None => match_here (Plus g p :: rest) s (S pos) st
        end
    else None.
Proof. reflexivity. Qed.

Lemma match_here_plus_nil g p rest pos st :
  match_here (Plus g p :: rest) [] pos st = None.
Proof. reflexivity. Qed.

Lemma runs_plus_cons g p rest c w pos st e st' :
  p c = true ->
  runs (Plus g p :: rest) w (S pos) st e st' ->
  runs (Plus g p :: rest) (c :: w) pos st e st'.
Proof.
  intros Hc H. inversion H as [| |g' p' rest' u w' pos' st0 e' st0' Hu Hp Hr| |];
    subst.
  change (c :: u ++ w') with ((c :: u) ++ w').
  apply runs_plus; [done | simpl; by rewrite Hc | ].
  simpl. replace (pos + S (length u)) with (S pos + length u) by lia. done.
Qed.

Lemma runs_plus_one g p rest c w pos st e st' :
  p c = true ->
  runs rest w (S pos) st e st' ->
  runs (Plus g p :: rest) (c :: w) pos st e st'.
Proof.
  intros Hc H. change (c :: w) with ([c] ++ w).
  apply runs_plus; [done | simpl; by rewrite Hc |].
  simpl. replace (pos + 1) with (S pos) by lia. done.
Qed.

(** Soundness of the matcher: a successful match consumed a prefix of
    the text that the pattern describes. *)
Lemma match_here_runs pat : forall s pos st e st',
  match_here pat s pos st = Some (e, st') ->
  exists w t, s = w ++ t /\ runs pat w pos st e st'.
Proof.
  induction pat as [|it rest IH]; intros s pos st e st' H.
  - simpl in H. injection H as <- <-. exists [], s. split; [done|constructor].
  - destruct it as [p|g p| |].
    + destruct s as [|c s]; simpl in H; [done|].
      destruct (p c) eqn:Hc; [|done].
      apply IH in H as (w & t & -> & Hr).
      exists (c :: w), t. split; [done|]. by constructor.
    + revert pos H. induction s as [|c s IHs]; intros pos H.
      * by rewrite match_here_plus_nil in H.
      * rewrite match_here_plus_cons in H.
        destruct (p c) eqn:Hc; [|done].
        assert (Hone : match_here rest s (S pos) st = Some (e, st') ->
                       exists w t, c :: s = w ++ t
                                   /\ runs (Plus g p :: rest) w pos st e st').
        { intros H'. apply IH in H' as (w & t & -> & Hr).
          exists (c :: w), t. split; [done|]. by apply runs_plus_one. }
        assert (Hmore : match_here (Plus g p :: rest) s (S pos) st
                        = Some (e, st') ->
                        exists w t, c :: s = w ++ t
                                    /\ runs (Plus g p :: rest) w pos st e st').
        { intros H'. apply IHs in H' as (w & t & -> & Hr).
          exists (c :: w), t. split; [done|]. by apply runs_plus_cons. }
        destruct g.
        -- destruct (match_here (Plus true p :: rest) s (S pos) st)
             as [r|] eqn:Hm.
           ++ injection H as ->. by apply Hmore.
           ++ by apply Hone.
        -- destruct (match_here rest s (S pos) st) as [r|] eqn:Hm.
           ++ injection H as ->. by apply Hone.
           ++ by apply Hmore.
    + simpl in H. apply IH in H as (w & t & -> & Hr).
      exists w, t. split; [done|]. by constructor.
    + simpl in H. apply IH in H as (w & t & -> & Hr).
      exists w, t. split; [done|]. by constructor.
Qed.

Lemma runs_end pat w pos st e st' :
  runs pat w pos st e st' -> e = pos + length w.
Proof.
  induction 1 as [| | g p rest u w pos st e st' Hu Hp Hr IH | |]; simpl;
    try lia.
  rewrite length_app. lia.
Qed.

(** Every span closed during a run ends no later than the run. *)
Lemma runs_spans pat w pos st e st' :
  runs pat w pos st e st' ->
  Forall (fun sp => sp.2 <= e) (closed st) ->
  Forall (fun sp => sp.2 <= e) (closed st').
Proof.
  induction 1 as [| | | |rest w pos st e st' H IH]; intros Hst; auto.
  apply IH. simpl. apply Forall_app. split; [done|].
  apply Forall_singleton. simpl. apply runs_end in H. lia.
Qed.

Lemma match_at_runs pat s pos m :
  match_at pat s pos = Some m ->
  m_start m = pos
  /\ exists w t st', s = w ++ t /\ m_end m = pos + length w
                     /\ m_spans m = closed st'
                     /\ runs pat w pos no_caps (m_end m) st'.
Proof.
  unfold match_at. destruct (match_here pat s pos no_caps) as [[e st']|] eqn:H;
    [|done].
  intros [= <-]. simpl. split; [done|].
  apply match_here_runs in H as (w & t & -> & Hr).
  exists w, t, st'. pose proof (runs_end _ _ _ _ _ _ Hr). done.
Qed.

(** Every match reported by [finditer] is a match of the pattern at its
    start position. *)
Lemma finditer_from_elem pat s : forall pos skip m,
  m ∈ finditer_from pat s pos skip ->
  exists k, skip <= k /\ k <= length s
            /\ match_at pat (drop k s) (pos + k) = Some m.
Proof.
  induction s as [|c s IH]; intros pos skip m Hm.
  - destruct skip; simpl in Hm; [|by apply elem_of_nil in Hm].
    destruct (match_at pat [] pos) as [m'|] eqn:H0;
      [|by apply elem_of_nil in Hm].
    apply list_elem_of_singleton in Hm as ->.
    exists 0. simpl. rewrite Nat.add_0_r. done.
  - destruct skip as [|skip]; simpl in Hm.
    + destruct (match_at pat (c :: s) pos) as [m'|] eqn:H0.
      * apply elem_of_cons in Hm as [->|Hm].
        -- exists 0. simpl. rewrite Nat.add_0_r. split; [lia|]. split; [lia|done].
        -- apply IH in Hm as (k & Hk & Hlen & Hat).
           exists (S k). simpl. replace (pos + S k) with (S pos + k) by lia.
           split; [lia|]. split; [lia|done].
      * apply IH in Hm as (k & Hk & Hlen & Hat).
        exists (S k). simpl. replace (pos + S k) with (S pos + k) by lia.
        split; [lia|]. split; [lia|done].
    + apply IH in Hm as (k & Hk & Hlen & Hat).
      exists (S k). simpl. replace (pos + S k) with (S pos + k) by lia.
      split; [lia|]. split; [lia|done].
Qed.

Lemma finditer_elem pat s m :
  m ∈ finditer pat s ->
  m_start m <= length s /\ match_at pat (drop (m_start m) s) (m_start m) = Some m.
Proof.
  intros Hm. apply finditer_from_elem in Hm as (k & _ & Hlen & Hat).
  simpl in Hat. pose proof (match_at_runs _ _ _ _ Hat) as [-> _]. done.
Qed.

(** ** Library headers *)

Ltac invert_runs :=
  repeat match goal with
         | H : runs (_ :: _) _ _ _ _ _ |- _ => inversion H; subst; clear H
         | H : runs [] _ _ _ _ _ |- _ => inversion H; subst; clear H
         | H : just _ _ = true |- _ => apply N.eqb_eq in H; subst
         end.

Lemma runs_library_pattern w pos e st' :
  runs library_pattern w pos no_caps e st' ->
  exists name size,
    w = header_text name size
    /\ name <> [] /\ forallb dot name = true
    /\ size <> [] /\ forallb digit_or_dot size = true
    /\ closed st' = [(pos + 9, pos + 9 + length name);
                     (pos + 16 + length name,
                      pos + 16 + length name + length size)].
Proof.
  intros H. unfold library_pattern, chars in H. simpl in H.
  invert_runs.
  match goal with
  | Hn : forallb dot ?n = true, Hs : forallb digit_or_dot ?z = true |- _ =>
      exists n, z
  end.
  repeat split; try done.
  simpl. repeat f_equal; lia.
Qed.

Lemma slice_middle (a b c : str) :
  slice (a ++ b ++ c) (length a) (length a + length b) = b.
Proof.
  unfold slice. rewrite drop_app_length.
  replace (length a + length b - length a) with (length b) by lia.
  apply take_app_length.
Qed.

Lemma forallb_elem (p : char -> bool) (u : str) c :
  forallb p u = true -> c ∈ u -> p c = true.
Proof.
  intros H Hc. rewrite forallb_forall in H. apply H. by apply list_elem_of_In.
Qed.

(** Every header match is a declaration line directly followed by the
    size line. *)
Lemma header_match_shape content h :
  h ∈ headers content ->
  exists before name size after,
    content = before ++ header_text name size ++ after
    /\ m_start h = length before
    /\ m_end h = length before + length (header_text name size)
    /\ name <> [] /\ (newline ∉ name)
    /\ size <> [] /\ (forall c, c ∈ size -> digit_or_dot c = true)
    /\ group content h 1 = name
    /\ group content h 2 = size.
Proof.
  intros Hh. apply finditer_elem in Hh as [Hlen Hat].
  apply match_at_runs in Hat as (_ & w & t & st' & Hw & He & Hsp & Hr).
  apply runs_library_pattern in Hr
    as (name & size & -> & Hn & Hdot & Hs & Hdd & Hcl).
  exists (take (m_start h) content), name, size, t.
  assert (Hk : length (take (m_start h) content) = m_start h).
  { rewrite length_take. lia. }
  assert (Hc : content = take (m_start h) content ++ header_text name size ++ t).
  { rewrite <- Hw. symmetry. apply take_drop. }
  split; [done|]. split; [done|]. split; [lia|]. split; [done|].
  split.
  { intros Hin. apply (forallb_elem _ _ _ Hdot) in Hin. done. }
  split; [done|]. split; [intros c; by apply forallb_elem|].
  unfold group. rewrite Hsp, Hcl. simpl.
  set (before := take (m_start h) content) in *.
  split.
  - rewrite Hc. unfold header_text.
    replace (before ++ (lit "Library: " ++ name ++ [newline] ++ lit "Size: "
                        ++ size ++ lit " KB") ++ t)
      with ((before ++ lit "Library: ") ++ name
            ++ ([newline] ++ lit "Size: " ++ size ++ lit " KB" ++ t))
      by (rewrite <- !app_assoc; reflexivity).
    replace (m_start h + 9) with (length (before ++ lit "Library: "))
      by (rewrite length_app; simpl; lia).
    apply slice_middle.
  - rewrite Hc. unfold header_text.
    replace (before ++ (lit "Library: " ++ name ++ [newline] ++ lit "Size: "
                        ++ size ++ lit " KB") ++ t)
      with ((before ++ lit "Library: " ++ name ++ [newline] ++ lit "Size: ")
            ++ size ++ (lit " KB" ++ t))
      by (rewrite <- !app_assoc; reflexivity).
    replace (m_start h + 16 + length name)
      with (length (before ++ lit "Library: " ++ name ++ [newline]
                    ++ lit "Size: "))
      by (rewrite !length_app; simpl; lia).
    apply slice_middle.
Qed.

(** A repetition of a class, greedy or lazy, that is followed by the
    end of its group and a code point outside the class takes the whole
    run of the class. *)
Lemma plus_until g p c rest u : forall s pos st,
  u <> [] -> forallb p u = true -> p c = false ->
  match_here (Plus g p :: GClose :: Chr (just c) :: rest) (u ++ c :: s) pos st
  = match_here rest s (S (pos + length u))
      {| opened := opened st;
         closed := closed st ++ [(opened st, pos + length u)] |}.
Proof.
  induction u as [|a u IH]; intros s pos st Hne Hu Hc; [done|].
  simpl in Hu. apply andb_true_iff in Hu as [Ha Hu].
  change ((a :: u) ++ c :: s) with (a :: (u ++ c :: s)).
  rewrite match_here_plus_cons, Ha.
  destruct u as [|b u].
  - change ([] ++ c :: s) with (c :: s).
    rewrite match_here_plus_cons, Hc.
    assert (Hk : match_here (GClose :: Chr (just c) :: rest) (c :: s) (S pos) st
                 = match_here rest s (S (pos + length [a]))
                     {| opened := opened st;
                        closed := closed st ++ [(opened st, pos + length [a])] |}).
    { simpl. unfold just at 1. rewrite N.eqb_refl.
      replace (pos + 1) with (S pos) by lia. done. }
    rewrite Hk. destruct g; [done|]. by destruct (match_here rest _ _ _).
  - assert (Hb : b <> c).
    { intros ->. simpl in Hu. rewrite Hc in Hu. done. }
    assert (Hk : match_here (GClose :: Chr (just c) :: rest)
                   ((b :: u) ++ c :: s) (S pos) st = None).
    { simpl. unfold just at 1. apply N.eqb_neq in Hb. by rewrite Hb. }
    rewrite Hk, IH by done.
    replace (S pos + length (b :: u)) with (pos + length (a :: b :: u))
      by (simpl; lia).
    destruct g; [|done]. by destruct (match_here rest _ _ _).
Qed.

Lemma match_here_lit c rest s pos st :
  match_here (Chr (just c) :: rest) (c :: s) pos st
  = match_here rest s (S pos) st.
Proof. simpl. unfold just at 1. by rewrite N.eqb_refl. Qed.

Lemma match_here_open rest s pos st :
  match_here (GOpen :: rest) s pos st
  = match_here rest s pos {| opened := pos; closed := closed st |}.
Proof. reflexivity. Qed.

Lemma match_here_nil s pos st : match_here [] s pos st = Some (pos, st).
Proof. reflexivity. Qed.

#[local] Arguments match_here : simpl never.

Lemma group_span s m i a b :
  m_spans m !! (i - 1) = Some (a, b) -> group s m i = slice s a b.
Proof. unfold group. by intros ->. Qed.

(** A header text is matched wherever it stands. *)
Lemma header_text_matches_at name size rest pos :
  name <> [] -> forallb dot name = true ->
  size <> [] -> forallb digit_or_dot size = true ->
  match_at library_pattern (header_text name size ++ rest) pos
  = Some {| m_start := pos;
            m_end := pos + length (header_text name size);
            m_spans := [(pos + 9, pos + 9 + length name);
                        (pos + 16 + length name,
                         pos + 16 + length name + length size)] |}.
Proof.
  intros Hn Hdot Hs Hdd.
  unfold match_at, library_pattern, header_text, chars.
  rewrite <- !app_assoc. simpl.
  rewrite !match_here_lit, match_here_open.
  rewrite plus_until by done.
  rewrite !match_here_lit, match_here_open.
  change (size ++ 32%N :: 75%N :: 66%N :: rest)
    with (size ++ 32%N :: (75%N :: 66%N :: rest)).
  rewrite plus_until by done.
  rewrite !match_here_lit, match_here_nil. simpl.
  apply f_equal. apply f_equal2.
  - rewrite !length_app. simpl. rewrite !length_app. simpl. lia.
  - repeat f_equal; lia.
Qed.

(** [finditer] misses no place where the pattern matches: a match
    found at a place is reported, unless a reported match that started
    earlier reaches over that place. *)
Lemma finditer_from_covers pat s : forall pos skip k m,
  skip <= k -> k <= length s ->
  match_at pat (drop k s) (pos + k) = Some m ->
  exists h, h ∈ finditer_from pat s pos skip
            /\ (h = m \/ (m_start h < pos + k /\ pos + k < m_end h)).
Proof.
  induction s as [|c s IH]; intros pos skip k m Hskip Hk Hm.
  - simpl in Hk. assert (k = 0) as -> by lia. assert (skip = 0) as -> by lia.
    simpl in Hm. rewrite Nat.add_0_r in Hm. simpl. rewrite Hm.
    exists m. split; [by left | by left].
  - destruct skip as [|skip]; simpl.
    + destruct (match_at pat (c :: s) pos) as [m0|] eqn:H0.
      * destruct k as [|k].
        { simpl in Hm. rewrite Nat.add_0_r, H0 in Hm. injection Hm as ->.
          exists m. split; [by left | by left]. }
        pose proof (match_at_runs _ _ _ _ H0) as [Hstart _].
        destruct (decide (m_end m0 - pos - 1 <= k)) as [Hle|Hgt].
        -- simpl in Hm, Hk. replace (pos + S k) with (S pos + k) in Hm by lia.
           destruct (IH (S pos) (m_end m0 - pos - 1) k m Hle ltac:(lia) Hm)
             as (h & Hh & Hc).
           exists h. split; [by right|].
           destruct Hc as [->|Hc]; [by left|right; lia].
        -- exists m0. split; [by left|]. right. lia.
      * destruct k as [|k].
        { simpl in Hm. rewrite Nat.add_0_r, H0 in Hm. done. }
        simpl in Hm, Hk. replace (pos + S k) with (S pos + k) in Hm by lia.
        destruct (IH (S pos) 0 k m ltac:(lia) ltac:(lia) Hm) as (h & Hh & Hc).
        exists h. split; [done|]. destruct Hc as [->|Hc]; [by left|right; lia].
    + destruct k as [|k]; [lia|].
      simpl in Hm, Hk. replace (pos + S k) with (S pos + k) in Hm by lia.
      destruct (IH (S pos) skip k m ltac:(lia) ltac:(lia) Hm) as (h & Hh & Hc).
      exists h. split; [done|]. destruct Hc as [->|Hc]; [by left|right; lia].
Qed.

(** Two texts that agree and are cut at the first [c] are cut at the
    same place. *)
Lemma first_cut (c : char) (a b x y : str) :
  c ∉ a -> c ∉ b -> a ++ c :: x = b ++ c :: y -> a = b /\ x = y.
Proof.
  revert b. induction a as [|a0 a IH]; intros [|b0 b] Ha Hb H; simpl in H.
  - by injection H as ->.
  - injection H as -> _. exfalso. apply Hb. by left.
  - injection H as -> _. exfalso. apply Ha. by left.
  - injection H as -> H.
    destruct (IH b) as [-> ->]; [|by intros ?; apply Hb; right|done|done].
    by intros ?; apply Ha; right.
Qed.

(** The capital [L] of a header text is its first code point or stands
    in the name. *)
Lemma header_text_capital name size q :
  (forall c, c ∈ size -> digit_or_dot c = true) ->
  header_text name size !! q = Some 76%N ->
  q = 0 \/ (9 <= q /\ q < 9 + length name).
Proof.
  intros Hsize. unfold header_text.
  change (lit "Library: ") with (76%N :: lit "ibrary: ").
  intros H. destruct q as [|q]; [by left|]. right.
  change ((76%N :: lit "ibrary: ") ++ name ++ [newline] ++ lit "Size: "
          ++ size ++ lit " KB")
    with (76%N :: (lit "ibrary: " ++ name ++ [newline] ++ lit "Size: "
                   ++ size ++ lit " KB")) in H.
  rewrite lookup_cons in H. revert H.
  rewrite lookup_app_Some. intros [H|[H1 H]].
  { exfalso. apply list_elem_of_lookup_2 in H. revert H.
    decide_by_computation. }
  change (length (lit "ibrary: ")) with 8 in *.
  revert H. rewrite lookup_app_Some. intros [H|[H2 H]].
  { apply lookup_lt_Some in H. lia. }
  exfalso. apply list_elem_of_lookup_2 in H.
  rewrite !elem_of_app in H. destruct H as [H|[H|[H|H]]].
  - revert H. decide_by_computation.
  - revert H. decide_by_computation.
  - apply Hsize in H. by vm_compute in H.
  - revert H. decide_by_computation.
Qed.

Lemma header_text_length name size :
  length (header_text name size) = 19 + length name + length size.
Proof. unfold header_text. rewrite !length_app. simpl. lia. Qed.

(** A header match that reaches over the start of a header text began
    at an earlier [Library: ] of the same line: it has the same size
    line, and its name ends with the declaration. *)
Lemma header_reached_over content h before name size after :
  h ∈ headers content ->
  content = before ++ header_text name size ++ after ->
  forallb dot name = true ->
  forallb digit_or_dot size = true ->
  m_start h < length before -> length before < m_end h ->
  exists more,
    group content h 1 = more ++ name
    /\ group content h 2 = size
    /\ m_start h + length more = length before
    /\ m_end h = length before + length (header_text name size)
    /\ before <> [] /\ last before <> Some newline.
Proof.
  intros Hh Hc Hdot Hdd Hlt Hgt.
  destruct (header_match_shape content h Hh)
    as (before' & name' & size' & after' & Hc' & Hs' & He' & Hn' & Hnl'
        & Hz' & Hdd' & Hg1 & Hg2).
  set (q := length before - length before').
  assert (Hq : length before = length before' + q) by (unfold q; lia).
  rewrite header_text_length in He'.
  assert (Hq1 : 0 < q) by lia.
  assert (Hq2 : q < 19 + length name' + length size') by lia.
  (* the code point at the start of the later header *)
  assert (HL : header_text name' size' !! q = Some 76%N).
  { assert (H1 : content !! length before = Some 76%N).
    { rewrite Hc. rewrite lookup_app_r by lia.
      replace (length before - length before) with 0 by lia. reflexivity. }
    rewrite Hc', Hq, lookup_app_r in H1 by lia.
    replace (length before' + q - length before') with q in H1 by lia.
    rewrite lookup_app_l in H1; [done|].
    rewrite header_text_length. lia. }
  destruct (header_text_capital _ _ _ Hdd' HL) as [HL0|[Hq3 Hq4]]; [lia|].
  (* the name of the match, cut where the later header starts *)
  set (n1 := take (q - 9) name').
  set (n2 := drop (q - 9) name').
  assert (Hname : name' = n1 ++ n2) by (symmetry; apply take_drop).
  assert (Hn1 : length n1 = q - 9) by (unfold n1; rewrite length_take; lia).
  assert (Hsplit : before = before' ++ lit "Library: " ++ n1
                   /\ header_text name size ++ after
                      = n2 ++ [newline] ++ lit "Size: " ++ size'
                        ++ lit " KB" ++ after').
  { apply app_inj_1.
    - rewrite !length_app, Hn1. simpl. lia.
    - rewrite <- Hc, Hc'. unfold header_text. rewrite Hname.
      by rewrite <- !app_assoc. }
  destruct Hsplit as [Hbefore Hrest].
  assert (Hnl2 : newline ∉ n2).
  { intros Hin. apply Hnl'. rewrite Hname. apply elem_of_app. by right. }
  assert (Hnl1 : newline ∉ n1).
  { intros Hin. apply Hnl'. rewrite Hname. apply elem_of_app. by left. }
  assert (Hnl : newline ∉ lit "Library: " ++ name).
  { intros Hin. apply elem_of_app in Hin as [Hin|Hin].
    - revert Hin. decide_by_computation.
    - apply (forallb_elem _ _ _ Hdot) in Hin. done. }
  unfold header_text in Hrest. rewrite <- !app_assoc in Hrest.
  change (lit "Library: " ++ name ++ [newline] ++ lit "Size: " ++ size
          ++ lit " KB" ++ after)
    with (lit "Library: " ++ name ++ newline :: (lit "Size: " ++ size
          ++ lit " KB" ++ after)) in Hrest.
  rewrite (app_assoc (lit "Library: ") name) in Hrest.
  apply first_cut in Hrest as [Hn2 Hrest]; [|done|done].
  (* the size *)
  assert (Hsp : forall z : str,
             (forall c, c ∈ z -> digit_or_dot c = true) -> (32%N : char) ∉ z).
  { intros z Hzd Hin. apply Hzd in Hin. by vm_compute in Hin. }
  change (lit "Size: " ++ size ++ lit " KB" ++ after)
    with (lit "Size: " ++ (size ++ 32%N :: (lit "KB" ++ after))) in Hrest.
  change (lit "Size: " ++ size' ++ lit " KB" ++ after')
    with (lit "Size: " ++ (size' ++ 32%N :: (lit "KB" ++ after'))) in Hrest.
  apply app_inv_head in Hrest.
  apply first_cut in Hrest as [Hsize _].
  2:{ apply Hsp. intros c Hc0. by apply (forallb_elem _ _ _ Hdd). }
  2:{ by apply Hsp. }
  exists (n1 ++ lit "Library: ").
  split; [by rewrite Hg1, Hname, <- Hn2, <- app_assoc|].
  split; [by rewrite Hg2, Hsize|].
  split; [rewrite length_app, Hn1; simpl; lia|].
  split.
  { rewrite header_text_length, He', Hq, <- Hsize.
    assert (length name' = q - 9 + (9 + length name)).
    { rewrite Hname, <- Hn2, !length_app, Hn1. simpl. lia. }
    lia. }
  split; [intros ->; simpl in Hlt; lia|].
  rewrite Hbefore. rewrite !app_assoc, last_app.
  destruct (last n1) as [c|] eqn:Hlast.
  - intros [= ->]. apply Hnl1.
    apply last_Some in Hlast as [l' ->]. apply elem_of_app. right. by left.
  - rewrite last_app. simpl. done.
Qed.

(** The groups of a match that starts at a header text. *)
Lemma header_text_groups before name size after m :
  m_spans m = [(length before + 9, length before + 9 + length name);
               (length before + 16 + length name,
                length before + 16 + length name + length size)] ->
  group (before ++ header_text name size ++ after) m 1 = name
  /\ group (before ++ header_text name size ++ after) m 2 = size.
Proof.
  intros Hsp.
  remember (before ++ header_text name size ++ after) as content eqn:Hc.
  unfold group. rewrite Hsp. simpl. rewrite Hc. unfold header_text. split.
  - replace (before ++ (lit "Library: " ++ name ++ [newline] ++ lit "Size: "
                        ++ size ++ lit " KB") ++ after)
      with ((before ++ lit "Library: ") ++ name
            ++ ([newline] ++ lit "Size: " ++ size ++ lit " KB" ++ after))
      by (rewrite <- !app_assoc; reflexivity).
    replace (length before + 9) with (length (before ++ lit "Library: "))
      by (rewrite length_app; simpl; lia).
    apply slice_middle.
  - replace (before ++ (lit "Library: " ++ name ++ [newline] ++ lit "Size: "
                        ++ size ++ lit " KB") ++ after)
      with ((before ++ lit "Library: " ++ name ++ [newline] ++ lit "Size: ")
            ++ size ++ (lit " KB" ++ after))
      by (rewrite <- !app_assoc; reflexivity).
    replace (length before + 16 + length name)
      with (length (before ++ lit "Library: " ++ name ++ [newline]
                    ++ lit "Size: "))
      by (rewrite !length_app; simpl; lia).
    apply slice_middle.
Qed.

(** Every header text of a text is found. *)
Lemma header_text_found before name size after :
  name <> [] -> forallb dot name = true ->
  size <> [] -> forallb digit_or_dot size = true ->
  exists h more,
    h ∈ headers (before ++ header_text name size ++ after)
    /\ group (before ++ header_text name size ++ after) h 1 = more ++ name
    /\ group (before ++ header_text name size ++ after) h 2 = size
    /\ m_start h + length more = length before
    /\ m_end h = length before + length (header_text name size)
    /\ (before = [] \/ last before = Some newline -> more = []).
Proof.
  intros Hn Hdot Hs Hdd.
  set (content := before ++ header_text name size ++ after).
  pose proof (header_text_matches_at name size after (0 + length before)
                Hn Hdot Hs Hdd) as Hm.
  rewrite <- (drop_app_length before (header_text name size ++ after)) in Hm.
  assert (Hlen : length before <= length content).
  { unfold content. rewrite length_app. lia. }
  destruct (finditer_from_covers library_pattern content 0 0 (length before)
              _ (Nat.le_0_l _) Hlen Hm) as (h & Hh & Hcase).
  destruct Hcase as [->|[Hlt Hgt]].
  - exists {| m_start := 0 + length before;
              m_end := 0 + length before + length (header_text name size);
              m_spans := [(0 + length before + 9,
                           0 + length before + 9 + length name);
                          (0 + length before + 16 + length name,
                           0 + length before + 16 + length name
                           + length size)] |}, [].
    split; [exact Hh|].
    destruct (header_text_groups before name size after
                {| m_start := 0 + length before;
                   m_end := 0 + length before
                            + length (header_text name size);
                   m_spans := [(0 + length before + 9,
                                0 + length before + 9 + length name);
                               (0 + length before + 16 + length name,
                                0 + length before + 16 + length name
                                + length size)] |} eq_refl) as [H1 H2].
    split; [exact H1|]. split; [exact H2|]. simpl.
    split; [lia|]. split; [done|done].
  - destruct (header_reached_over content h before name size after
                Hh eq_refl Hdot Hdd ltac:(lia) ltac:(lia))
      as (more & H1 & H2 & H3 & H4 & H5 & H6).
    exists h, more. split; [exact Hh|]. split; [exact H1|]. split; [exact H2|].
    split; [exact H3|]. split; [exact H4|].
    intros [Hb|Hb]; done.
Qed.

(** C5 (amended): a header match is the declaration line followed at
    once, on the next line, by the size line.  Every header match has
    that shape.  And every text of that shape is found, wherever it
    stands in the input: some header match ends where it ends, has its
    size and has a name that ends with its name; when the declaration
    starts a line, the match starts at the declaration and has exactly
    its name. *)
Theorem header_is_declaration_then_size_line :
  (forall content h,
     h ∈ headers content ->
     exists before name size after,
       content = before ++ header_text name size ++ after
       /\ m_start h = length before
       /\ m_end h = length before + length (header_text name size)
       /\ name <> [] /\ (newline ∉ name)
       /\ size <> [] /\ (forall c, c ∈ size -> digit_or_dot c = true)
       /\ group content h 1 = name
       /\ group content h 2 = size)
  /\ (forall before name size after,
        name <> [] -> forallb dot name = true ->
        size <> [] -> forallb digit_or_dot size = true ->
        exists h more,
          h ∈ headers (before ++ header_text name size ++ after)
          /\ group (before ++ header_text name size ++ after) h 1
             = more ++ name
          /\ group (before ++ header_text name size ++ after) h 2 = size
          /\ m_start h + length more = length before
          /\ m_end h = length before + length (header_text name size)
          /\ (before = [] \/ last before = Some newline -> more = [])).
Proof.
  split.
  - intros content h Hh. by apply header_match_shape.
  - intros before name size after Hn Hdot Hs Hdd.
    by apply header_text_found.
Qed.

Lemma header_is_declaration_then_size_line_witness :
  exists h more,
    h ∈ headers (banner_and_header ++ header_text (lit "Foo") (lit "10.0")
                 ++ [newline])
    /\ group (banner_and_header ++ header_text (lit "Foo") (lit "10.0")
              ++ [newline]) h 1 = more ++ lit "Foo"
    /\ group (banner_and_header ++ header_text (lit "Foo") (lit "10.0")
              ++ [newline]) h 2 = lit "10.0"
    /\ m_start h + length more = length banner_and_header
    /\ m_end h = length banner_and_header
                 + length (header_text (lit "Foo") (lit "10.0"))
    /\ (banner_and_header = [] \/ last banner_and_header = Some newline ->
        more = []).
Proof.
  apply (proj2 header_is_declaration_then_size_line
           banner_and_header (lit "Foo") (lit "10.0") [newline]);
    [discriminate | reflexivity | discriminate | reflexivity].
Defined.

(** C5 as stated fails: with a line between the declaration line and
    the size line there is no header match, and no extractor finds the
    library. *)
Lemma size_line_later_no_header :
  headers size_line_later = []
  /\ parse_java_text size_line_later = Return ∅
  /\ parse_javascript_text size_line_later = Return ∅
  /\ parse_rust_text size_line_later = Return ∅.
Proof. vm_compute. repeat split. Qed.

(** ** Rows and the end of a section *)

Lemma match_here_chr p rest c s pos st :
  match_here (Chr p :: rest) (c :: s) pos st
  = if p c then match_here rest s (S pos) st else None.
Proof. reflexivity. Qed.

Lemma match_here_chr_nil p rest pos st :
  match_here (Chr p :: rest) [] pos st = None.
Proof. reflexivity. Qed.

Lemma match_here_close rest s pos st :
  match_here (GClose :: rest) s pos st
  = match_here rest s pos
      {| opened := opened st; closed := closed st ++ [(opened st, pos)] |}.
Proof. reflexivity. Qed.

(** A code point that no test of the pattern accepts ends every
    attempt: the matcher behaves as at the end of the text. *)
Lemma match_here_app_reject c pat :
  rejects c pat = true ->
  forall s t pos st,
    match_here pat (s ++ c :: t) pos st = match_here pat s pos st.
Proof.
  induction pat as [|it rest IH]; intros Hrej s t pos st.
  - by rewrite !match_here_nil.
  - simpl in Hrej. apply andb_true_iff in Hrej as [Hit Hrej].
    specialize (IH Hrej). destruct it as [p|g p| |].
    + apply negb_true_iff in Hit. destruct s as [|a s]; simpl app.
      * by rewrite match_here_chr, Hit, match_here_chr_nil.
      * by rewrite !match_here_chr, IH.
    + apply negb_true_iff in Hit. revert pos.
      induction s as [|a s IHs]; intros pos; simpl app.
      * by rewrite match_here_plus_cons, Hit, match_here_plus_nil.
      * by rewrite !match_here_plus_cons, IHs, IH.
    + by rewrite !match_here_open, IH.
    + by rewrite !match_here_close, IH.
Qed.

Lemma match_at_app_reject c pat s t pos :
  rejects c pat = true ->
  match_at pat (s ++ c :: t) pos = match_at pat s pos.
Proof. intros H. unfold match_at. by rewrite match_here_app_reject. Qed.

Lemma search_from_cons pat a s pos :
  search_from pat (a :: s) pos
  = match match_at pat (a :: s) pos with
    | Some m => Some m
    | None => search_from pat s (S pos)
    end.
Proof. reflexivity. Qed.

Lemma search_from_nil pat pos :
  search_from pat [] pos = match_at pat [] pos.
Proof. simpl. by destruct (match_at pat [] pos). Qed.

(** The first match found in a text is still the first match found when
    the text goes on with a code point the pattern rejects. *)
Lemma search_from_app c pat t : rejects c pat = true -> forall s pos m,
  search_from pat s pos = Some m ->
  search_from pat (s ++ c :: t) pos = Some m.
Proof.
  intros Hrej s. induction s as [|a s IH]; intros pos m H.
  - rewrite search_from_nil in H. simpl app. rewrite search_from_cons.
    change (c :: t) with ([] ++ c :: t).
    by rewrite match_at_app_reject, H.
  - rewrite search_from_cons in H. simpl app. rewrite search_from_cons.
    change (a :: s ++ c :: t) with ((a :: s) ++ c :: t).
    rewrite match_at_app_reject by done.
    destruct (match_at pat (a :: s) pos); [done|]. by apply IH.
Qed.

(** The first element of [finditer] is what [search] finds. *)
Lemma finditer_from_head pat s : forall pos m tl,
  finditer_from pat s pos 0 = m :: tl -> search_from pat s pos = Some m.
Proof.
  induction s as [|a s IH]; intros pos m tl H.
  - rewrite search_from_nil. simpl in H.
    destruct (match_at pat [] pos); [|done]. by injection H as ->.
  - rewrite search_from_cons. simpl in H.
    destruct (match_at pat (a :: s) pos).
    + by injection H as -> _.
    + by apply IH in H.
Qed.

(** Spans of a match found by [search] lie within the text searched. *)
Lemma search_from_spans pat s : forall pos m,
  search_from pat s pos = Some m ->
  Forall (fun sp => sp.2 <= pos + length s) (m_spans m).
Proof.
  assert (Hat : forall s pos m, match_at pat s pos = Some m ->
                  Forall (fun sp => sp.2 <= pos + length s) (m_spans m)).
  { intros s0 pos m H.
    apply match_at_runs in H as (_ & w & t & st' & -> & He & -> & Hr).
    pose proof (runs_spans _ _ _ _ _ _ Hr (Forall_nil_2 _)) as Hsp.
    eapply Forall_impl; [exact Hsp|]. simpl. intros sp Hle.
    rewrite length_app. lia. }
  induction s as [|a s IH]; intros pos m H.
  - rewrite search_from_nil in H. by apply Hat.
  - rewrite search_from_cons in H.
    destruct (match_at pat (a :: s) pos) eqn:Hm.
    + injection H as ->. by apply Hat.
    + apply IH in H. eapply Forall_impl; [exact H|]. simpl. lia.
Qed.

Lemma slice_app_within (s t : str) a b :
  b <= length s -> slice (s ++ t) a b = slice s a b.
Proof.
  intros Hb. unfold slice. destruct (decide (a <= length s)) as [Ha|Ha].
  - rewrite drop_app_le by done. apply take_app_le. rewrite length_drop. lia.
  - replace (b - a) with 0 by lia. by rewrite !take_0.
Qed.

Lemma group_app_within (s t : str) m i :
  Forall (fun sp => sp.2 <= length s) (m_spans m) ->
  group (s ++ t) m i = group s m i.
Proof.
  intros H. unfold group. destruct (m_spans m !! (i - 1)) as [[a b]|] eqn:Hi;
    [|done].
  apply slice_app_within. by apply (Forall_lookup_1 _ _ _ _ H Hi).
Qed.

(** Successive matches of [finditer] do not overlap. *)
Lemma finditer_from_next pat s : forall pos skip i a b,
  finditer_from pat s pos skip !! i = Some a ->
  finditer_from pat s pos skip !! S i = Some b ->
  m_end a <= m_start b.
Proof.
  induction s as [|c s IH]; intros pos skip i a b Ha Hb.
  - destruct skip; simpl in *; [|done]. by destruct (match_at pat [] pos).
  - destruct skip as [|skip]; simpl in *; [|by eapply IH].
    destruct (match_at pat (c :: s) pos) as [m|] eqn:Hm; [|by eapply IH].
    destruct i as [|i]; simpl in *; [|by eapply IH].
    injection Ha as ->.
    apply list_elem_of_lookup_2, finditer_from_elem in Hb
      as (k & Hk & _ & Hat).
    apply match_at_runs in Hat as [-> _]. lia.
Qed.

(** The text after a header is its section, followed, when there is a
    next header, by the [L] that header starts with. *)
Lemma remaining_section content i h :
  headers content !! i = Some h ->
  drop (m_end h) content = section_of content (headers content) i h
  \/ exists t,
       drop (m_end h) content
       = section_of content (headers content) i h ++ N_of_ascii "L" :: t.
Proof.
  intros Hh. unfold section_of, slice.
  destruct (headers content !! (i + 1)) as [h'|] eqn:Hnext.
  - right. replace (i + 1) with (S i) in Hnext by lia.
    pose proof (finditer_from_next _ _ _ _ _ _ _ Hh Hnext) as Hle.
    apply list_elem_of_lookup_2, header_match_shape in Hnext
      as (before & name & size & after & Hc & Hs & _).
    exists (drop 1 (header_text name size ++ after)).
    rewrite <- (take_drop (m_start h' - m_end h) (drop (m_end h) content))
      at 1.
    f_equal. rewrite drop_drop.
    replace (m_end h + (m_start h' - m_end h)) with (length before) by lia.
    rewrite Hc at 1. by rewrite drop_app_length.
  - left. rewrite take_ge; [done|]. rewrite length_drop. lia.
Qed.

Lemma rejects_L_java : rejects (N_of_ascii "L") java_result_pattern = true.
Proof. reflexivity. Qed.

(** The result the Java extractor finds after a header whose section has
    a row is the first row of that section, with the same fields. *)
Lemma java_search_section content i h rm tl :
  headers content !! i = Some h ->
  section_rows java_result_pattern content i h = rm :: tl ->
  search java_result_pattern (drop (m_end h) content) = Some rm
  /\ forall n,
       group (drop (m_end h) content) rm n
       = group (section_of content (headers content) i h) rm n.
Proof.
  intros Hh Hrows. unfold section_rows, finditer in Hrows.
  apply finditer_from_head in Hrows.
  pose proof (search_from_spans _ _ _ _ Hrows) as Hsp. simpl in Hsp.
  destruct (remaining_section content i h Hh) as [->|[t ->]].
  - done.
  - split.
    + unfold search. apply search_from_app; [exact rejects_L_java | done].
    + intros n. by apply group_app_within.
Qed.

Lemma java_step_entry content d h :
  java_step content d h = e ← java_entry content h; Return (put d e).
Proof.
  unfold java_step, java_entry.
  destruct (float (group content h 2)); simpl; [|done].
  destruct (search java_result_pattern (drop (m_end h) content)); [|done].
  destruct (float (group _ _ 1)); simpl; [|done].
  destruct (float (group _ _ 2)); simpl; done.
Qed.

Lemma parse_java_entries content :
  parse_java_text content
  = es ← collect (java_entry content) (headers content);
    Return (foldl put ∅ es).
Proof.
  rewrite parse_java_text_loop. apply for_each_put. apply java_step_entry.
Qed.

Lemma java_entry_key content h e :
  java_entry content h = Return e -> e.1 = java_key content h.
Proof.
  unfold java_entry. intros H. apply bind_return in H as (sz & _ & H).
  destruct (search _ _).
  - apply bind_return in H as (a & _ & H).
    apply bind_return in H as (t & _ & H). by injection H as <-.
  - by injection H as <-.
Qed.

Lemma java_entries_keys content xs es :
  collect (java_entry content) xs = Return es ->
  es.*1 = java_key content <$> xs.
Proof.
  revert es. induction xs as [|x xs IH]; intros es H; simpl in H.
  - by injection H as <-.
  - apply bind_return in H as (e & He & H).
    apply bind_return in H as (es' & Hes & H). injection H as <-.
    simpl. f_equal; [by apply java_entry_key | by apply IH].
Qed.

Lemma java_entries_return content :
  java_ok content = true ->
  exists es, collect (java_entry content) (headers content) = Return es.
Proof.
  intros Hok. apply collect_returns. intros h Hh.
  unfold java_ok in Hok. rewrite forallb_forall in Hok.
  specialize (Hok h ltac:(by apply list_elem_of_In)).
  apply andb_true_iff in Hok as [Hsize Hrow]. unfold java_entry.
  destruct (float (group content h 2)); [simpl|done].
  destruct (search java_result_pattern (drop (m_end h) content)); [|done].
  unfold row_ok in Hrow. apply andb_true_iff in Hrow as [Ha Ht].
  destruct (float (group _ _ 1)); [simpl|done].
  destruct (float (group _ _ 2)); done.
Qed.

(** The Java extractor on a text whose headers have pairwise distinct
    names: a library whose section has a row is bound to exactly one
    measurement, holding the fields of the first row of its section. *)
Lemma parse_java_first_row content :
  NoDup (java_key content <$> headers content) ->
  java_ok content = true ->
  exists d,
    parse_java_text content = Return d
    /\ forall i h rm tl,
         headers content !! i = Some h ->
         section_rows java_result_pattern content i h = rm :: tl ->
         exists r,
           d !! java_key content h = Some [r]
           /\ parser r = lit "Harmonica" /\ language r = lit "Java"
           /\ float (group (section_of content (headers content) i h) rm 1)
              = Return (avg_time_ms r)
           /\ float (group (section_of content (headers content) i h) rm 2)
              = Return (throughput_kb_ms r).
Proof.
  intros Hnd Hok. destruct (java_entries_return content Hok) as [es Hes].
  exists (foldl put ∅ es). rewrite parse_java_entries, Hes. split; [done|].
  intros i h rm tl Hh Hrows.
  destruct (collect_lookup _ _ _ _ _ Hes Hh) as (e & Hi & He).
  destruct (java_search_section content i h rm tl Hh Hrows) as [Hs Hg].
  unfold java_entry in He. rewrite Hs in He.
  apply bind_return in He as (sz & _ & He).
  apply bind_return in He as (a & Ha & He).
  apply bind_return in He as (t & Ht & He). injection He as <-.
  eexists. rewrite foldl_put_lookup.
  rewrite (binding_nodup es i (java_key content h) _ ltac:(by rewrite (java_entries_keys _ _ _ Hes)) Hi).
  split; [reflexivity|]. simpl. rewrite <- !Hg. done.
Qed.

(** ** The three extractors *)

Lemma js_row_returns section rm :
  row_ok 2 3 section rm = true -> returns (js_row section rm) = true.
Proof.
  unfold row_ok, js_row. intros H. apply andb_true_iff in H as [Ha Ht].
  destruct (float (group section rm 2)); [simpl|done].
  destruct (float (group section rm 3)); done.
Qed.

Lemma js_row_fields section rm r :
  js_row section rm = Return r ->
  float (group section rm 2) = Return (avg_time_ms r)
  /\ float (group section rm 3) = Return (throughput_kb_ms r).
Proof.
  unfold js_row. intros H.
  apply bind_return in H as (a & Ha & H).
  apply bind_return in H as (t & Ht & H). by injection H as <-.
Qed.

Lemma rust_row_returns section rm :
  row_ok 2 3 section rm = true -> returns (rust_row section rm) = true.
Proof.
  unfold row_ok, rust_row. intros H. apply andb_true_iff in H as [Ha Ht].
  destruct (float (group section rm 2)); [simpl|done].
  destruct (float (group section rm 3)); done.
Qed.

Lemma rust_row_fields section rm r :
  rust_row section rm = Return r ->
  float (group section rm 2) = Return (avg_time_ms r)
  /\ float (group section rm 3) = Return (throughput_kb_ms r).
Proof.
  unfold rust_row. intros H.
  apply bind_return in H as (a & Ha & H).
  apply bind_return in H as (t & Ht & H). by injection H as <-.
Qed.

Lemma NoDup_fmap_lookup {A B} `{EqDecision B} (f : A -> B) (l : list A) i j a b :
  NoDup (f <$> l) -> l !! i = Some a -> l !! j = Some b -> f a = f b -> i = j.
Proof.
  intros Hnd Ha Hb Hf.
  apply (NoDup_lookup (f <$> l) i j (f a) Hnd).
  - by rewrite list_lookup_fmap, Ha.
  - by rewrite list_lookup_fmap, Hb, Hf.
Qed.

(** Exact extraction by the loop shared by the JavaScript and Rust
    extractors. *)
Lemma parse_sections_exact_extraction result_pattern row content :
  (forall section rm,
     row_ok 2 3 section rm = true -> returns (row section rm) = true) ->
  (forall section rm r,
     row section rm = Return r ->
     float (group section rm 2) = Return (avg_time_ms r)
     /\ float (group section rm 3) = Return (throughput_kb_ms r)) ->
  NoDup (lib_key content <$> headers content) ->
  sections_ok result_pattern content = true ->
  exact_extraction (parse_sections result_pattern row) lib_key
    result_pattern 2 3 content.
Proof.
  intros Hret Hfld Hnd Hok.
  destruct (parse_sections_exact result_pattern row Hret Hfld content Hnd Hok)
    as (d & Hd & Hdom & Hrows).
  exists d. split; [done|]. split.
  { intros k Hk. apply Hdom in Hk as (i & h & Hh & Hkey & _). eauto. }
  intros i h Hh. simpl. split; [|by apply Hrows].
  intros Hnil. apply not_elem_of_dom. intros Hin.
  apply Hdom in Hin as (i' & h' & Hh' & Hkey & Hne).
  assert (i' = i) as ->
    by exact (NoDup_fmap_lookup (lib_key content) (headers content)
                i' i h' h Hnd Hh' Hh Hkey).
  rewrite Hh in Hh'. injection Hh' as <-. done.
Qed.

Lemma collect_lookup_inv {A B} (f : A -> py B) xs ys i y :
  collect f xs = Return ys -> ys !! i = Some y ->
  exists x, xs !! i = Some x /\ f x = Return y.
Proof.
  intros Hc Hy.
  destruct (lookup_lt_is_Some_2 xs i) as [x Hx].
  { rewrite <- (collect_length _ _ _ Hc). by apply lookup_lt_Some in Hy. }
  destruct (collect_lookup _ _ _ _ _ Hc Hx) as (y' & Hy' & Hf).
  rewrite Hy in Hy'. injection Hy' as <-. eauto.
Qed.

(** Every value of the Java table is a single measurement. *)
Lemma parse_java_singletons content d k l :
  parse_java_text content = Return d -> d !! k = Some l -> length l = 1.
Proof.
  rewrite parse_java_entries. intros H Hl.
  apply bind_return in H as (es & Hes & H). injection H as <-.
  rewrite foldl_put_lookup, lookup_empty in Hl.
  destruct (binding k es) as [l'|] eqn:Hb; [|done]. injection Hl as ->.
  pose proof (binding_nonempty _ _ _ Hb) as Hne.
  apply binding_elem, list_elem_of_lookup in Hb as [i Hi].
  destruct (collect_lookup_inv _ _ _ _ _ Hes Hi) as (h & _ & He).
  unfold java_entry in He. apply bind_return in He as (sz & _ & He).
  destruct (search _ _).
  - apply bind_return in He as (a & _ & He).
    apply bind_return in He as (t & _ & He). by injection He as _ <-.
  - by injection He as _ <-.
Qed.

(** C1 (amended): on a text whose headers have pairwise distinct keys
    and whose rows are well formed, the JavaScript and the Rust
    extractor return exactly the libraries whose section has a row, each
    with one measurement per row holding the values of the row's numeric
    fields; the Java extractor, which keeps a single result per library,
    binds every library whose section has a row to one measurement with
    the fields of the first row of that section. *)
Theorem extraction_exact_for_distinct_names (content : str) :
  (NoDup (lib_key content <$> headers content) ->
   sections_ok js_result_pattern content = true ->
   exact_extraction parse_javascript_text lib_key js_result_pattern 2 3 content)
  /\ (NoDup (lib_key content <$> headers content) ->
      sections_ok rust_result_pattern content = true ->
      exact_extraction parse_rust_text lib_key rust_result_pattern 2 3 content)
  /\ (NoDup (java_key content <$> headers content) ->
      java_ok content = true ->
      exists d,
        parse_java_text content = Return d
        /\ (forall k l, d !! k = Some l -> length l = 1)
        /\ forall i h rm tl,
             headers content !! i = Some h ->
             section_rows java_result_pattern content i h = rm :: tl ->
             exists r,
               d !! java_key content h = Some [r]
               /\ float (group (section_of content (headers content) i h)
                           rm 1) = Return (avg_time_ms r)
               /\ float (group (section_of content (headers content) i h)
                           rm 2) = Return (throughput_kb_ms r)).
Proof.
  split; [|split].
  - exact (parse_sections_exact_extraction js_result_pattern js_row content
             js_row_returns js_row_fields).
  - exact (parse_sections_exact_extraction rust_result_pattern rust_row content
             rust_row_returns rust_row_fields).
  - intros Hnd Hok.
    destruct (parse_java_first_row content Hnd Hok) as (d & Hd & Hrows).
    exists d. split; [done|]. split.
    + intros k l. by apply (parse_java_singletons content).
    + intros i h rm tl Hh Hr.
      destruct (Hrows i h rm tl Hh Hr) as (r & Hl & _ & _ & Ha & Ht). eauto.
Qed.


Lemma extraction_exact_for_distinct_names_witness :
  exact_extraction parse_javascript_text lib_key js_result_pattern 2 3 js_report
  /\ exact_extraction parse_rust_text lib_key rust_result_pattern 2 3
       rust_report
  /\ exists d,
       parse_java_text java_report = Return d
       /\ (forall k l, d !! k = Some l -> length l = 1)
       /\ forall i h rm tl,
            headers java_report !! i = Some h ->
            section_rows java_result_pattern java_report i h = rm :: tl ->
            exists r,
              d !! java_key java_report h = Some [r]
              /\ float (group (section_of java_report (headers java_report) i h)
                          rm 1) = Return (avg_time_ms r)
              /\ float (group (section_of java_report (headers java_report) i h)
                          rm 2) = Return (throughput_kb_ms r).
Proof.
  split; [|split].
  - apply (proj1 (extraction_exact_for_distinct_names js_report));
      [decide_by_computation | compute_true].
  - apply (proj1 (proj2 (extraction_exact_for_distinct_names rust_report)));
      [decide_by_computation | compute_true].
  - apply (proj2 (proj2 (extraction_exact_for_distinct_names java_report)));
      [decide_by_computation | compute_true].
Defined.

(** C1 as stated fails.  The Java extractor keeps one measurement for a
    section with two well-formed rows, and the JavaScript extractor
    keeps one library of two whose names normalize alike. *)
Lemma extraction_not_exact :
  (java_ok java_two_rows = true
   /\ NoDup (java_key java_two_rows <$> headers java_two_rows)
   /\ ~ exact_extraction parse_java_text java_key java_result_pattern 1 2
         java_two_rows)
  /\ (sections_ok js_result_pattern js_same_name = true
      /\ ~ exact_extraction parse_javascript_text lib_key js_result_pattern 2 3
            js_same_name).
Proof.
  split.
  - split; [compute_true|]. split; [decide_by_computation|].
    intros (d & Hd & _ & H).
    destruct (headers java_two_rows !! 0) as [h0|] eqn:Hh0;
      [|by vm_compute in Hh0].
    destruct (H 0 h0 Hh0) as [_ Hrows].
    assert (Hlen : length (section_rows java_result_pattern java_two_rows 0 h0)
                   = 2).
    { vm_compute in Hh0. injection Hh0 as <-. compute_true. }
    destruct Hrows as (l & Hl & Hll & _).
    { intros Hnil. rewrite Hnil in Hlen. discriminate. }
    rewrite Hlen in Hll.
    pose proof (parse_java_singletons _ _ _ _ Hd Hl). lia.
  - split; [compute_true|].
    intros (d & Hd & _ & H).
    destruct (headers js_same_name !! 0) as [h0|] eqn:Hh0;
      [|by vm_compute in Hh0].
    destruct (headers js_same_name !! 1) as [h1|] eqn:Hh1;
      [|by vm_compute in Hh1].
    destruct (H 0 h0 Hh0) as [_ Hrows0]. destruct (H 1 h1 Hh1) as [_ Hrows1].
    vm_compute in Hh0. injection Hh0 as <-.
    vm_compute in Hh1. injection Hh1 as <-.
    destruct Hrows0 as (l0 & Hl0 & _ & Hf0);
      [intros Hnil; by vm_compute in Hnil|].
    destruct Hrows1 as (l1 & Hl1 & _ & Hf1);
      [intros Hnil; by vm_compute in Hnil|].
    match type of Hl1 with
    | d !! ?k1 = _ =>
        match type of Hl0 with
        | d !! ?k0 = _ =>
            assert (Hk : k0 = k1) by compute_true; rewrite Hk in Hl0
        end
    end.
    rewrite Hl1 in Hl0. injection Hl0 as ->.
    match type of Hf0 with
    | forall j rm, ?rows !! j = Some rm -> _ =>
        destruct (rows !! 0) as [rm0|] eqn:Hr0; [|by vm_compute in Hr0]
    end.
    match type of Hf1 with
    | forall j rm, ?rows !! j = Some rm -> _ =>
        destruct (rows !! 0) as [rm1|] eqn:Hr1; [|by vm_compute in Hr1]
    end.
    destruct (Hf0 0 rm0 Hr0) as (r0 & Hi0 & Ha0 & _).
    destruct (Hf1 0 rm1 Hr1) as (r1 & Hi1 & Ha1 & _).
    rewrite Hi1 in Hi0. injection Hi0 as ->.
    vm_compute in Hr0. injection Hr0 as <-.
    vm_compute in Hr1. injection Hr1 as <-.
    rewrite <- Ha1 in Ha0. vm_compute in Ha0. discriminate.
Qed.

(** ** Headers that normalize alike *)

(** C9 (amended): in the JavaScript and Rust extractors, when two
    headers normalize to the same name and the later of them (the last
    header with that name) has at least one row in its section, the
    name is bound to the measurements of the later section only, one
    per row of it; the rows of the earlier section are gone. *)
Theorem later_header_overwrites (content : str) (i j : nat) (hi hj : pymatch) :
  headers content !! i = Some hi ->
  headers content !! j = Some hj ->
  i < j ->
  lib_key content hi = lib_key content hj ->
  (forall j' h', j < j' -> headers content !! j' = Some h' ->
                 lib_key content h' <> lib_key content hj) ->
  (sections_ok js_result_pattern content = true ->
   section_rows js_result_pattern content j hj <> [] ->
   exists d l,
     parse_javascript_text content = Return d
     /\ collect (js_row (section_of content (headers content) j hj))
          (section_rows js_result_pattern content j hj) = Return l
     /\ d !! lib_key content hi = Some l
     /\ length l = length (section_rows js_result_pattern content j hj))
  /\ (sections_ok rust_result_pattern content = true ->
      section_rows rust_result_pattern content j hj <> [] ->
      exists d l,
        parse_rust_text content = Return d
        /\ collect (rust_row (section_of content (headers content) j hj))
             (section_rows rust_result_pattern content j hj) = Return l
        /\ d !! lib_key content hi = Some l
        /\ length l = length (section_rows rust_result_pattern content j hj)).
Proof.
  intros Hi Hj Hij Hkey Hlast. split; intros Hok Hrows.
  - exact (parse_sections_later_wins js_result_pattern js_row js_row_returns
             content i j hi hj Hok Hi Hj Hij Hkey Hlast Hrows).
  - exact (parse_sections_later_wins rust_result_pattern rust_row
             rust_row_returns content i j hi hj Hok Hi Hj Hij Hkey Hlast Hrows).
Qed.

Lemma later_header_overwrites_witness :
  exists hi hj d l,
    headers js_same_name !! 0 = Some hi
    /\ headers js_same_name !! 1 = Some hj
    /\ parse_javascript_text js_same_name = Return d
    /\ collect (js_row (section_of js_same_name (headers js_same_name) 1 hj))
         (section_rows js_result_pattern js_same_name 1 hj) = Return l
    /\ d !! lib_key js_same_name hi = Some l
    /\ length l = length (section_rows js_result_pattern js_same_name 1 hj).
Proof.
  destruct (headers js_same_name !! 0) as [hi|] eqn:Hi;
    [|by vm_compute in Hi].
  destruct (headers js_same_name !! 1) as [hj|] eqn:Hj;
    [|by vm_compute in Hj].
  assert (Hlast : forall j' h', 1 < j' -> headers js_same_name !! j' = Some h' ->
                    lib_key js_same_name h' <> lib_key js_same_name hj).
  { intros j' h' Hlt Hh'. apply lookup_lt_Some in Hh'.
    assert (Hlen : length (headers js_same_name) = 2) by compute_true.
    lia. }
  assert (Hkey : lib_key js_same_name hi = lib_key js_same_name hj).
  { pose proof Hi as Hi'. pose proof Hj as Hj'.
    vm_compute in Hi'. injection Hi' as <-.
    vm_compute in Hj'. injection Hj' as <-. compute_true. }
  assert (Hrows : section_rows js_result_pattern js_same_name 1 hj <> []).
  { pose proof Hj as Hj'. vm_compute in Hj'. injection Hj' as <-.
    intros Hnil. by vm_compute in Hnil. }
  destruct (proj1 (later_header_overwrites js_same_name 0 1 hi hj
                     Hi Hj ltac:(lia) Hkey Hlast)
              ltac:(compute_true) Hrows) as (d & l & H).
  exists hi, hj, d, l. tauto.
Defined.

(** C9 as stated fails: when the later header has no row, the earlier
    section's rows stay bound to the name. *)
Lemma later_header_without_rows_keeps_earlier :
  match headers js_later_empty, parse_javascript_text js_later_empty with
  | [h0; h1], Return d =>
      h0 <> h1
      /\ lib_key js_later_empty h0 = lib_key js_later_empty h1
      /\ section_rows js_result_pattern js_later_empty 1 h1 = []
      /\ section_rows js_result_pattern js_later_empty 0 h0 <> []
      /\ Return (d !! lib_key js_later_empty h1)
         = (l ← collect
                  (js_row (section_of js_later_empty (headers js_later_empty)
                             0 h0))
                  (section_rows js_result_pattern js_later_empty 0 h0);
            Return (Some l))
  | _, _ => False
  end
  /\ match headers rust_later_empty, parse_rust_text rust_later_empty with
     | [h0; h1], Return d =>
         h0 <> h1
         /\ lib_key rust_later_empty h0 = lib_key rust_later_empty h1
         /\ section_rows rust_result_pattern rust_later_empty 1 h1 = []
         /\ section_rows rust_result_pattern rust_later_empty 0 h0 <> []
         /\ Return (d !! lib_key rust_later_empty h1)
            = (l ← collect
                     (rust_row (section_of rust_later_empty
                                  (headers rust_later_empty) 0 h0))
                     (section_rows rust_result_pattern rust_later_empty 0 h0);
               Return (Some l))
     | _, _ => False
     end.
Proof. vm_compute. repeat split; discriminate. Qed.

(** ** No library is bound to an empty list *)

Lemma foldl_put_nonempty es k l :
  foldl put ∅ es !! k = Some l -> l <> [].
Proof.
  rewrite foldl_put_lookup, lookup_empty.
  destruct (binding k es) eqn:Hb; [|done].
  intros [= <-]. by apply binding_nonempty in Hb.
Qed.

Lemma parse_java_text_nonempty content d k l :
  parse_java_text content = Return d -> d !! k = Some l -> l <> [].
Proof.
  rewrite parse_java_entries. intros H.
  apply bind_return in H as (es & _ & H). injection H as <-.
  apply foldl_put_nonempty.
Qed.

Lemma parse_sections_nonempty result_pattern row content d k l :
  parse_sections result_pattern row content = Return d ->
  d !! k = Some l -> l <> [].
Proof.
  rewrite parse_sections_entries. intros H.
  apply bind_return in H as (es & _ & H). injection H as <-.
  apply foldl_put_nonempty.
Qed.

Lemma with_file_nonempty fs filepath body d k l :
  (forall content d, body content = Return d ->
                     forall k l, d !! k = Some l -> l <> []) ->
  with_file fs filepath body = Return d -> d !! k = Some l -> l <> [].
Proof.
  intros Hbody. unfold with_file. destruct (fs filepath) as [| |content].
  - intros [= <-]. by rewrite lookup_empty.
  - done.
  - intros H. by apply (Hbody content).
Qed.

(** C10: every key of an extractor's output is bound to a non-empty
    list, and merging three tables with that property gives a table
    with that property. *)
Theorem no_empty_measurement_list :
  (forall fs filepath d k l,
     parse_java_results fs filepath = Return d
     \/ parse_javascript_results fs filepath = Return d
     \/ parse_rust_results fs filepath = Return d ->
     d !! k = Some l -> l <> [])
  /\ (forall java_results js_results rust_results : results_dict,
        (forall k l, java_results !! k = Some l -> l <> []) ->
        (forall k l, js_results !! k = Some l -> l <> []) ->
        (forall k l, rust_results !! k = Some l -> l <> []) ->
        forall k l,
          merge_results java_results js_results rust_results !! k = Some l ->
          l <> []).
Proof.
  split.
  - intros fs filepath d k l [H|[H|H]].
    + apply (with_file_nonempty fs filepath parse_java_text); [|done].
      intros content d' Hd' k' l'. by apply (parse_java_text_nonempty content).
    + apply (with_file_nonempty fs filepath parse_javascript_text); [|done].
      intros content d' Hd' k' l'.
      by apply (parse_sections_nonempty js_result_pattern js_row content).
    + apply (with_file_nonempty fs filepath parse_rust_text); [|done].
      intros content d' Hd' k' l'.
      by apply (parse_sections_nonempty rust_result_pattern rust_row content).
  - intros j js r Hj Hjs Hr k l Hl.
    rewrite merge_results_lookup in Hl. unfold all_libraries, merged_list in Hl.
    destruct (decide _) as [Hk|]; [|done]. injection Hl as <-. simpl.
    rewrite !elem_of_union, !elem_of_dom in Hk.
    destruct Hk as [[[lj Hk]|[ls Hk]]|[lr Hk]].
    + rewrite (contribution_present _ _ _ Hk). specialize (Hj k lj Hk).
      by destruct lj.
    + rewrite (contribution_present js _ _ Hk). specialize (Hjs k ls Hk).
      destruct ls; [done|]. by destruct (contribution j k).
    + rewrite (contribution_present r _ _ Hk). specialize (Hr k lr Hk).
      destruct lr; [done|].
      by destruct (contribution j k), (contribution js k).
Qed.

Lemma no_empty_measurement_list_witness :
  exists j js r,
    parse_java_text java_report = Return j
    /\ parse_javascript_text js_report = Return js
    /\ parse_rust_text rust_report = Return r
    /\ forall k l, merge_results j js r !! k = Some l -> l <> [].
Proof.
  destruct (parse_java_text java_report) as [j|] eqn:Hj;
    [|by vm_compute in Hj].
  destruct (parse_javascript_text js_report) as [js|] eqn:Hjs;
    [|by vm_compute in Hjs].
  destruct (parse_rust_text rust_report) as [r|] eqn:Hr;
    [|by vm_compute in Hr].
  exists j, js, r. repeat split.
  apply (proj2 no_empty_measurement_list j js r).
  - intros k' l'.
    apply (proj1 no_empty_measurement_list (fun _ => Text java_report) [] j).
    left. exact Hj.
  - intros k' l'.
    apply (proj1 no_empty_measurement_list (fun _ => Text js_report) [] js).
    right. left. exact Hjs.
  - intros k' l'.
    apply (proj1 no_empty_measurement_list (fun _ => Text rust_report) [] r).
    right. right. exact Hr.
Defined.

(** ** The pipeline *)

Lemma dict_truthy_empty : dict_truthy ∅ = false.
Proof. unfold dict_truthy. by apply bool_decide_eq_false; intros H. Qed.

Lemma dict_truthy_nonempty (d : results_dict) : d <> ∅ -> dict_truthy d = true.
Proof. intros H. unfold dict_truthy. by apply bool_decide_eq_true. Qed.

(** C7: when the three extractors all return the empty mapping, [main]
    prints the no-results error and exits with status 1 without calling
    [merge_results] or any chart writer; otherwise it goes on to merge
    the three tables and hands the merged table to the four chart
    writers. *)
Theorem no_results_is_fatal (w : world) (java_file js_file rust_file : option str)
    (java_results js_results rust_results : results_dict) :
  results_dir_exists w = true ->
  latest_results w = (java_file, js_file, rust_file) ->
  parse_if parse_java_results (files w) java_file = Return java_results ->
  parse_if parse_javascript_results (files w) js_file = Return js_results ->
  parse_if parse_rust_results (files w) rust_file = Return rust_results ->
  (java_results = ∅ /\ js_results = ∅ /\ rust_results = ∅ ->
   exists trace,
     main w = (trace ++ [no_results_message], SysExit 1)
     /\ (1 <> 0)%Z
     /\ forallb (fun e => negb (is_render e)) (trace ++ [no_results_message])
        = true)
  /\ (~ (java_results = ∅ /\ js_results = ∅ /\ rust_results = ∅) ->
      exists trace,
        main w = (trace ++ report java_results js_results rust_results,
                  Finished)
        /\ forall c,
             Render c (merge_results java_results js_results rust_results)
             ∈ report java_results js_results rust_results).
Proof.
  intros Hdir Hlatest Hj Hjs Hr. unfold main.
  rewrite Hdir, Hlatest. simpl. rewrite Hj, Hjs, Hr. simpl. split.
  - intros (-> & -> & ->). rewrite dict_truthy_empty. simpl.
    exists prologue. split; [reflexivity|]. split; [done|]. reflexivity.
  - intros Hne.
    assert (Hany : dict_truthy java_results || dict_truthy js_results
                   || dict_truthy rust_results = true).
    { destruct (decide (java_results = ∅)) as [->|H1];
        [|by rewrite (dict_truthy_nonempty _ H1)].
      destruct (decide (js_results = ∅)) as [->|H2];
        [|by rewrite (dict_truthy_nonempty _ H2), orb_true_r].
      destruct (decide (rust_results = ∅)) as [->|H3];
        [|by rewrite (dict_truthy_nonempty _ H3), orb_true_r].
      by destruct Hne. }
    rewrite Hany. simpl. exists prologue. split; [reflexivity|].
    intros c. unfold report.
    destruct c; repeat (first [by left | right]).
Qed.

Lemma no_results_is_fatal_witness :
  (exists trace,
     main world_without_files = (trace ++ [no_results_message], SysExit 1)
     /\ (1 <> 0)%Z
     /\ forallb (fun e => negb (is_render e)) (trace ++ [no_results_message])
        = true)
  /\ exists java_results trace,
       parse_if parse_java_results (files world_with_java_only)
         (Some (lit "benchmark-results/java_20250101.txt"))
       = Return java_results
       /\ main world_with_java_only
          = (trace ++ report java_results ∅ ∅, Finished)
       /\ forall c,
            Render c (merge_results java_results ∅ ∅)
            ∈ report java_results ∅ ∅.
Proof.
  split.
  - apply (proj1 (no_results_is_fatal world_without_files None None None
                    ∅ ∅ ∅ eq_refl eq_refl eq_refl eq_refl eq_refl)).
    done.
  - destruct (parse_if parse_java_results (files world_with_java_only)
                (Some (lit "benchmark-results/java_20250101.txt")))
      as [j|] eqn:Hj; [|by vm_compute in Hj].
    assert (Hne : ~ (j = ∅ /\ (∅ : results_dict) = ∅
                     /\ (∅ : results_dict) = ∅)).
    { intros (-> & _). by vm_compute in Hj. }
    destruct (proj2 (no_results_is_fatal world_with_java_only
                       (Some (lit "benchmark-results/java_20250101.txt"))
                       None None j ∅ ∅ eq_refl eq_refl Hj eq_refl eq_refl) Hne)
      as (trace & Hmain & Hrender).
    exists j, trace. split; [reflexivity|]. split; [exact Hmain|exact Hrender].
Defined.

(** The end-to-end scenario of the specification: a Java report with one
    library [Foo] and one result line, no other report.  The merged
    table has the single key [Foo] bound to the one measurement read
    from that line. *)
Lemma foo_end_to_end :
  match parse_java_text foo_report, float (lit "1.5"), float (lit "6.7") with
  | Return java_results, Return time, Return throughput =>
      merge_results java_results ∅ ∅
      = {[ lit "Foo" := [{| parser := lit "Harmonica"; language := lit "Java";
                            avg_time_ms := time;
                            throughput_kb_ms := throughput |}] ]}
  | _, _, _ => False
  end.
Proof. vm_compute. reflexivity. Qed.

(** ** Where the Java extractor departs from the other two *)

(** In the JavaScript and Rust extractors every key is the normalized
    name of a header, and it is bound to the rows found inside the
    section of that header, of which there is at least one. *)
Lemma parse_sections_bound result_pattern row content d k l :
  parse_sections result_pattern row content = Return d ->
  d !! k = Some l ->
  exists i h,
    headers content !! i = Some h
    /\ k = normalize_library_name (strip (group content h 1))
    /\ section_rows result_pattern content i h <> []
    /\ collect (row (section_of content (headers content) i h))
         (section_rows result_pattern content i h) = Return l.
Proof.
  rewrite parse_sections_entries. intros H Hl.
  apply bind_return in H as (es & Hes & H). injection H as <-.
  rewrite foldl_put_lookup, lookup_empty in Hl.
  destruct (binding k es) as [l'|] eqn:Hb; [|done]. injection Hl as ->.
  pose proof (binding_nonempty _ _ _ Hb) as Hne.
  apply binding_elem, list_elem_of_lookup in Hb as [n Hn].
  destruct (collect_lookup_inv _ _ _ _ _ Hes Hn) as ([i h] & Hih & He).
  apply enumerate_lookup in Hih as [-> Hh].
  unfold section_entry in He. simpl in He.
  apply bind_return in He as (l0 & Hl0 & He). injection He as <- <-.
  exists n, h. split; [done|]. split; [done|]. split; [|done].
  intros Hnil. unfold section_rows in Hnil. rewrite Hnil in Hl0.
  simpl in Hl0. by injection Hl0 as <-.
Qed.

Lemma sibling_extractors_stay_in_section content d k l :
  (parse_javascript_text content = Return d -> d !! k = Some l ->
   exists i h,
     headers content !! i = Some h
     /\ k = normalize_library_name (strip (group content h 1))
     /\ section_rows js_result_pattern content i h <> []
     /\ collect (js_row (section_of content (headers content) i h))
          (section_rows js_result_pattern content i h) = Return l)
  /\ (parse_rust_text content = Return d -> d !! k = Some l ->
      exists i h,
        headers content !! i = Some h
        /\ k = normalize_library_name (strip (group content h 1))
        /\ section_rows rust_result_pattern content i h <> []
        /\ collect (rust_row (section_of content (headers content) i h))
             (section_rows rust_result_pattern content i h) = Return l).
Proof.
  split.
  - apply (parse_sections_bound js_result_pattern js_row).
  - apply (parse_sections_bound rust_result_pattern rust_row).
Qed.


(** C2, at a report whose first library has no result row: the Java
    extractor looks for a result in all of the text after the header, so
    library [A] is bound to the row that stands in the section of [B]. *)
Lemma java_result_from_next_section :
  match headers java_first_empty, parse_java_text java_first_empty with
  | [hA; hB], Return d =>
      java_key java_first_empty hA = lit "A"
      /\ java_key java_first_empty hB = lit "B"
      /\ section_rows java_result_pattern java_first_empty 0 hA = []
      /\ section_rows java_result_pattern java_first_empty 1 hB <> []
      /\ is_Some (d !! lit "A")
      /\ d !! lit "A" = d !! lit "B"
  | _, _ => False
  end.
Proof. vm_compute. repeat split; try discriminate. eexists. reflexivity. Qed.

(** C3, at a report that names a library by its file name: the Java
    extractor files it under the name as read, while the table maps
    that name to [Lodash]. *)
Lemma java_key_not_normalized :
  match parse_java_text java_raw_name with
  | Return d =>
      (map_to_list d).*1 = [lit "lodash.js"]
      /\ d !! lit "Lodash" = None
      /\ normalize_library_name (lit "lodash.js") = lit "Lodash"
  | Raise _ => False
  end.
Proof. vm_compute. repeat split. Qed.

(** * Further properties *)

(** ** When an extractor raises *)

Lemma float_raises s e : float s = Raise e -> e = ValueError.
Proof.
  unfold float. destruct (read_digits 0 0 s) as [[ip ni] rest].
  destruct rest as [|c rest'].
  - destruct ni; [by intros [= <-] | done].
  - destruct (c =? 46)%N; [|by intros [= <-]].
    destruct (read_digits ip ni rest') as [[m n] rest''].
    destruct rest''; [|by intros [= <-]].
    destruct n; [by intros [= <-] | done].
Qed.

Lemma returns_true {A} (m : py A) : returns m = true -> exists a, m = Return a.
Proof. destruct m; [eauto | done]. Qed.

(** A computation that can only raise [ValueError] either returns or
    raises it, according to [returns]. *)
Lemma returns_or_ValueError {A} (m : py A) :
  (forall e, m = Raise e -> e = ValueError) ->
  if returns m then exists a, m = Return a else m = Raise ValueError.
Proof.
  intros H. destruct m as [a|e]; simpl; [eauto|]. by rewrite (H e).
Qed.

Lemma collect_raises {A B} (f : A -> py B) xs e :
  (forall x e, f x = Raise e -> e = ValueError) ->
  collect f xs = Raise e -> e = ValueError.
Proof.
  intros Hf. induction xs as [|x xs IH]; simpl; [done|].
  destruct (f x) as [y|e'] eqn:Hx; simpl.
  - destruct (collect f xs); simpl; [done|]. intros [= <-]. by apply IH.
  - intros [= <-]. by apply (Hf x).
Qed.

Lemma collect_returns_forallb {A B} (f : A -> py B) xs :
  returns (collect f xs) = forallb (fun x => returns (f x)) xs.
Proof.
  induction xs as [|x xs IH]; simpl; [done|].
  destruct (f x); simpl; [|done]. rewrite <- IH.
  by destruct (collect f xs).
Qed.

Lemma forallb_pointwise {A} (f g : A -> bool) (l : list A) :
  (forall x, f x = g x) -> forallb f l = forallb g l.
Proof. intros H. induction l as [|x l IH]; simpl; [done|]. by rewrite H, IH. Qed.

Lemma js_row_returns_ok section rm :
  returns (js_row section rm) = row_ok 2 3 section rm.
Proof.
  unfold js_row, row_ok. destruct (float (group section rm 2)); [simpl|done].
  by destruct (float (group section rm 3)).
Qed.

Lemma rust_row_returns_ok section rm :
  returns (rust_row section rm) = row_ok 2 3 section rm.
Proof.
  unfold rust_row, row_ok. destruct (float (group section rm 2)); [simpl|done].
  by destruct (float (group section rm 3)).
Qed.

Lemma js_row_raises section rm e :
  js_row section rm = Raise e -> e = ValueError.
Proof.
  unfold js_row. destruct (float (group section rm 2)) eqn:Ha; simpl.
  - destruct (float (group section rm 3)) eqn:Ht; simpl; [done|].
    intros [= <-]. by apply float_raises in Ht.
  - intros [= <-]. by apply float_raises in Ha.
Qed.

Lemma rust_row_raises section rm e :
  rust_row section rm = Raise e -> e = ValueError.
Proof.
  unfold rust_row. destruct (float (group section rm 2)) eqn:Ha; simpl.
  - destruct (float (group section rm 3)) eqn:Ht; simpl; [done|].
    intros [= <-]. by apply float_raises in Ht.
  - intros [= <-]. by apply float_raises in Ha.
Qed.

Lemma parse_sections_returns result_pattern row content :
  (forall section rm, returns (row section rm) = row_ok 2 3 section rm) ->
  returns (parse_sections result_pattern row content)
  = sections_ok result_pattern content.
Proof.
  intros Hrow. rewrite parse_sections_entries.
  transitivity
    (returns (collect (section_entry result_pattern row content
                         (headers content))
                (enumerate (headers content)))).
  { by destruct (collect _ _). }
  rewrite collect_returns_forallb. unfold sections_ok.
  apply forallb_pointwise. intros [i h]. unfold section_entry. simpl.
  transitivity
    (returns (collect (row (section_of content (headers content) i h))
                (finditer result_pattern
                   (section_of content (headers content) i h)))).
  { by destruct (collect _ _). }
  rewrite collect_returns_forallb. apply forallb_pointwise. intros rm. apply Hrow.
Qed.

Lemma section_entry_raises result_pattern row content il e :
  (forall section rm e, row section rm = Raise e -> e = ValueError) ->
  section_entry result_pattern row content (headers content) il = Raise e ->
  e = ValueError.
Proof.
  intros Hrow. unfold section_entry.
  destruct (collect (row _) _) as [l|e1] eqn:Hl; simpl; [done|].
  intros [= <-]. revert Hl. apply collect_raises. intros rm e2. apply Hrow.
Qed.

Lemma parse_sections_raises result_pattern row content e :
  (forall section rm e, row section rm = Raise e -> e = ValueError) ->
  parse_sections result_pattern row content = Raise e -> e = ValueError.
Proof.
  intros Hrow. rewrite parse_sections_entries.
  destruct (collect _ _) as [es|e'] eqn:Hes; simpl; [done|].
  intros [= <-]. revert Hes. apply collect_raises.
  intros il e0. by apply section_entry_raises.
Qed.

(** X1: the JavaScript and the Rust extractor return a mapping exactly
    when the two numeric fields of every matched row are float
    literals; a matched row with a field such as [1.2.3] is not
    skipped, it makes the extractor raise [ValueError]. *)
Theorem sections_return_or_ValueError (content : str) :
  (if sections_ok js_result_pattern content
   then exists d, parse_javascript_text content = Return d
   else parse_javascript_text content = Raise ValueError)
  /\ (if sections_ok rust_result_pattern content
      then exists d, parse_rust_text content = Return d
      else parse_rust_text content = Raise ValueError).
Proof.
  split.
  - rewrite <- (parse_sections_returns js_result_pattern js_row content
                  js_row_returns_ok).
    apply (returns_or_ValueError (parse_javascript_text content)).
    intros e. apply (parse_sections_raises js_result_pattern js_row).
    exact js_row_raises.
  - rewrite <- (parse_sections_returns rust_result_pattern rust_row content
                  rust_row_returns_ok).
    apply (returns_or_ValueError (parse_rust_text content)).
    intros e. apply (parse_sections_raises rust_result_pattern rust_row).
    exact rust_row_raises.
Qed.

Lemma java_entry_returns content h :
  returns (java_entry content h)
  = returns (float (group content h 2))
    && match search java_result_pattern (drop (m_end h) content) with
       | Some rm => row_ok 1 2 (drop (m_end h) content) rm
       | None => true
       end.
Proof.
  unfold java_entry, row_ok.
  destruct (float (group content h 2)); simpl; [|done].
  destruct (search _ _); [|done].
  destruct (float (group _ _ 1)); simpl; [|done].
  by destruct (float (group _ _ 2)).
Qed.

Lemma java_entry_raises content h e :
  java_entry content h = Raise e -> e = ValueError.
Proof.
  unfold java_entry. destruct (float (group content h 2)) eqn:Hs; simpl.
  - destruct (search _ _) as [rm|]; [|done].
    destruct (float (group (drop (m_end h) content) rm 1)) eqn:Ha; simpl.
    + destruct (float (group (drop (m_end h) content) rm 2)) eqn:Ht; simpl;
        [done|].
      intros [= <-]. by apply float_raises in Ht.
    + intros [= <-]. by apply float_raises in Ha.
  - intros [= <-]. by apply float_raises in Hs.
Qed.

(** X2: the Java extractor returns a mapping exactly when the size of
    every header and the two fields of the result found after it are
    float literals, and raises [ValueError] otherwise: unlike the other
    two extractors it converts the size, so a header [Size: 1.2.3 KB]
    alone makes it raise. *)
Theorem java_returns_or_ValueError (content : str) :
  if java_ok content
  then exists d, parse_java_text content = Return d
  else parse_java_text content = Raise ValueError.
Proof.
  assert (Hret : returns (parse_java_text content) = java_ok content).
  { rewrite parse_java_entries.
    transitivity (returns (collect (java_entry content) (headers content))).
    { by destruct (collect _ _). }
    rewrite collect_returns_forallb. unfold java_ok.
    apply forallb_pointwise. intros h. apply java_entry_returns. }
  rewrite <- Hret. apply returns_or_ValueError.
  intros e. rewrite parse_java_entries.
  destruct (collect _ _) as [es|e'] eqn:Hes; simpl; [done|].
  intros [= <-]. revert Hes. apply collect_raises. apply java_entry_raises.
Qed.

(** ** The numeric fields *)

Lemma read_digits_split s : forall acc n,
  exists ds rest acc',
    read_digits acc n s = (acc', n + length ds, rest)
    /\ s = ds ++ rest
    /\ forallb isdecimal ds = true
    /\ match rest with [] => True | c :: _ => isdecimal c = false end.
Proof.
  induction s as [|c s IH]; intros acc n.
  - exists [], [], acc. simpl. rewrite Nat.add_0_r. done.
  - simpl. destruct (decimal_value c) as [d|] eqn:Hd.
    + destruct (IH (10 * acc + d)%Z (S n)) as (ds & rest & acc' & Hr & -> & Hds & Hrest).
      exists (c :: ds), rest, acc'. rewrite Hr. simpl.
      replace (n + S (length ds)) with (S (n + length ds)) by lia.
      split; [done|]. split; [done|]. split; [|done].
      unfold isdecimal at 1. by rewrite Hd.
    + exists [], (c :: s), acc. simpl. rewrite Nat.add_0_r.
      split; [done|]. split; [done|]. split; [done|].
      unfold isdecimal. by rewrite Hd.
Qed.

Lemma count_app p a b : count p (a ++ b) = count p a + count p b.
Proof. unfold count. by rewrite List.filter_app, length_app. Qed.

Lemma count_cons p c s :
  count p (c :: s) = (if p c then 1 else 0) + count p s.
Proof. unfold count. simpl. by destruct (p c). Qed.

Lemma count_decimal_digits ds :
  forallb isdecimal ds = true ->
  count isdecimal ds = length ds /\ count is_dot ds = 0.
Proof.
  induction ds as [|c ds IH]; [done|].
  intros H. change (isdecimal c && forallb isdecimal ds = true) in H.
  apply andb_true_iff in H as [Hc Hds].
  destruct (IH Hds) as [IH1 IH2].
  assert (Hdot : is_dot c = false).
  { unfold is_dot. destruct (c =? 46)%N eqn:E; [|done].
    apply N.eqb_eq in E. subst c. done. }
  rewrite !count_cons, Hc, Hdot, IH1, IH2. done.
Qed.

Lemma not_decimal_is_dot c :
  digit_or_dot c = true -> isdecimal c = false ->
  is_dot c = true /\ (c =? 46)%N = true.
Proof.
  unfold digit_or_dot, is_dot. intros H Hd. rewrite Hd in H. simpl in H. done.
Qed.

(** X3: the fields the row patterns capture with [([\d.]+)] are made of
    digits and dots; [float] reads such a text exactly when it has at
    most one dot and at least one digit.  A captured field with two
    dots, or with no digit, raises. *)
Theorem float_field_shape (s : str) :
  forallb digit_or_dot s = true ->
  returns (float s) = (count is_dot s <=? 1) && (1 <=? count isdecimal s).
Proof.
  intros Hs. unfold float.
  destruct (read_digits_split s 0%Z 0)
    as (ds & rest & ip & -> & -> & Hds & Hrest).
  rewrite forallb_app in Hs. apply andb_true_iff in Hs as [_ Hs].
  destruct (count_decimal_digits ds Hds) as [Hd1 Hd0].
  rewrite !count_app, Hd1, Hd0.
  destruct rest as [|c rest'].
  - unfold count. simpl. by destruct ds.
  - change (digit_or_dot c && forallb digit_or_dot rest' = true) in Hs.
    apply andb_true_iff in Hs as [Hc Hs].
    destruct (not_decimal_is_dot c Hc Hrest) as [Hdot ->].
    destruct (read_digits_split rest' ip (0 + length ds))
      as (ds2 & rest2 & m & -> & -> & Hds2 & Hrest2).
    rewrite forallb_app in Hs. apply andb_true_iff in Hs as [_ Hs].
    destruct (count_decimal_digits ds2 Hds2) as [Hd21 Hd20].
    rewrite !count_cons, !count_app, Hdot, Hrest, Hd21, Hd20.
    destruct rest2 as [|c2 rest2'].
    + unfold count. simpl. destruct ds, ds2; done.
    + change (digit_or_dot c2 && forallb digit_or_dot rest2' = true) in Hs.
      apply andb_true_iff in Hs as [Hc2 _].
      destruct (not_decimal_is_dot c2 Hc2 Hrest2) as [Hdot2 _].
      rewrite !count_cons, Hdot2. simpl. done.
Qed.

Lemma float_field_shape_witness :
  returns (float (lit "0.295")) = true
  /\ returns (float (lit "1.2.3")) = false
  /\ returns (float (lit ".")) = false.
Proof.
  rewrite !float_field_shape by reflexivity. repeat split.
Defined.

(** ** The measurements an extractor stores *)

Lemma collect_elem {A B} (f : A -> py B) xs ys y :
  collect f xs = Return ys -> y ∈ ys -> exists x, x ∈ xs /\ f x = Return y.
Proof.
  intros Hc Hy. apply list_elem_of_lookup in Hy as [i Hi].
  destruct (collect_lookup_inv _ _ _ _ _ Hc Hi) as (x & Hx & Hf).
  exists x. split; [|done]. by apply list_elem_of_lookup_2 in Hx.
Qed.

(** Every measurement of the JavaScript or Rust table was built by the
    row body from a row matched in a section. *)
Lemma parse_sections_measurement result_pattern row content d k l r :
  parse_sections result_pattern row content = Return d ->
  d !! k = Some l -> r ∈ l ->
  exists i h rm,
    headers content !! i = Some h
    /\ rm ∈ section_rows result_pattern content i h
    /\ row (section_of content (headers content) i h) rm = Return r.
Proof.
  intros Hd Hl Hr.
  destruct (parse_sections_bound _ _ _ _ _ _ Hd Hl)
    as (i & h & Hh & _ & _ & Hc).
  destruct (collect_elem _ _ _ _ Hc Hr) as (rm & Hrm & Hrow).
  exists i, h, rm. done.
Qed.

(** Every measurement of the Java table is the one built from a result
    found after a header. *)
Lemma parse_java_measurement content d k l r :
  parse_java_text content = Return d ->
  d !! k = Some l -> r ∈ l ->
  exists h rm,
    h ∈ headers content
    /\ search java_result_pattern (drop (m_end h) content) = Some rm
    /\ parser r = lit "Harmonica" /\ language r = lit "Java"
    /\ float (group (drop (m_end h) content) rm 1) = Return (avg_time_ms r)
    /\ float (group (drop (m_end h) content) rm 2)
       = Return (throughput_kb_ms r).
Proof.
  rewrite parse_java_entries. intros H Hl Hr.
  apply bind_return in H as (es & Hes & H). injection H as <-.
  rewrite foldl_put_lookup, lookup_empty in Hl.
  destruct (binding k es) as [l'|] eqn:Hb; [|done]. injection Hl as ->.
  apply binding_elem in Hb.
  destruct (collect_elem _ _ _ _ Hes Hb) as (h & Hh & He).
  unfold java_entry in He. apply bind_return in He as (sz & _ & He).
  destruct (search java_result_pattern (drop (m_end h) content))
    as [rm|] eqn:Hs.
  - apply bind_return in He as (a & Ha & He).
    apply bind_return in He as (t & Ht & He). injection He as _ <-.
    apply list_elem_of_singleton in Hr as ->. exists h, rm. done.
  - injection He as _ <-. by apply elem_of_nil in Hr.
Qed.

(** X4: every measurement carries the label of the extractor that read
    it: [Harmonica] and [Java] from the Java extractor, [JavaScript]
    from the JavaScript one, [Rust] from the Rust one, whatever the
    report says. *)
Theorem measurements_carry_their_language
    (content : str) (d : results_dict) (k : str)
    (l : list BenchmarkResult) (r : BenchmarkResult) :
  d !! k = Some l -> r ∈ l ->
  (parse_java_text content = Return d ->
   parser r = lit "Harmonica" /\ language r = lit "Java")
  /\ (parse_javascript_text content = Return d ->
      language r = lit "JavaScript")
  /\ (parse_rust_text content = Return d -> language r = lit "Rust").
Proof.
  intros Hl Hr. split; [|split]; intros Hd.
  - destruct (parse_java_measurement _ _ _ _ _ Hd Hl Hr)
      as (h & rm & _ & _ & Hp & Hlang & _). done.
  - destruct (parse_sections_measurement js_result_pattern js_row
                _ _ _ _ _ Hd Hl Hr) as (i & h & rm & _ & _ & Hrow).
    unfold js_row in Hrow. apply bind_return in Hrow as (a & _ & Hrow).
    apply bind_return in Hrow as (t & _ & Hrow). by injection Hrow as <-.
  - destruct (parse_sections_measurement rust_result_pattern rust_row
                _ _ _ _ _ Hd Hl Hr) as (i & h & rm & _ & _ & Hrow).
    unfold rust_row in Hrow. apply bind_return in Hrow as (a & _ & Hrow).
    apply bind_return in Hrow as (t & _ & Hrow). by injection Hrow as <-.
Qed.

Lemma sample_tables :
  parse_java_text foo_report = Return foo_table
  /\ parse_javascript_text js_later_empty = Return js_lodash_table
  /\ parse_rust_text rust_later_empty = Return rust_lodash_table.
Proof. repeat split; compute_true. Qed.

Lemma measurements_carry_their_language_witness :
  parse_rust_text rust_later_empty = Return rust_lodash_table
  /\ rust_lodash_table !! lit "Lodash" = Some [oxc_row]
  /\ (oxc_row ∈ [oxc_row])
  /\ language oxc_row = lit "Rust".
Proof.
  assert (Hl : rust_lodash_table !! lit "Lodash" = Some [oxc_row])
    by compute_true.
  assert (Hr : oxc_row ∈ [oxc_row]) by by left.
  split; [exact (proj2 (proj2 sample_tables))|].
  split; [exact Hl|]. split; [exact Hr|].
  exact (proj2 (proj2 (measurements_carry_their_language rust_later_empty
                         rust_lodash_table (lit "Lodash") [oxc_row] oxc_row
                         Hl Hr))
           (proj2 (proj2 sample_tables))).
Defined.

(** ** Floats read from digits *)

Lemma iter_pos_invariant {A} (P : A -> Prop) (f : A -> A) :
  (forall x, P x -> P (f x)) ->
  forall n x, P x -> P (SpecFloat.iter_pos f n x).
Proof.
  intros Hf. induction n as [n IH|n IH|]; intros x Hx; simpl; auto.
Qed.

Lemma shr_1_nonneg mrs : (0 <= shr_m mrs)%Z -> (0 <= shr_m (shr_1 mrs))%Z.
Proof.
  destruct mrs as [m r s]. simpl.
  destruct m as [|[p|p|]|p]; simpl; intros H; lia.
Qed.

Lemma shr_nonneg mrs e n :
  (0 <= shr_m mrs)%Z -> (0 <= shr_m (shr mrs e n).1)%Z.
Proof.
  intros H. destruct n; simpl; [done| |done].
  by apply (iter_pos_invariant (fun x => (0 <= shr_m x)%Z) shr_1 shr_1_nonneg).
Qed.

Lemma shr_fexp_nonneg prec emax m e l :
  (0 <= m)%Z -> (0 <= shr_m (shr_fexp prec emax m e l).1)%Z.
Proof.
  intros H. unfold shr_fexp. apply shr_nonneg. by destruct l as [|[]].
Qed.

Lemma binary_round_aux_nonneg prec emax mx ex lx :
  (0 <= mx)%Z ->
  nonneg_float (binary_round_aux prec emax false mx ex lx) = true.
Proof.
  intros H. unfold binary_round_aux.
  pose proof (shr_fexp_nonneg prec emax mx ex lx H) as H1.
  destruct (shr_fexp prec emax mx ex lx) as [mrs' e']. simpl in H1.
  assert (H2 : (0 <= round_nearest_even (shr_m mrs')
                       (loc_of_shr_record mrs'))%Z).
  { unfold round_nearest_even.
    destruct (loc_of_shr_record mrs') as [|[]]; try done.
    - destruct (Z.even (shr_m mrs')); lia.
    - lia. }
  pose proof (shr_fexp_nonneg prec emax _ e' loc_Exact H2) as H3.
  destruct (shr_fexp prec emax _ e' loc_Exact) as [mrs'' e'']. simpl in H3.
  destruct (shr_m mrs'') as [|m|m]; [done| |lia].
  by destruct (Z.leb _ _).
Qed.

Lemma nearest_float_nonneg m k : nonneg_float (nearest_float m k) = true.
Proof.
  unfold nearest_float. destruct m as [|p|p]; [done| |done].
  unfold SFdiv, SFdiv_core_binary.
  set (m' := match _ with Z0 => _ | Zpos _ => _ | Zneg _ => _ end).
  assert (Hm' : (0 <= m')%Z).
  { unfold m'. destruct (_ - _ - _)%Z; [lia| |lia].
    apply Z.shiftl_nonneg. lia. }
  pose proof (Z_div_mod m' (Z.pos (Z.to_pos (10 ^ Z.of_nat k))) ltac:(lia))
    as Hdiv.
  destruct (Z.div_eucl m' _) as [q r]. destruct Hdiv as [Hq Hr].
  apply binary_round_aux_nonneg. nia.
Qed.

Lemma float_nonneg s f : float s = Return f -> nonneg_float f = true.
Proof.
  unfold float. destruct (read_digits 0 0 s) as [[ip ni] rest].
  destruct rest as [|c rest'].
  - destruct ni; [done|]. intros [= <-]. apply nearest_float_nonneg.
  - destruct (c =? 46)%N; [|done].
    destruct (read_digits ip ni rest') as [[m n] rest''].
    destruct rest''; [|done]. destruct n; [done|].
    intros [= <-]. apply nearest_float_nonneg.
Qed.

(** X5: whatever the report holds, the time and the throughput of a
    stored measurement are [+0.0], a positive finite float or [+inf];
    they are never negative and never a NaN (the patterns allow no
    sign), but they can be zero or infinite. *)
Theorem measurements_are_nonnegative
    (content : str) (d : results_dict) (k : str)
    (l : list BenchmarkResult) (r : BenchmarkResult) :
  parse_java_text content = Return d
  \/ parse_javascript_text content = Return d
  \/ parse_rust_text content = Return d ->
  d !! k = Some l -> r ∈ l ->
  nonneg_float (avg_time_ms r) = true
  /\ nonneg_float (throughput_kb_ms r) = true.
Proof.
  intros [Hd|[Hd|Hd]] Hl Hr.
  - destruct (parse_java_measurement _ _ _ _ _ Hd Hl Hr)
      as (h & rm & _ & _ & _ & _ & Ha & Ht).
    split; eapply float_nonneg; eauto.
  - destruct (parse_sections_measurement js_result_pattern js_row
                _ _ _ _ _ Hd Hl Hr) as (i & h & rm & _ & _ & Hrow).
    apply js_row_fields in Hrow as [Ha Ht].
    split; eapply float_nonneg; eauto.
  - destruct (parse_sections_measurement rust_result_pattern rust_row
                _ _ _ _ _ Hd Hl Hr) as (i & h & rm & _ & _ & Hrow).
    apply rust_row_fields in Hrow as [Ha Ht].
    split; eapply float_nonneg; eauto.
Qed.

Lemma measurements_are_nonnegative_witness :
  parse_javascript_text js_later_empty = Return js_lodash_table
  /\ js_lodash_table !! lit "Lodash" = Some [meriyah_row]
  /\ (meriyah_row ∈ [meriyah_row])
  /\ nonneg_float (avg_time_ms meriyah_row) = true
  /\ nonneg_float (throughput_kb_ms meriyah_row) = true.
Proof.
  assert (Hl : js_lodash_table !! lit "Lodash" = Some [meriyah_row])
    by compute_true.
  assert (Hr : meriyah_row ∈ [meriyah_row]) by by left.
  split; [exact (proj1 (proj2 sample_tables))|].
  split; [exact Hl|]. split; [exact Hr|].
  exact (measurements_are_nonnegative js_later_empty js_lodash_table
           (lit "Lodash") [meriyah_row] meriyah_row
           (or_intror (or_introl (proj1 (proj2 sample_tables)))) Hl Hr).
Defined.

(** ** Parser names of the JavaScript report *)

Lemma runs_js_result_pattern w pos e st' :
  runs js_result_pattern w pos no_caps e st' ->
  exists medal blanks name rest,
    w = medal :: blanks ++ name ++ rest
    /\ name <> [] /\ forallb nonspace name = true
    /\ closed st' !! 0
       = Some (pos + 1 + length blanks, pos + 1 + length blanks + length name).
Proof.
  intros H. unfold js_result_pattern, chars in H. simpl in H.
  invert_runs.
  do 4 eexists. split; [reflexivity|]. split; [eassumption|].
  split; [eassumption|]. simpl. do 2 f_equal; lia.
Qed.

Lemma lstrip_nonspace c s : isspace c = false -> lstrip (c :: s) = c :: s.
Proof. intros H. simpl. by rewrite H. Qed.

Lemma strip_nonspace name :
  forallb nonspace name = true -> strip name = name.
Proof.
  intros H. unfold strip, rstrip.
  assert (Hl : lstrip name = name).
  { destruct name as [|c s]; [done|]. apply lstrip_nonspace.
    simpl in H. apply andb_true_iff in H as [Hc _].
    by apply negb_true_iff in Hc. }
  rewrite Hl.
  assert (Hr : lstrip (rev name) = rev name).
  { assert (Hrev : forallb nonspace (rev name) = true).
    { rewrite forallb_forall in *. intros c Hc. apply H.
      by apply in_rev. }
    destruct (rev name) as [|c s]; [done|]. apply lstrip_nonspace.
    simpl in Hrev. apply andb_true_iff in Hrev as [Hc _].
    by apply negb_true_iff in Hc. }
  rewrite Hr. apply rev_involutive.
Qed.

(** The first group of a row of a JavaScript section is a non-empty
    run without blanks. *)
Lemma js_row_name section rm :
  rm ∈ finditer js_result_pattern section ->
  group section rm 1 <> []
  /\ forallb nonspace (group section rm 1) = true.
Proof.
  intros Hrm. apply finditer_elem in Hrm as [Hlen Hat].
  apply match_at_runs in Hat as (_ & w & t & st' & Hw & He & Hsp & Hr).
  apply runs_js_result_pattern in Hr
    as (medal & blanks & name & rest & -> & Hne & Hns & Hcl).
  assert (Hg : group section rm 1 = name).
  { unfold group. rewrite Hsp. change (1 - 1) with 0. rewrite Hcl.
    rewrite <- (take_drop (m_start rm) section), Hw.
    replace (take (m_start rm) section ++ (medal :: blanks ++ name ++ rest) ++ t)
      with ((take (m_start rm) section ++ medal :: blanks) ++ name
            ++ (rest ++ t)).
    2:{ rewrite <- !app_assoc. simpl. by rewrite <- !app_assoc. }
    replace (m_start rm + 1 + length blanks)
      with (length (take (m_start rm) section ++ medal :: blanks)).
    2:{ rewrite length_app, length_take. simpl. lia. }
    apply slice_middle. }
  rewrite Hg. done.
Qed.

(** X6: the parser name of every measurement of the JavaScript table is
    non-empty and holds no blank: the row pattern reads it with [\S+],
    so that stripping it changes nothing. *)
Theorem js_parser_names_have_no_blank
    (content : str) (d : results_dict) (k : str)
    (l : list BenchmarkResult) (r : BenchmarkResult) :
  parse_javascript_text content = Return d ->
  d !! k = Some l -> r ∈ l ->
  parser r <> [] /\ forallb nonspace (parser r) = true.
Proof.
  intros Hd Hl Hr.
  destruct (parse_sections_measurement js_result_pattern js_row
              _ _ _ _ _ Hd Hl Hr) as (i & h & rm & _ & Hrm & Hrow).
  destruct (js_row_name _ _ Hrm) as [Hne Hns].
  unfold js_row in Hrow. apply bind_return in Hrow as (a & _ & Hrow).
  apply bind_return in Hrow as (t & _ & Hrow). injection Hrow as <-. simpl.
  by rewrite (strip_nonspace _ Hns).
Qed.

Lemma js_parser_names_have_no_blank_witness :
  parse_javascript_text js_later_empty = Return js_lodash_table
  /\ js_lodash_table !! lit "Lodash" = Some [meriyah_row]
  /\ (meriyah_row ∈ [meriyah_row])
  /\ parser meriyah_row <> []
  /\ forallb nonspace (parser meriyah_row) = true.
Proof.
  assert (Hl : js_lodash_table !! lit "Lodash" = Some [meriyah_row])
    by compute_true.
  assert (Hr : meriyah_row ∈ [meriyah_row]) by by left.
  split; [exact (proj1 (proj2 sample_tables))|].
  split; [exact Hl|]. split; [exact Hr|].
  exact (js_parser_names_have_no_blank js_later_empty js_lodash_table
           (lit "Lodash") [meriyah_row] meriyah_row
           (proj1 (proj2 sample_tables)) Hl Hr).
Defined.

(** ** The order of the headers *)





(** ** Merging, continued *)

Lemma merge_results_lookup_total (java_results js_results rust_results : results_dict) k :
  merge_results java_results js_results rust_results !! k
  = match java_results !! k, js_results !! k, rust_results !! k with
    | None, None, None => None
    | a, b, c => Some (default [] a ++ default [] b ++ default [] c)
    end.
Proof.
  rewrite merge_results_lookup. unfold all_libraries, merged_list, contribution.
  destruct (decide _) as [Hin|Hout].
  - rewrite !elem_of_union, !elem_of_dom in Hin. simpl.
    destruct (java_results !! k), (js_results !! k), (rust_results !! k);
      try done.
    destruct Hin as [[[? ?]|[? ?]]|[? ?]]; done.
  - rewrite !elem_of_union, !elem_of_dom in Hout.
    destruct (java_results !! k) eqn:E1; [exfalso; apply Hout; eauto|].
    destruct (js_results !! k) eqn:E2; [exfalso; apply Hout; eauto|].
    destruct (rust_results !! k) eqn:E3; [exfalso; apply Hout; eauto|].
    done.
Qed.

(** X8: the empty mapping is neutral for [merge_results]: merging a
    table with two empty ones gives the table back, in each of the three
    positions.  A format whose file is missing changes nothing. *)
Theorem merge_results_empty_neutral (results : results_dict) :
  merge_results results ∅ ∅ = results
  /\ merge_results ∅ results ∅ = results
  /\ merge_results ∅ ∅ results = results.
Proof.
  repeat split; apply map_eq; intros k; rewrite merge_results_lookup_total,
    !lookup_empty; destruct (results !! k); simpl; by rewrite ?app_nil_r.
Qed.

(** X9: merging in two steps is merging at once: the table merged from
    the first two sources, merged with the third, is the table merged
    from all three; likewise when the last two are merged first. *)
Theorem merge_results_nested (a b c : results_dict) :
  merge_results (merge_results a b ∅) c ∅ = merge_results a b c
  /\ merge_results a (merge_results b c ∅) ∅ = merge_results a b c.
Proof.
  split; apply map_eq; intros k; rewrite !merge_results_lookup_total,
    !lookup_empty; destruct (a !! k), (b !! k), (c !! k); simpl;
    by rewrite ?app_nil_r, <- ?app_assoc.
Qed.

(** ** The latest result files *)

Lemma str_ltb_irrefl a : str_ltb a a = false.
Proof.
  induction a as [|x a IH]; simpl; [done|].
  by rewrite N.ltb_irrefl, N.eqb_refl, IH.
Qed.

Lemma str_ltb_asym a : forall b, str_ltb a b = true -> str_ltb b a = false.
Proof.
  induction a as [|x a IH]; intros [|y b]; simpl; try done.
  destruct (N.ltb_spec x y), (N.eqb_spec x y), (N.ltb_spec y x),
    (N.eqb_spec y x); simpl; try done; try lia. apply IH.
Qed.

(** [a >= b] and [b >= c] give [a >= c]. *)
Lemma str_ge_trans a : forall b c,
  str_ltb a b = false -> str_ltb b c = false -> str_ltb a c = false.
Proof.
  induction a as [|x a IH]; intros [|y b] [|z c]; simpl; try done.
  destruct (N.ltb_spec x y), (N.eqb_spec x y), (N.ltb_spec y z),
    (N.eqb_spec y z), (N.ltb_spec x z), (N.eqb_spec x z);
    simpl; try done; try lia. apply IH.
Qed.

Lemma str_ltb_antisym a : forall b,
  str_ltb a b = false -> str_ltb b a = false -> a = b.
Proof.
  induction a as [|x a IH]; intros [|y b]; simpl; try done.
  destruct (N.ltb_spec x y), (N.eqb_spec x y), (N.ltb_spec y x),
    (N.eqb_spec y x); simpl; try done; try lia.
  intros H1 H2. subst. f_equal. by apply IH.
Qed.

Lemma insert_descending_perm x l : insert_descending x l ≡ₚ x :: l.
Proof.
  induction l as [|y l IH]; simpl; [done|].
  destruct (str_ltb x y); [|done]. rewrite IH. apply Permutation_swap.
Qed.

Lemma sorted_reverse_perm l : sorted_reverse l ≡ₚ l.
Proof.
  induction l as [|x l IH]; simpl; [done|].
  by rewrite insert_descending_perm, IH.
Qed.

Lemma insert_descending_sorted x l :
  StronglySorted (fun a b => str_ltb a b = false) l ->
  StronglySorted (fun a b => str_ltb a b = false) (insert_descending x l).
Proof.
  induction 1 as [|y l Hs IH Hy]; simpl.
  - repeat constructor.
  - destruct (str_ltb x y) eqn:Hxy.
    + constructor; [done|].
      rewrite insert_descending_perm. constructor; [|done].
      by apply str_ltb_asym.
    + constructor; [by constructor|]. constructor; [done|].
      eapply Forall_impl; [exact Hy|]. simpl. intros z Hz.
      by apply (str_ge_trans x y z).
Qed.

Lemma sorted_reverse_sorted l :
  StronglySorted (fun a b => str_ltb a b = false) (sorted_reverse l).
Proof.
  induction l as [|x l IH]; simpl; [constructor|].
  by apply insert_descending_sorted.
Qed.

Lemma filter_strongly_sorted {A} (R : A -> A -> Prop) (q : A -> bool) l :
  StronglySorted R l -> StronglySorted R (List.filter q l).
Proof.
  induction 1 as [|x l Hs IH Hx]; simpl; [constructor|].
  destruct (q x); [|done]. constructor; [done|].
  rewrite Forall_forall in *. intros y Hy. apply Hx.
  apply list_elem_of_In, filter_In in Hy as [Hy _]. by apply list_elem_of_In.
Qed.

(** The first file left after sorting and filtering is the greatest
    candidate. *)
Lemma head_filter_sorted (p q : str -> bool) listing :
  latest_of (fun f => p f && q f) listing
    (head (List.filter q (sorted_reverse (List.filter p listing)))).
Proof.
  set (L := List.filter q (sorted_reverse (List.filter p listing))).
  assert (Hin : forall g, g ∈ L <-> g ∈ listing /\ p g = true /\ q g = true).
  { intros g. unfold L. rewrite !list_elem_of_In, filter_In.
    rewrite <- list_elem_of_In, sorted_reverse_perm, list_elem_of_In, filter_In.
    tauto. }
  assert (Hs : StronglySorted (fun a b => str_ltb a b = false) L).
  { apply filter_strongly_sorted, sorted_reverse_sorted. }
  destruct L as [|f tl]; simpl.
  - intros g Hg. destruct (p g && q g) eqn:E; [|done].
    apply andb_true_iff in E as [Hp Hq].
    assert (g ∈ []) by (apply Hin; done). by apply elem_of_nil in H.
  - destruct (proj1 (Hin f) ltac:(by left)) as (Hf & Hp & Hq).
    split; [done|]. split; [by rewrite Hp, Hq|].
    intros g Hg E. apply andb_true_iff in E as [Hgp Hgq].
    assert (Hgl : g ∈ f :: tl) by (apply Hin; done).
    apply StronglySorted_inv in Hs as [_ Hall].
    apply elem_of_cons in Hgl as [->|Hgl]; [apply str_ltb_irrefl|].
    rewrite Forall_forall in Hall. by apply Hall.
Qed.

(** X10: for each format [find_latest_results] picks, among the names in
    the directory that match [java_*.txt] ([js_*.txt], [rust_*.txt])
    and hold no [realworld] (and, for Java only, no [our_parser]), the
    greatest one in the order of strings, which for dated names is the
    latest; it gives [None] exactly when no name qualifies. *)
Theorem find_latest_results_greatest (listing : list str) :
  latest_of java_candidate listing (find_latest_results listing).1.1
  /\ latest_of js_candidate listing (find_latest_results listing).1.2
  /\ latest_of rust_candidate listing (find_latest_results listing).2.
Proof.
  repeat split.
  - apply (head_filter_sorted (glob_match (lit "java_") (lit ".txt"))
             (fun f => negb (contains (lit "realworld") f)
                       && negb (contains (lit "our_parser") f))).
  - apply (head_filter_sorted (glob_match (lit "js_") (lit ".txt"))
             (fun f => negb (contains (lit "realworld") f))).
  - apply (head_filter_sorted (glob_match (lit "rust_") (lit ".txt"))
             (fun f => negb (contains (lit "realworld") f))).
Qed.

Lemma latest_of_unique candidate l l' r r' :
  l ≡ₚ l' -> latest_of candidate l r -> latest_of candidate l' r' -> r = r'.
Proof.
  intros Hp. destruct r as [f|], r' as [f'|]; simpl.
  - intros (Hf & Hc & Hmax) (Hf' & Hc' & Hmax'). f_equal.
    apply str_ltb_antisym.
    + apply Hmax; [by rewrite Hp | done].
    + apply Hmax'; [by rewrite <- Hp | done].
  - intros (Hf & Hc & _) Hnone. rewrite Hp in Hf.
    rewrite (Hnone f Hf) in Hc. done.
  - intros Hnone (Hf' & Hc' & _). rewrite <- Hp in Hf'.
    rewrite (Hnone f' Hf') in Hc'. done.
  - done.
Qed.

(** X11: the files chosen do not depend on the order in which the
    directory is listed. *)
Theorem find_latest_results_order_free (listing listing' : list str) :
  listing ≡ₚ listing' ->
  find_latest_results listing = find_latest_results listing'.
Proof.
  intros Hp.
  assert (H1 := head_filter_sorted (glob_match (lit "java_") (lit ".txt"))
             (fun f => negb (contains (lit "realworld") f)
                       && negb (contains (lit "our_parser") f))).
  assert (H2 := head_filter_sorted (glob_match (lit "js_") (lit ".txt"))
             (fun f => negb (contains (lit "realworld") f))).
  assert (H3 := head_filter_sorted (glob_match (lit "rust_") (lit ".txt"))
             (fun f => negb (contains (lit "realworld") f))).
  unfold find_latest_results, glob. simpl.
  f_equal; [f_equal|].
  - exact (latest_of_unique _ _ _ _ _ Hp (H1 listing) (H1 listing')).
  - exact (latest_of_unique _ _ _ _ _ Hp (H2 listing) (H2 listing')).
  - exact (latest_of_unique _ _ _ _ _ Hp (H3 listing) (H3 listing')).
Qed.

Lemma find_latest_results_order_free_witness :
  find_latest_results sample_listing = find_latest_results (rev sample_listing)
  /\ find_latest_results sample_listing
     = (Some (lit "java_20250301_090000.txt"),
        Some (lit "js_20250101_120000.txt"),
        Some (lit "rust_20250102_080000.txt")).
Proof.
  split; [|compute_true].
  apply find_latest_results_order_free. apply Permutation_rev.
Defined.

(** ** Colors *)



(** ** The chart writers *)

Lemma insert_by_time_length r l :
  length (insert_by_time r l) = S (length l).
Proof.
  induction l as [|y l IH]; simpl; [done|].
  destruct (SFltb _ _); simpl; [by rewrite IH | done].
Qed.

Lemma sorted_by_time_length l : length (sorted_by_time l) = length l.
Proof.
  induction l as [|r l IH]; simpl; [done|].
  by rewrite insert_by_time_length, IH.
Qed.

Lemma py_max_fmap_returns {A} (f : A -> float64) (l : list A) :
  l <> [] -> exists m, py_max (f <$> l) = Return m.
Proof. destruct l; [done|]. simpl. eauto. Qed.

Lemma sorted_by_time_nonempty l : l <> [] -> sorted_by_time l <> [].
Proof.
  intros Hl Hs. apply Hl. apply length_zero_iff_nil.
  by rewrite <- sorted_by_time_length, Hs.
Qed.

Lemma filter_sublist {A} (q : A -> bool) (l : list A) :
  List.filter q l `sublist_of` l.
Proof.
  induction l as [|x l IH]; simpl; [done|].
  destruct (q x); [by apply sublist_skip | by apply sublist_cons].
Qed.

(** What the loop of [create_per_library_charts] has done when it
    ends: a chart for each library of the list that the table has, up
    to the first one bound to an empty list. *)
Lemma per_library_loop_spec results libs :
  (forall c, c ∈ (per_library_loop results libs).1 ->
             chart_lib c ∈ libs
             /\ is_Some (results !! chart_lib c)
             /\ chart_file c = safe_name (chart_lib c) ++ lit "_comparison.png")
  /\ ((per_library_loop results libs).2 = None ->
      chart_lib <$> (per_library_loop results libs).1
      = List.filter (fun lib => bool_decide (is_Some (results !! lib))) libs)
  /\ (forall e, (per_library_loop results libs).2 = Some e -> e = ValueError).
Proof.
  induction libs as [|lib libs IH]; simpl.
  - split; [intros c Hc; by apply elem_of_nil in Hc|].
    split; [done|]. intros e H. discriminate H.
  - destruct IH as (IH1 & IH2 & IH3).
    destruct (results !! lib) as [lib_results|] eqn:Hlib.
    + rewrite bool_decide_eq_true_2 by eauto.
      destruct lib_results as [|r0 rs].
      * simpl. split; [intros c Hc; by apply elem_of_nil in Hc|].
        split; [intros H; discriminate H|]. by intros e [= <-].
      * destruct (py_max_fmap_returns avg_time_ms
                    (sorted_by_time (r0 :: rs))
                    (sorted_by_time_nonempty (r0 :: rs) ltac:(done)))
          as [m Hm].
        rewrite Hm.
        destruct (per_library_loop results libs) as [later e]. simpl in *.
        split; [|split; [|done]].
        -- intros c Hc. apply elem_of_cons in Hc as [->|Hc]; simpl.
           ++ split; [by left|]. rewrite Hlib. eauto.
           ++ destruct (IH1 c Hc) as (? & ? & ?). split; [by right|]. done.
        -- intros He. f_equal. by apply IH2.
    + rewrite bool_decide_eq_false_2 by (intros [? ?]; done).
      split; [|done]. intros c Hc. destruct (IH1 c Hc) as (? & ? & ?).
      split; [by right|]. done.
Qed.

Lemma safe_names_differ :
  NoDup ((fun lib => safe_name lib ++ lit "_comparison.png") <$> library_order).
Proof. decide_by_computation. Qed.

Lemma fmap_ext_elem {A B} (f g : A -> B) (l : list A) :
  (forall x, x ∈ l -> f x = g x) -> f <$> l = g <$> l.
Proof.
  induction l as [|x l IH]; intros H; simpl; [done|].
  f_equal; [apply H; by left | apply IH; intros y Hy; apply H; by right].
Qed.

(** X13: [create_per_library_charts] only ever charts the six libraries
    of [library_order]: a key of the table outside that list (a library
    filed under its raw file name, say) gets no chart.  When the loop
    ends without an exception it has saved one chart for each of the
    six that the table has, in the order of the list, each to a file of
    its own. *)
Theorem per_library_charts_cover (results : results_dict) :
  (forall c, c ∈ (create_per_library_charts results).1 ->
             chart_lib c ∈ library_order
             /\ is_Some (results !! chart_lib c))
  /\ ((create_per_library_charts results).2 = None ->
      chart_lib <$> (create_per_library_charts results).1 = libraries results
      /\ NoDup (chart_file <$> (create_per_library_charts results).1)).
Proof.
  unfold create_per_library_charts.
  destruct (per_library_loop_spec results library_order) as (H1 & H2 & _).
  split.
  - intros c Hc. destruct (H1 c Hc) as (? & ? & ?). done.
  - intros He. split; [by apply H2|].
    rewrite (fmap_ext_elem chart_file
               (fun c => safe_name (chart_lib c) ++ lit "_comparison.png")).
    2:{ intros c Hc. by destruct (H1 c Hc) as (? & ? & ?). }
    rewrite (list_fmap_compose chart_lib
               (fun lib => safe_name lib ++ lit "_comparison.png")).
    rewrite (H2 He).
    eapply sublist_NoDup; [exact safe_names_differ|].
    apply fmap_sublist, filter_sublist.
Qed.

Lemma per_library_charts_cover_witness :
  (create_per_library_charts (merge_results java_only js_only rust_only)).2
  = None
  /\ chart_lib <$> (create_per_library_charts
                     (merge_results java_only js_only rust_only)).1
     = [lit "React"; lit "Vue 3"; lit "Lodash"]
  /\ NoDup (chart_file <$> (create_per_library_charts
                             (merge_results java_only js_only rust_only)).1).
Proof.
  assert (He : (create_per_library_charts
                  (merge_results java_only js_only rust_only)).2 = None)
    by compute_true.
  destruct (proj2 (per_library_charts_cover
                     (merge_results java_only js_only rust_only)) He)
    as [Hlibs Hfiles].
  split; [exact He|]. split; [|exact Hfiles].
  rewrite Hlibs. compute_true.
Defined.

(** X14: an empty measurement list is fatal for the chart writers: if
    the table binds one of the six libraries to an empty list,
    [create_per_library_charts] ends with the [ValueError] of [max] on
    an empty sequence, and so does [create_typescript_focused_chart]
    when that library is [TypeScript Compiler].  The calls that draw
    are taken to return. *)
Theorem charts_raise_on_empty_list (results : results_dict) (lib : str) :
  lib ∈ library_order ->
  results !! lib = Some [] ->
  (create_per_library_charts results).2 = Some ValueError
  /\ (lib = lit "TypeScript Compiler" ->
      create_typescript_focused_chart results = Raise ValueError).
Proof.
  intros Hin Hlib. split.
  - unfold create_per_library_charts. revert Hin.
    generalize library_order as libs.
    induction libs as [|x libs IH]; intros Hin; [by apply elem_of_nil in Hin|].
    simpl. destruct (results !! x) as [[|r0 rs]|] eqn:Hx.
    + done.
    + destruct (py_max_fmap_returns avg_time_ms (sorted_by_time (r0 :: rs))
                  (sorted_by_time_nonempty (r0 :: rs) ltac:(done))) as [m Hm].
      rewrite Hm.
      assert (Hin' : lib ∈ libs).
      { apply elem_of_cons in Hin as [->|Hin]; [|done].
        rewrite Hlib in Hx. done. }
      specialize (IH Hin').
      destruct (per_library_loop results libs) as [later e]. simpl in *. done.
    + apply IH. apply elem_of_cons in Hin as [->|Hin]; [|done].
      rewrite Hlib in Hx. done.
  - intros ->. unfold create_typescript_focused_chart. by rewrite Hlib.
Qed.

Lemma charts_raise_on_empty_list_witness :
  (lit "TypeScript Compiler" ∈ library_order)
  /\ ({[ lit "TypeScript Compiler" := [] ]} : results_dict)
     !! lit "TypeScript Compiler" = Some []
  /\ (create_per_library_charts {[ lit "TypeScript Compiler" := [] ]}).2
     = Some ValueError
  /\ create_typescript_focused_chart {[ lit "TypeScript Compiler" := [] ]}
     = Raise ValueError.
Proof.
  assert (Hin : lit "TypeScript Compiler" ∈ library_order)
    by decide_by_computation.
  assert (Hl : ({[ lit "TypeScript Compiler" := [] ]} : results_dict)
               !! lit "TypeScript Compiler" = Some [])
    by apply lookup_singleton_eq.
  destruct (charts_raise_on_empty_list _ _ Hin Hl) as [H1 H2].
  split; [exact Hin|]. split; [exact Hl|]. split; [exact H1|].
  by apply H2.
Defined.






(** ** The entry point *)

Lemma extractor_raises fs filepath e :
  parse_java_results fs filepath = Raise e
  \/ parse_javascript_results fs filepath = Raise e
  \/ parse_rust_results fs filepath = Raise e ->
  e = ValueError \/ e = OSError.
Proof.
  unfold parse_java_results, parse_javascript_results, parse_rust_results.
  destruct (fs filepath) as [| |content].
  - intros [H|[H|H]]; discriminate.
  - intros [[= <-]|[[= <-]|[= <-]]]; by right.
  - intros [H|[H|H]]; left.
    + revert H. rewrite parse_java_entries.
      destruct (collect _ _) as [es|e'] eqn:Hes; simpl; [done|].
      intros [= <-]. revert Hes. apply collect_raises. apply java_entry_raises.
    + revert H. apply (parse_sections_raises js_result_pattern js_row).
      exact js_row_raises.
    + revert H. apply (parse_sections_raises rust_result_pattern rust_row).
      exact rust_row_raises.
Qed.

(** X16: [main] catches no exception of an extractor.  Past the check
    of the results directory, the first of the three extractors to
    raise ends the run with its exception, right after the first
    printed lines and before the later extractors, the merge and the
    chart writers are reached.  That exception is never a
    [FileNotFoundError], which the extractor itself catches. *)
Theorem extractor_exception_ends_main (w : world)
    (java_file js_file rust_file : option str) (e : exn) :
  results_dir_exists w = true ->
  latest_results w = (java_file, js_file, rust_file) ->
  parse_if parse_java_results (files w) java_file = Raise e
  \/ (returns (parse_if parse_java_results (files w) java_file) = true
      /\ parse_if parse_javascript_results (files w) js_file = Raise e)
  \/ (returns (parse_if parse_java_results (files w) java_file) = true
      /\ returns (parse_if parse_javascript_results (files w) js_file) = true
      /\ parse_if parse_rust_results (files w) rust_file = Raise e) ->
  main w = (prologue, Uncaught e) /\ e <> FileNotFoundError.
Proof.
  intros Hdir Hlatest Hcase.
  assert (Hif : forall parse f,
             (forall p, parse (files w) p = Raise e ->
                        e = ValueError \/ e = OSError) ->
             parse_if parse (files w) f = Raise e ->
             e <> FileNotFoundError).
  { intros parse f Hp. unfold parse_if.
    destruct (path_truthy f); [|done].
    intros H%Hp. by destruct H as [-> | ->]. }
  unfold main. rewrite Hdir, Hlatest. simpl.
  destruct Hcase as [Hj|[[Hj Hjs]|(Hj & Hjs & Hr)]].
  - rewrite Hj. simpl. split; [done|]. revert Hj. apply Hif.
    intros p H. apply (extractor_raises (files w) p). by left.
  - destruct (parse_if parse_java_results (files w) java_file) as [j|];
      [simpl|done].
    rewrite Hjs. simpl. split; [done|]. revert Hjs. apply Hif.
    intros p H. apply (extractor_raises (files w) p). right. by left.
  - destruct (parse_if parse_java_results (files w) java_file) as [j|];
      [simpl|done].
    destruct (parse_if parse_javascript_results (files w) js_file) as [js|];
      [simpl|done].
    rewrite Hr. simpl. split; [done|]. revert Hr. apply Hif.
    intros p H. apply (extractor_raises (files w) p). right. by right.
Qed.

Lemma extractor_exception_ends_main_witness :
  main world_with_unreadable_rust = (prologue, Uncaught OSError)
  /\ OSError <> FileNotFoundError.
Proof.
  apply (extractor_exception_ends_main world_with_unreadable_rust
           (Some (lit "benchmark-results/java_20250101.txt")) None
           (Some (lit "benchmark-results/rust_20250101.txt")) OSError).
  - reflexivity.
  - reflexivity.
  - right. right. split; [compute_true|]. split; [reflexivity|].
    reflexivity.
Defined.

(** X17: a matched JavaScript row with a numeric field that is no float
    literal ends the whole run: when the Java extractor returns and the
    JavaScript file has such a row, [main] ends with an uncaught
    [ValueError] right after its first printed lines, whatever the Java
    file and the Rust file hold. *)
Theorem malformed_row_stops_main (w : world) (java_file rust_file : option str)
    (js_file content : str) :
  results_dir_exists w = true ->
  latest_results w = (java_file, Some js_file, rust_file) ->
  js_file <> [] ->
  files w js_file = Text content ->
  sections_ok js_result_pattern content = false ->
  returns (parse_if parse_java_results (files w) java_file) = true ->
  main w = (prologue, Uncaught ValueError).
Proof.
  intros Hdir Hlatest Hpath Hfile Hbad Hjava.
  unfold main. rewrite Hdir, Hlatest. simpl.
  destruct (parse_if parse_java_results (files w) java_file) as [j|];
    [simpl|done].
  assert (Hjs : parse_if parse_javascript_results (files w) (Some js_file)
                = Raise ValueError).
  { unfold parse_if. destruct js_file as [|c js_file']; [done|]. simpl.
    unfold parse_javascript_results. rewrite Hfile.
    pose proof (parse_sections_returns js_result_pattern js_row content
                  js_row_returns_ok) as Hret.
    rewrite Hbad in Hret.
    change (parse_sections js_result_pattern js_row content)
      with (parse_javascript_text content) in Hret.
    destruct (parse_javascript_text content) as [d|e] eqn:Hp; [done|].
    f_equal. revert Hp.
    apply (parse_sections_raises js_result_pattern js_row).
    exact js_row_raises. }
  by rewrite Hjs.
Qed.

Lemma malformed_row_stops_main_witness :
  main world_with_malformed_js = (prologue, Uncaught ValueError).
Proof.
  apply (malformed_row_stops_main world_with_malformed_js
           (Some (lit "benchmark-results/java_20250101.txt")) None
           (lit "benchmark-results/js_20250101.txt") js_malformed).
  - reflexivity.
  - reflexivity.
  - done.
  - reflexivity.
  - compute_true.
  - compute_true.
Defined.

(** ** Bars and axis limits *)

Ltac order_cases :=
  repeat match goal with
  | |- context [Z.compare ?a ?b] => destruct (Z.compare_spec a b)
  | H : context [Z.compare ?a ?b] |- _ => destruct (Z.compare_spec a b)
  | |- context [Pos.compare_cont Eq ?a ?b] =>
      change (Pos.compare_cont Eq a b) with (Pos.compare a b);
      destruct (Pos.compare_spec a b)
  | H : context [Pos.compare_cont Eq ?a ?b] |- _ =>
      change (Pos.compare_cont Eq a b) with (Pos.compare a b) in H;
      destruct (Pos.compare_spec a b)
  end; simpl in *; try done; try lia.

Lemma SFltb_irrefl a : SFltb a a = false.
Proof.
  unfold SFltb, SFcompare. destruct a as [[]|[]| |[] m e]; simpl; try done;
    order_cases.
Qed.

Lemma SFltb_trans a b c :
  SFltb a b = true -> SFltb b c = true -> SFltb a c = true.
Proof.
  unfold SFltb, SFcompare.
  destruct a as [[]|[]| |[] ma ea], b as [[]|[]| |[] mb eb],
    c as [[]|[]| |[] mc ec]; simpl; try done; order_cases.
Qed.

Lemma SFltb_asym a b : SFltb a b = true -> SFltb b a = false.
Proof.
  intros Hab. destruct (SFltb b a) eqn:Hba; [|done].
  by rewrite <- (SFltb_irrefl a), (SFltb_trans a b a Hab Hba).
Qed.

(** Something less than [c] is less than [b] or has [b] less than [c],
    unless [b] is a NaN. *)
Lemma SFltb_between a b c :
  is_nan b = false ->
  SFltb a c = true -> SFltb a b = true \/ SFltb b c = true.
Proof.
  unfold SFltb, SFcompare.
  destruct a as [[]|[]| |[] ma ea], b as [[]|[]| |[] mb eb],
    c as [[]|[]| |[] mc ec]; simpl; try done; auto; order_cases; auto.
Qed.

Lemma insert_by_time_perm r l : insert_by_time r l ≡ₚ r :: l.
Proof.
  induction l as [|y l IH]; simpl; [done|].
  destruct (SFltb _ _); [|done]. rewrite IH. apply Permutation_swap.
Qed.

Lemma sorted_by_time_perm l : sorted_by_time l ≡ₚ l.
Proof.
  induction l as [|r l IH]; simpl; [done|].
  by rewrite insert_by_time_perm, IH.
Qed.

Lemma insert_by_time_ascending r l :
  is_nan (avg_time_ms r) = false ->
  times_are_numbers l = true ->
  ascending (avg_time_ms <$> l) ->
  ascending (avg_time_ms <$> insert_by_time r l).
Proof.
  intros Hr. induction l as [|y l IH]; simpl; intros Hl Hs.
  - repeat constructor.
  - apply andb_true_iff in Hl as [Hy Hl]. apply negb_true_iff in Hy.
    apply StronglySorted_inv in Hs as [Hs Hall].
    destruct (SFltb (avg_time_ms y) (avg_time_ms r)) eqn:Hlt; simpl.
    + constructor; [by apply IH|].
      rewrite insert_by_time_perm. simpl. constructor; [|done].
      by apply SFltb_asym.
    + constructor; [by constructor|].
      constructor; [done|].
      eapply Forall_impl; [exact Hall|]. simpl. intros t Ht.
      destruct (SFltb t (avg_time_ms r)) eqn:Htr; [|done].
      destruct (SFltb_between t (avg_time_ms y) (avg_time_ms r) Hy Htr)
        as [H|H]; congruence.
Qed.

Lemma times_are_numbers_perm l l' :
  l ≡ₚ l' -> times_are_numbers l = true -> times_are_numbers l' = true.
Proof.
  unfold times_are_numbers.
  induction 1 as [|x l l' Hp IH|x y l|l l' l'' Hp1 IH1 Hp2 IH2]; simpl;
    rewrite ?andb_true_iff; tauto.
Qed.

Lemma sorted_by_time_ascending l :
  times_are_numbers l = true ->
  ascending (avg_time_ms <$> sorted_by_time l).
Proof.
  induction l as [|r l IH]; simpl; intros Hl; [constructor|].
  apply andb_true_iff in Hl as [Hr Hl]. apply negb_true_iff in Hr.
  apply insert_by_time_ascending; [done| |by apply IH].
  apply (times_are_numbers_perm l); [|done]. symmetry. apply sorted_by_time_perm.
Qed.

Lemma py_max_greatest xs m : py_max xs = Return m -> greatest m xs.
Proof.
  destruct xs as [|x xs]; simpl; [done|]. intros [= <-].
  assert (H : forall seen best,
             greatest best seen ->
             greatest (foldl (fun best item =>
                                if SFltb best item then item else best)
                             best xs) (seen ++ xs)).
  { induction xs as [|y ys IH]; intros seen best [Hin Hmax]; simpl.
    - by rewrite app_nil_r.
    - replace (seen ++ y :: ys) with ((seen ++ [y]) ++ ys)
        by (by rewrite <- app_assoc).
      apply IH. destruct (SFltb best y) eqn:Hlt.
      + split; [apply elem_of_app; right; by left|].
        intros t Ht. apply elem_of_app in Ht as [Ht|Ht].
        * destruct (SFltb y t) eqn:Hyt; [|done].
          by rewrite <- (Hmax t Ht), (SFltb_trans best y t Hlt Hyt).
        * apply list_elem_of_singleton in Ht as ->. apply SFltb_irrefl.
      + split; [apply elem_of_app; by left|].
        intros t Ht. apply elem_of_app in Ht as [Ht|Ht]; [by apply Hmax|].
        by apply list_elem_of_singleton in Ht as ->. }
  apply (H [x] x). split; [by left|].
  intros t Ht. apply list_elem_of_singleton in Ht as ->. apply SFltb_irrefl.
Qed.

Lemma per_library_loop_data results libs c :
  c ∈ (per_library_loop results libs).1 ->
  exists l longest,
    results !! chart_lib c = Some l
    /\ chart_parsers c = parser <$> sorted_by_time l
    /\ chart_times c = avg_time_ms <$> sorted_by_time l
    /\ chart_colors c = bar_color <$> sorted_by_time l
    /\ py_max (chart_times c) = Return longest
    /\ chart_xlim c = fmul longest (literal 125 2).
Proof.
  induction libs as [|lib libs IH]; simpl; [by intros H%elem_of_nil|].
  destruct (results !! lib) as [l|] eqn:Hl; [|done].
  destruct (py_max (avg_time_ms <$> sorted_by_time l)) as [m|e] eqn:Hm; simpl;
    [|by intros H%elem_of_nil].
  destruct (per_library_loop results libs) as [later e]. simpl in *.
  intros [->|Hc]%elem_of_cons; [|by apply IH].
  exists l, m. simpl. done.
Qed.

(** X18: the bars of a chart of [create_per_library_charts] are the
    measurements the table has for the library, rearranged and never
    dropped or repeated, with name, time and color of one measurement
    at one position.  When no time is a NaN the times ascend (fastest
    first).  The upper limit of the x axis is 1.25 times a time of the
    chart that no time of the chart exceeds. *)
Theorem per_library_chart_bars (results : results_dict) (c : library_chart)
    (l : list BenchmarkResult) :
  c ∈ (create_per_library_charts results).1 ->
  results !! chart_lib c = Some l ->
  (exists bars,
     bars ≡ₚ l
     /\ chart_parsers c = parser <$> bars
     /\ chart_times c = avg_time_ms <$> bars
     /\ chart_colors c = bar_color <$> bars)
  /\ (times_are_numbers l = true -> ascending (chart_times c))
  /\ (exists longest,
        greatest longest (chart_times c)
        /\ chart_xlim c = fmul longest (literal 125 2)).
Proof.
  intros Hc Hl.
  destruct (per_library_loop_data results library_order c Hc)
    as (l' & longest & Hl' & Hp & Ht & Hcol & Hmax & Hlim).
  rewrite Hl in Hl'. injection Hl' as <-. split; [|split].
  - exists (sorted_by_time l). split; [apply sorted_by_time_perm|done].
  - intros Hn. rewrite Ht. by apply sorted_by_time_ascending.
  - exists longest. split; [by apply py_max_greatest|done].
Qed.

Lemma sample_charts :
  (create_per_library_charts
     (merge_results foo_table js_lodash_table rust_lodash_table)).1
  = [lodash_chart]
  /\ merge_results foo_table js_lodash_table rust_lodash_table
     !! lit "Lodash" = Some [meriyah_row; oxc_row]
  /\ typescript_table !! lit "TypeScript Compiler"
     = Some [meriyah_row; oxc_row]
  /\ create_typescript_focused_chart typescript_table
     = Return (Some typescript_chart).
Proof. repeat split; compute_true. Qed.

Lemma per_library_chart_bars_witness :
  (exists bars,
     bars ≡ₚ [meriyah_row; oxc_row]
     /\ chart_parsers lodash_chart = parser <$> bars
     /\ chart_times lodash_chart = avg_time_ms <$> bars
     /\ chart_colors lodash_chart = bar_color <$> bars)
  /\ (times_are_numbers [meriyah_row; oxc_row] = true ->
      ascending (chart_times lodash_chart))
  /\ (exists longest,
        greatest longest (chart_times lodash_chart)
        /\ chart_xlim lodash_chart = fmul longest (literal 125 2)).
Proof.
  apply (per_library_chart_bars
           (merge_results foo_table js_lodash_table rust_lodash_table)).
  - rewrite (proj1 sample_charts). by left.
  - exact (proj1 (proj2 sample_charts)).
Defined.

(** X19: [create_typescript_focused_chart] saves nothing exactly when
    the table has no [TypeScript Compiler].  The chart it saves has two
    panels over the same bars, the measurements of that library ordered
    by time: the throughputs of the second panel follow the order of
    the times, not their own.  Each axis ends at 1.3 times the greatest
    value of its panel. *)
Theorem focused_chart_bars (results : results_dict) :
  (create_typescript_focused_chart results = Return None
   <-> results !! lit "TypeScript Compiler" = None)
  /\ forall l c,
       results !! lit "TypeScript Compiler" = Some l ->
       create_typescript_focused_chart results = Return (Some c) ->
       (exists bars,
          bars ≡ₚ l
          /\ focus_parsers c = parser <$> bars
          /\ focus_times c = avg_time_ms <$> bars
          /\ focus_throughputs c = throughput_kb_ms <$> bars
          /\ focus_colors c = bar_color <$> bars)
       /\ (times_are_numbers l = true -> ascending (focus_times c))
       /\ (exists longest highest,
             greatest longest (focus_times c)
             /\ greatest highest (focus_throughputs c)
             /\ focus_time_xlim c = fmul longest (literal 13 1)
             /\ focus_throughput_xlim c = fmul highest (literal 13 1)).
Proof.
  unfold create_typescript_focused_chart.
  destruct (results !! lit "TypeScript Compiler") as [l0|] eqn:Hl.
  - split.
    { split; [|done].
      destruct (py_max (avg_time_ms <$> sorted_by_time l0)); simpl; [|done].
      destruct (py_max (throughput_kb_ms <$> sorted_by_time l0)); done. }
    intros l c [= <-].
    destruct (py_max (avg_time_ms <$> sorted_by_time l0))
      as [longest|] eqn:Hlong; simpl; [|done].
    destruct (py_max (throughput_kb_ms <$> sorted_by_time l0))
      as [highest|] eqn:Hhigh; simpl; [|done].
    intros [= <-]. simpl. split; [|split].
    + exists (sorted_by_time l0). split; [apply sorted_by_time_perm|done].
    + apply sorted_by_time_ascending.
    + exists longest, highest.
      split; [by apply py_max_greatest|].
      split; [by apply py_max_greatest|done].
  - split; [done|]. intros l c H. discriminate.
Qed.

Lemma focused_chart_bars_witness :
  typescript_table !! lit "TypeScript Compiler" = Some [meriyah_row; oxc_row]
  /\ create_typescript_focused_chart typescript_table
     = Return (Some typescript_chart)
  /\ (exists bars,
        bars ≡ₚ [meriyah_row; oxc_row]
        /\ focus_parsers typescript_chart = parser <$> bars
        /\ focus_times typescript_chart = avg_time_ms <$> bars
        /\ focus_throughputs typescript_chart = throughput_kb_ms <$> bars
        /\ focus_colors typescript_chart = bar_color <$> bars)
  /\ ascending (focus_times typescript_chart).
Proof.
  destruct sample_charts as (_ & _ & Hl & Hc).
  destruct (proj2 (focused_chart_bars typescript_table) _ _ Hl Hc)
    as (Hbars & Hasc & _).
  split; [exact Hl|]. split; [exact Hc|]. split; [exact Hbars|].
  apply Hasc. vm_compute. reflexivity.
Defined.

(** ** The grouped charts *)

Lemma create_time_comparison_chart_grouped results keys :
  create_time_comparison_chart results keys = grouped avg_time_ms results keys.
Proof. reflexivity. Qed.

Lemma create_throughput_comparison_chart_grouped results keys :
  create_throughput_comparison_chart results keys
  = grouped throughput_kb_ms results keys.
Proof. reflexivity. Qed.

Lemma unique_parsers_concat vals :
  unique_parsers vals = foldl note_parser (∅, ∅) (concat vals).
Proof.
  unfold unique_parsers. generalize ((∅, ∅) : gset str * gmap str str).
  induction vals as [|l vals IH]; intros acc; simpl; [done|].
  by rewrite foldl_app, IH.
Qed.

Lemma first_of_app p l l' :
  first_of p (l ++ l')
  = match first_of p l with Some r => Some r | None => first_of p l' end.
Proof.
  unfold first_of. induction l as [|r l IH]; simpl; [done|].
  by destruct (bool_decide (parser r = p)).
Qed.

Lemma first_of_Some p l r :
  first_of p l = Some r -> r ∈ l /\ parser r = p.
Proof.
  intros H. apply find_some in H as [Hin Hp].
  split; [by apply list_elem_of_In | by apply bool_decide_eq_true in Hp].
Qed.

Lemma first_of_None p l r : first_of p l = None -> r ∈ l -> parser r <> p.
Proof.
  intros H Hr Hp. apply list_elem_of_In in Hr.
  pose proof (find_none _ _ H r Hr) as Hf. simpl in Hf.
  by apply bool_decide_eq_false in Hf.
Qed.

(** The set holds the names seen; for each name the map holds the
    language of the last measurement seen with it. *)
Lemma foldl_note_parser rs : forall acc,
  (foldl note_parser acc rs).1 = acc.1 ∪ list_to_set (parser <$> rs)
  /\ forall p,
       (foldl note_parser acc rs).2 !! p
       = match first_of p (rev rs) with
         | Some r => Some (language r)
         | None => acc.2 !! p
         end.
Proof.
  induction rs as [|r rs IH]; intros [ap pl]; simpl.
  - split; [symmetry; apply union_empty_r_L | done].
  - destruct (IH (ap ∪ {[ parser r ]}, <[ parser r := language r ]> pl))
      as [H1 H2]. split.
    + rewrite H1. simpl. symmetry. apply (assoc_L (∪)).
    + intros p. rewrite H2, first_of_app. simpl.
      destruct (first_of p (rev rs)); [done|].
      unfold first_of. simpl. destruct (bool_decide_reflect (parser r = p)) as [<-|Hne].
      * by rewrite lookup_insert_eq.
      * by rewrite lookup_insert_ne.
Qed.

Lemma elem_of_rev {A} (x : A) (l : list A) : x ∈ rev l <-> x ∈ l.
Proof. rewrite !list_elem_of_In. symmetry. apply in_rev. Qed.

Lemma values_measured results keys r :
  iteration_order results keys ->
  r ∈ concat (values results keys) <-> measured results r.
Proof.
  intros [_ Hkeys]. rewrite list_elem_of_In, in_concat. unfold values, measured.
  split.
  - intros (l & Hl & Hr). apply list_elem_of_In, list_elem_of_fmap in Hl
      as (k & -> & Hk).
    apply Hkeys in Hk as [l Hl]. rewrite Hl in Hr. simpl in Hr.
    exists k, l. split; [done | by apply list_elem_of_In].
  - intros (k & l & Hl & Hr). exists l. split; [|by apply list_elem_of_In].
    apply list_elem_of_In, list_elem_of_fmap. exists k.
    split; [by rewrite Hl|]. apply Hkeys. by rewrite Hl.
Qed.

Lemma unique_parsers_spec results keys :
  iteration_order results keys ->
  (forall p, p ∈ (unique_parsers (values results keys)).1
             <-> exists r, measured results r /\ parser r = p)
  /\ (forall p lang,
        (unique_parsers (values results keys)).2 !! p = Some lang ->
        exists r, measured results r /\ parser r = p /\ language r = lang)
  /\ (forall r, measured results r ->
                is_Some ((unique_parsers (values results keys)).2
                           !! parser r)).
Proof.
  intros Hkeys. rewrite unique_parsers_concat.
  destruct (foldl_note_parser (concat (values results keys)) (∅, ∅))
    as [H1 H2].
  split; [|split].
  - intros p. rewrite H1. simpl.
    rewrite elem_of_union, elem_of_list_to_set, list_elem_of_fmap. split.
    + intros [H|(r & -> & Hr)]; [by apply elem_of_empty in H|].
      exists r. split; [by apply (values_measured results keys)|done].
    + intros (r & Hr & <-). right. exists r.
      split; [done | by apply (values_measured results keys)].
  - intros p lang. rewrite H2.
    destruct (first_of p (rev (concat (values results keys)))) as [r|] eqn:Hf;
      [|done].
    intros [= <-]. apply first_of_Some in Hf as [Hr Hp].
    exists r. split; [|done].
    apply (values_measured results keys); [done|]. by apply elem_of_rev.
  - intros r Hr. rewrite H2.
    destruct (first_of (parser r) (rev (concat (values results keys))))
      as [r'|] eqn:Hf; [done|].
    exfalso. apply (first_of_None _ _ r Hf); [|done].
    apply elem_of_rev. by apply (values_measured results keys).
Qed.

(** Under [one_language_per_parser] the order of the visit does not
    show in what the first loop leaves. *)
Lemma unique_parsers_order_free results keys keys' :
  one_language_per_parser results ->
  iteration_order results keys -> iteration_order results keys' ->
  unique_parsers (values results keys) = unique_parsers (values results keys').
Proof.
  intros Hone Hk Hk'.
  destruct (unique_parsers_spec results keys Hk) as (H1 & H2 & H3).
  destruct (unique_parsers_spec results keys' Hk') as (H1' & H2' & H3').
  destruct (unique_parsers (values results keys)) as [ap pl].
  destruct (unique_parsers (values results keys')) as [ap' pl'].
  simpl in *. f_equal.
  - apply set_eq. intros p. by rewrite H1, H1'.
  - apply map_eq. intros p. apply option_eq. intros lang.
    assert (Hsym : forall (m m' : gmap str str),
               (forall p lang, m !! p = Some lang ->
                  exists r, measured results r /\ parser r = p
                            /\ language r = lang) ->
               (forall r, measured results r -> is_Some (m' !! parser r)) ->
               (forall p lang, m' !! p = Some lang ->
                  exists r, measured results r /\ parser r = p
                            /\ language r = lang) ->
               m !! p = Some lang -> m' !! p = Some lang).
    { intros m m' Hm Hm' Hm'' Hp.
      destruct (Hm p lang Hp) as (r & Hr & <- & <-).
      destruct (Hm' r Hr) as [lang' Hl'].
      destruct (Hm'' _ _ Hl') as (r' & Hr' & Hpr & <-).
      rewrite Hl'. f_equal. by apply Hone. }
    split; [by apply Hsym | by apply Hsym].
Qed.

(** X20: when no parser name comes with two languages, the two grouped
    charts do not depend on the order in which the table is visited. *)
Theorem grouped_charts_order_free (results : results_dict)
    (keys keys' : list str) :
  one_language_per_parser results ->
  iteration_order results keys -> iteration_order results keys' ->
  create_time_comparison_chart results keys
  = create_time_comparison_chart results keys'
  /\ create_throughput_comparison_chart results keys
     = create_throughput_comparison_chart results keys'.
Proof.
  intros Hone Hk Hk'.
  rewrite !create_time_comparison_chart_grouped,
    !create_throughput_comparison_chart_grouped.
  unfold grouped.
  by rewrite (unique_parsers_order_free results keys keys' Hone Hk Hk').
Qed.

Lemma key_ltb_asym a b : key_ltb a b = true -> key_ltb b a = false.
Proof.
  destruct a as [n s], b as [m t]. unfold key_ltb. simpl.
  destruct (Nat.ltb_spec n m), (Nat.eqb_spec n m), (Nat.ltb_spec m n),
    (Nat.eqb_spec m n); simpl; try done; try lia.
  apply str_ltb_asym.
Qed.

Lemma key_ge_trans a b c :
  key_ltb a b = false -> key_ltb b c = false -> key_ltb a c = false.
Proof.
  destruct a as [n s], b as [m t], c as [k u]. unfold key_ltb. simpl.
  destruct (Nat.ltb_spec n m), (Nat.eqb_spec n m), (Nat.ltb_spec m k),
    (Nat.eqb_spec m k), (Nat.ltb_spec n k), (Nat.eqb_spec n k);
    simpl; try done; try lia.
  apply str_ge_trans.
Qed.

Lemma key_ltb_antisym a b :
  key_ltb a b = false -> key_ltb b a = false -> a = b.
Proof.
  destruct a as [n s], b as [m t]. unfold key_ltb. simpl.
  destruct (Nat.ltb_spec n m), (Nat.eqb_spec n m), (Nat.ltb_spec m n),
    (Nat.eqb_spec m n); simpl; try done; try lia.
  intros H1 H2. subst. f_equal. by apply str_ltb_antisym.
Qed.

Lemma insert_by_key_perm key p l : insert_by_key key p l ≡ₚ p :: l.
Proof.
  induction l as [|q l IH]; simpl; [done|].
  destruct (key_ltb _ _); [|done]. rewrite IH. apply Permutation_swap.
Qed.

Lemma sorted_by_key_perm key l : sorted_by_key key l ≡ₚ l.
Proof.
  induction l as [|p l IH]; simpl; [done|].
  by rewrite insert_by_key_perm, IH.
Qed.

Lemma insert_by_key_sorted key p l :
  StronglySorted (fun a b => key_ltb (key b) (key a) = false) l ->
  StronglySorted (fun a b => key_ltb (key b) (key a) = false)
    (insert_by_key key p l).
Proof.
  induction 1 as [|q l Hs IH Hq]; simpl.
  - repeat constructor.
  - destruct (key_ltb (key q) (key p)) eqn:Hqp.
    + constructor; [done|].
      rewrite insert_by_key_perm. constructor; [|done].
      by apply key_ltb_asym.
    + constructor; [by constructor|]. constructor; [done|].
      eapply Forall_impl; [exact Hq|]. simpl. intros z Hz.
      by apply (key_ge_trans (key z) (key q) (key p)).
Qed.

Lemma sorted_by_key_sorted key l :
  StronglySorted (fun a b => key_ltb (key b) (key a) = false)
    (sorted_by_key key l).
Proof.
  induction l as [|p l IH]; simpl; [constructor|].
  by apply insert_by_key_sorted.
Qed.

(** The sorted list of a set does not depend on the order in which the
    set is visited, the keys being pairwise different. *)
Lemma sorted_by_key_order_free parser_language l l' :
  l ≡ₚ l' ->
  sorted_by_key (parser_key parser_language) l
  = sorted_by_key (parser_key parser_language) l'.
Proof.
  intros Hp.
  apply (StronglySorted_unique_strong
           (fun a b => key_ltb (parser_key parser_language b)
                               (parser_key parser_language a) = false)).
  - intros p q _ _ H1 H2.
    by injection (key_ltb_antisym _ _ H1 H2).
  - apply sorted_by_key_sorted.
  - apply sorted_by_key_sorted.
  - by rewrite !sorted_by_key_perm.
Qed.

Lemma StronglySorted_lookup_lt {A} (R : A -> A -> Prop) l i j x y :
  StronglySorted R l -> l !! i = Some x -> l !! j = Some y -> i < j -> R x y.
Proof.
  intros Hs. revert i j. induction Hs as [|z l Hs IH Hz]; intros i j; [done|].
  destruct i as [|i], j as [|j]; simpl; try lia.
  - intros [= <-] Hy _. rewrite Forall_forall in Hz. apply Hz.
    by apply list_elem_of_lookup_2 in Hy.
  - intros Hx Hy Hij. apply (IH i j); [done|done|lia].
Qed.

(** The series of a grouped chart, by their labels. *)
Lemma grouped_labels field results keys :
  series_label <$> chart_series (grouped field results keys)
  = sorted_by_key (parser_key (unique_parsers (values results keys)).2)
      (elements (unique_parsers (values results keys)).1).
Proof.
  unfold grouped. destruct (unique_parsers _) as [ap pl]. simpl.
  rewrite <- list_fmap_compose. apply list_fmap_id.
Qed.

Lemma grouped_series field results keys s :
  s ∈ chart_series (grouped field results keys) ->
  series_heights s
  = bar_height field results (series_label s) <$> libraries results
  /\ series_color s
     = get_parser_color (series_label s)
         (default (lit "Other")
            ((unique_parsers (values results keys)).2 !! series_label s)).
Proof.
  unfold grouped. destruct (unique_parsers _) as [ap pl]. simpl.
  intros (p & -> & _)%list_elem_of_fmap. done.
Qed.

Lemma grouped_legend field field' results keys :
  chart_libraries (grouped field results keys)
  = chart_libraries (grouped field' results keys)
  /\ (fun s => (series_label s, series_color s))
       <$> chart_series (grouped field results keys)
     = (fun s => (series_label s, series_color s))
         <$> chart_series (grouped field' results keys).
Proof.
  unfold grouped. destruct (unique_parsers _) as [ap pl]. simpl.
  split; [done|]. by rewrite <- !list_fmap_compose.
Qed.

Lemma grouped_shape field results keys :
  iteration_order results keys ->
  chart_libraries (grouped field results keys) = libraries results
  /\ NoDup (series_label <$> chart_series (grouped field results keys))
  /\ (forall p,
        p ∈ series_label <$> chart_series (grouped field results keys)
        <-> exists r, measured results r /\ parser r = p)
  /\ Forall (fun s => length (series_heights s) = length (libraries results))
       (chart_series (grouped field results keys)).
Proof.
  intros Hk. destruct (unique_parsers_spec results keys Hk) as (H1 & _ & _).
  split; [|split; [|split]].
  - unfold grouped. by destruct (unique_parsers _).
  - rewrite grouped_labels, sorted_by_key_perm. apply NoDup_elements.
  - intros p. rewrite grouped_labels, sorted_by_key_perm, elem_of_elements.
    apply H1.
  - apply Forall_forall. intros s Hs.
    destruct (grouped_series field results keys s Hs) as [-> _].
    apply length_fmap.
Qed.

(** X21: the series of the two grouped charts.  There is one series
    for each parser name found anywhere in the table, also under a
    library that is not drawn, and none else; each series has one
    height for each library of [library_order] the table has.  The two
    charts show the same libraries and the same series, by label and
    color, in the same order. *)
Theorem grouped_chart_series (results : results_dict) (keys : list str) :
  iteration_order results keys ->
  (forall c,
     c = create_time_comparison_chart results keys
     \/ c = create_throughput_comparison_chart results keys ->
     chart_libraries c = libraries results
     /\ NoDup (series_label <$> chart_series c)
     /\ (forall p, p ∈ series_label <$> chart_series c
                   <-> exists r, measured results r /\ parser r = p)
     /\ Forall (fun s => length (series_heights s)
                         = length (libraries results))
          (chart_series c))
  /\ (fun s => (series_label s, series_color s))
       <$> chart_series (create_time_comparison_chart results keys)
     = (fun s => (series_label s, series_color s))
         <$> chart_series (create_throughput_comparison_chart results keys).
Proof.
  intros Hk. split.
  - intros c [->| ->].
    + apply (grouped_shape avg_time_ms results keys Hk).
    + apply (grouped_shape throughput_kb_ms results keys Hk).
  - apply (grouped_legend avg_time_ms throughput_kb_ms results keys).
Qed.

Lemma first_of_middle p before r after :
  parser r = p -> (forall r', r' ∈ before -> parser r' <> p) ->
  first_of p (before ++ r :: after) = Some r.
Proof.
  intros Hp. unfold first_of. induction before as [|x before IH]; intros Hb; simpl.
  - by rewrite bool_decide_eq_true_2.
  - rewrite bool_decide_eq_false_2; [|apply Hb; by left].
    apply IH. intros r' Hr'. apply Hb. by right.
Qed.

Lemma first_of_absent p l :
  (forall r, r ∈ l -> parser r <> p) -> first_of p l = None.
Proof.
  unfold first_of. induction l as [|x l IH]; intros Hl; simpl; [done|].
  rewrite bool_decide_eq_false_2; [|apply Hl; by left].
  apply IH. intros r Hr. apply Hl. by right.
Qed.

(** X22: the height of a series at a library is taken from the first
    measurement the table lists for that library under the name of the
    series; a later measurement under the same name, which merging
    keeps, is never drawn.  Where the library has no measurement under
    that name the height is the integer [0]. *)
Theorem grouped_chart_heights (results : results_dict) (keys : list str)
    (c : grouped_chart) (field : BenchmarkResult -> float64)
    (s : series) (i : nat) (lib : str) (l : list BenchmarkResult) :
  (c = create_time_comparison_chart results keys /\ field = avg_time_ms)
  \/ (c = create_throughput_comparison_chart results keys
      /\ field = throughput_kb_ms) ->
  s ∈ chart_series c ->
  chart_libraries c !! i = Some lib ->
  results !! lib = Some l ->
  (forall before r after,
     l = before ++ r :: after ->
     parser r = series_label s ->
     (forall r', r' ∈ before -> parser r' <> series_label s) ->
     series_heights s !! i = Some (Measured (field r)))
  /\ ((forall r, r ∈ l -> parser r <> series_label s) ->
      series_heights s !! i = Some Zero).
Proof.
  intros Hc Hs Hlib Hl.
  assert (Hg : c = grouped field results keys).
  { by destruct Hc as [[-> ->]|[-> ->]]. }
  subst c. clear Hc.
  destruct (grouped_series field results keys s Hs) as [Hh _].
  assert (Hlibs : libraries results !! i = Some lib).
  { revert Hlib. unfold grouped. by destruct (unique_parsers _). }
  assert (Hi : series_heights s !! i
               = Some (bar_height field results (series_label s) lib)).
  { by rewrite Hh, list_lookup_fmap, Hlibs. }
  rewrite Hi. unfold bar_height. rewrite Hl. simpl. split.
  - intros before r after -> Hp Hb. by rewrite (first_of_middle _ _ _ _ Hp Hb).
  - intros Hnone. by rewrite (first_of_absent _ _ Hnone).
Qed.

(** Under [one_language_per_parser] the map of the first loop holds,
    for the name of every measurement, its language. *)
Lemma grouped_language results keys r :
  one_language_per_parser results ->
  iteration_order results keys ->
  measured results r ->
  (unique_parsers (values results keys)).2 !! parser r = Some (language r).
Proof.
  intros Hone Hk Hr.
  destruct (unique_parsers_spec results keys Hk) as (_ & H2 & H3).
  destruct (H3 r Hr) as [lang Hl]. rewrite Hl. f_equal.
  destruct (H2 _ _ Hl) as (r1 & Hr1 & Hp1 & <-). by apply Hone.
Qed.

Lemma grouped_colors field results keys s :
  one_language_per_parser results ->
  iteration_order results keys ->
  s ∈ chart_series (grouped field results keys) ->
  (exists r, measured results r /\ parser r = series_label s)
  /\ (forall r, measured results r -> parser r = series_label s ->
                series_color s = bar_color r).
Proof.
  intros Hone Hk Hs. split.
  - destruct (grouped_shape field results keys Hk) as (_ & _ & Hl & _).
    apply Hl. apply list_elem_of_fmap. by exists s.
  - intros r Hr Hp.
    destruct (grouped_series field results keys s Hs) as [_ ->].
    by rewrite <- Hp, (grouped_language results keys r Hone Hk Hr).
Qed.

Lemma grouped_sorted field results keys i j s s' r r' :
  one_language_per_parser results ->
  iteration_order results keys ->
  chart_series (grouped field results keys) !! i = Some s ->
  chart_series (grouped field results keys) !! j = Some s' ->
  i < j ->
  measured results r -> parser r = series_label s ->
  measured results r' -> parser r' = series_label s' ->
  language_rank (language r) < language_rank (language r')
  \/ (language_rank (language r) = language_rank (language r')
      /\ str_ltb (series_label s) (series_label s') = true).
Proof.
  intros Hone Hk Hi Hj Hij Hr Hp Hr' Hp'.
  assert (Hli : (series_label <$> chart_series (grouped field results keys))
                !! i = Some (series_label s))
    by (by rewrite list_lookup_fmap, Hi).
  assert (Hlj : (series_label <$> chart_series (grouped field results keys))
                !! j = Some (series_label s'))
    by (by rewrite list_lookup_fmap, Hj).
  assert (Hnd : NoDup (series_label <$> chart_series
                         (grouped field results keys))).
  { by destruct (grouped_shape field results keys Hk) as (_ & ? & _). }
  assert (Hne : series_label s <> series_label s').
  { intros Heq. rewrite <- Heq in Hlj.
    pose proof (NoDup_lookup _ _ _ _ Hnd Hli Hlj). lia. }
  rewrite grouped_labels in Hli, Hlj.
  pose proof (StronglySorted_lookup_lt _ _ _ _ _ _
                (sorted_by_key_sorted _ _) Hli Hlj Hij) as Hs.
  simpl in Hs. unfold parser_key in Hs.
  rewrite <- Hp, <- Hp', (grouped_language results keys r Hone Hk Hr),
    (grouped_language results keys r' Hone Hk Hr') in Hs. simpl in Hs.
  unfold key_ltb in Hs. simpl in Hs.
  rewrite <- Hp, <- Hp'. rewrite <- Hp, <- Hp' in Hne.
  destruct (Nat.ltb_spec (language_rank (language r'))
              (language_rank (language r))); [done|].
  destruct (Nat.eqb_spec (language_rank (language r'))
              (language_rank (language r))) as [Heq|Hneq]; [|left; lia].
  right. split; [done|]. simpl in Hs.
  destruct (str_ltb (parser r) (parser r')) eqn:Hlt; [done|].
  exfalso. apply Hne. by apply str_ltb_antisym.
Qed.

(** X23: when no parser name comes with two languages, every series of
    a grouped chart stands for at least one measurement and has the
    color of each measurement under its name; and the series come
    ordered by language, Rust before JavaScript before Java before any
    other language, and by name within a language. *)
Theorem grouped_chart_series_sorted (results : results_dict)
    (keys : list str) (c : grouped_chart) :
  one_language_per_parser results ->
  iteration_order results keys ->
  c = create_time_comparison_chart results keys
  \/ c = create_throughput_comparison_chart results keys ->
  (forall s,
     s ∈ chart_series c ->
     (exists r, measured results r /\ parser r = series_label s)
     /\ (forall r, measured results r -> parser r = series_label s ->
                   series_color s = bar_color r))
  /\ (forall i j s s' r r',
        chart_series c !! i = Some s ->
        chart_series c !! j = Some s' ->
        i < j ->
        measured results r -> parser r = series_label s ->
        measured results r' -> parser r' = series_label s' ->
        language_rank (language r) < language_rank (language r')
        \/ (language_rank (language r) = language_rank (language r')
            /\ str_ltb (series_label s) (series_label s') = true)).
Proof.
  intros Hone Hk [->| ->]; split.
  - intros s. by apply (grouped_colors avg_time_ms results keys).
  - intros i j s s' r r'. by apply (grouped_sorted avg_time_ms results keys).
  - intros s. by apply (grouped_colors throughput_kb_ms results keys).
  - intros i j s s' r r'.
    by apply (grouped_sorted throughput_kb_ms results keys).
Qed.

Lemma iteration_order_of_dom results keys :
  NoDup keys -> dom results = list_to_set keys -> iteration_order results keys.
Proof.
  intros Hnd Hdom. split; [done|]. intros k.
  by rewrite <- elem_of_dom, Hdom, elem_of_list_to_set.
Qed.

(** X24: the table alone does not determine the grouped charts: when
    a parser name comes with two languages under two libraries, the
    color of its series follows the library visited last, and the
    order in which the table of [merge_results] is visited is that of
    a set of strings. *)
Theorem grouped_chart_depends_on_order :
  exists results keys keys',
    iteration_order results keys /\ iteration_order results keys'
    /\ series_color <$> chart_series (create_time_comparison_chart results keys)
       <> series_color
            <$> chart_series (create_time_comparison_chart results keys').
Proof.
  exists two_languages, [lit "React"; lit "Lodash"], [lit "Lodash"; lit "React"].
  split; [|split].
  - apply iteration_order_of_dom; [decide_by_computation | compute_true].
  - apply iteration_order_of_dom; [decide_by_computation | compute_true].
  - vm_compute. discriminate.
Qed.

Lemma sample_time_chart :
  iteration_order sample_merged sample_keys
  /\ iteration_order sample_merged sample_keys'
  /\ create_time_comparison_chart sample_merged sample_keys
     = {| chart_libraries := [lit "Lodash"];
          chart_series := [oxc_series; meriyah_series; harmonica_series] |}
  /\ sample_merged !! lit "Lodash" = Some [meriyah_row; oxc_row].
Proof.
  split; [|split; [|split]].
  - apply iteration_order_of_dom; [decide_by_computation | compute_true].
  - apply iteration_order_of_dom; [decide_by_computation | compute_true].
  - compute_true.
  - compute_true.
Qed.

Lemma sample_foo : sample_merged !! lit "Foo" = Some [harmonica_row].
Proof. compute_true. Qed.

Lemma sample_one_language : one_language_per_parser sample_merged.
Proof.
  assert (H : forall r, measured sample_merged r ->
                        r ∈ [harmonica_row; meriyah_row; oxc_row]).
  { intros r Hr.
    apply (values_measured sample_merged sample_keys) in Hr;
      [|exact (proj1 sample_time_chart)].
    revert Hr. by vm_compute. }
  intros r r' Hr%H Hr'%H.
  repeat (apply elem_of_cons in Hr as [->|Hr]);
    repeat (apply elem_of_cons in Hr' as [->|Hr']);
    try (by apply elem_of_nil in Hr); try (by apply elem_of_nil in Hr');
    try done; by vm_compute.
Qed.

Lemma grouped_chart_series_witness :
  iteration_order sample_merged sample_keys
  /\ chart_libraries (create_time_comparison_chart sample_merged sample_keys)
     = libraries sample_merged
  /\ NoDup (series_label
              <$> chart_series
                    (create_time_comparison_chart sample_merged sample_keys))
  /\ Forall (fun s => length (series_heights s)
                      = length (libraries sample_merged))
       (chart_series (create_time_comparison_chart sample_merged sample_keys)).
Proof.
  destruct (proj1 (grouped_chart_series sample_merged sample_keys
                     (proj1 sample_time_chart)) _ (or_introl eq_refl))
    as (H1 & H2 & _ & H4).
  split; [exact (proj1 sample_time_chart)|].
  exact (conj H1 (conj H2 H4)).
Defined.

Lemma grouped_chart_heights_witness :
  oxc_series
    ∈ chart_series (create_time_comparison_chart sample_merged sample_keys)
  /\ chart_libraries (create_time_comparison_chart sample_merged sample_keys)
     !! 0 = Some (lit "Lodash")
  /\ sample_merged !! lit "Lodash" = Some ([meriyah_row] ++ oxc_row :: [])
  /\ series_heights oxc_series !! 0 = Some (Measured (avg_time_ms oxc_row)).
Proof.
  destruct sample_time_chart as (_ & _ & Hc & Hl).
  assert (Hs : oxc_series
               ∈ chart_series
                   (create_time_comparison_chart sample_merged sample_keys))
    by (rewrite Hc; by left).
  assert (Hlib : chart_libraries
                   (create_time_comparison_chart sample_merged sample_keys)
                 !! 0 = Some (lit "Lodash"))
    by (by rewrite Hc).
  split; [exact Hs|]. split; [exact Hlib|]. split; [exact Hl|].
  apply (proj1 (grouped_chart_heights sample_merged sample_keys _ avg_time_ms
                  oxc_series 0 (lit "Lodash") [meriyah_row; oxc_row]
                  (or_introl (conj eq_refl eq_refl)) Hs Hlib Hl)
           [meriyah_row] oxc_row [] eq_refl eq_refl).
  intros r' ->%list_elem_of_singleton. by vm_compute.
Defined.

Lemma grouped_charts_order_free_witness :
  create_time_comparison_chart sample_merged sample_keys
  = create_time_comparison_chart sample_merged sample_keys'
  /\ create_throughput_comparison_chart sample_merged sample_keys
     = create_throughput_comparison_chart sample_merged sample_keys'.
Proof.
  apply (grouped_charts_order_free sample_merged sample_keys sample_keys').
  - exact sample_one_language.
  - exact (proj1 sample_time_chart).
  - exact (proj1 (proj2 sample_time_chart)).
Defined.

Lemma grouped_chart_series_sorted_witness :
  series_color harmonica_series = bar_color harmonica_row
  /\ (language_rank (language oxc_row) < language_rank (language meriyah_row)
      \/ (language_rank (language oxc_row)
          = language_rank (language meriyah_row)
          /\ str_ltb (series_label oxc_series) (series_label meriyah_series)
             = true)).
Proof.
  destruct sample_time_chart as (Hk & _ & Hc & Hl).
  assert (Hm : forall r, r ∈ [meriyah_row; oxc_row] ->
                         measured sample_merged r).
  { intros r Hr. exists (lit "Lodash"), [meriyah_row; oxc_row].
    split; [exact Hl | exact Hr]. }
  assert (Hf : measured sample_merged harmonica_row).
  { exists (lit "Foo"), [harmonica_row]. split; [exact sample_foo|by left]. }
  destruct (grouped_chart_series_sorted sample_merged sample_keys
              (create_time_comparison_chart sample_merged sample_keys)
              sample_one_language Hk (or_introl eq_refl)) as [Hcol Hord].
  split.
  - apply (proj2 (Hcol harmonica_series
                    ltac:(rewrite Hc; right; right; left))
             harmonica_row Hf eq_refl).
  - apply (Hord 0 1 oxc_series meriyah_series oxc_row meriyah_row).
    + by rewrite Hc.
    + by rewrite Hc.
    + lia.
    + apply Hm. right. by left.
    + reflexivity.
    + apply Hm. by left.
    + reflexivity.
Defined.

(** ** Names and charts *)

(** X25: [normalize_library_name] and the chart writers fit together:
    normalizing twice is normalizing once, every raw label of the table
    is sent to a library of [library_order] and is itself none, and
    every library of [library_order] is the name of some raw label.  A
    table key left as a raw label is therefore never drawn. *)
Theorem normalized_names_are_drawn :
  (forall name,
     normalize_library_name (normalize_library_name name)
     = normalize_library_name name)
  /\ (forall name, name ∈ raw_labels ->
                   normalize_library_name name ∈ library_order
                   /\ (name ∉ library_order))
  /\ (forall lib, lib ∈ library_order ->
                  exists name, name ∈ raw_labels
                               /\ normalize_library_name name = lib).
Proof.
  assert (Hraw : forall name, name ∈ raw_labels ->
             normalize_library_name name ∈ library_order
             /\ (name ∉ library_order)
             /\ normalize_library_name (normalize_library_name name)
                = normalize_library_name name).
  { intros name Hn. unfold raw_labels in Hn.
    repeat (apply elem_of_cons in Hn as [->|Hn]);
      try (by apply elem_of_nil in Hn);
      (split; [decide_by_computation|split; [decide_by_computation|]]);
      compute_true. }
  split; [|split].
  - intros name. destruct (decide (name ∈ raw_labels)) as [Hn|Hn].
    + by destruct (Hraw name Hn) as (_ & _ & ?).
    + assert (E : normalize_library_name name = name).
      { unfold normalize_library_name. by rewrite (name_map_unknown name Hn). }
      by rewrite !E.
  - intros name Hn. by destruct (Hraw name Hn) as (? & ? & _).
  - intros lib Hl. unfold library_order in Hl.
    repeat (apply elem_of_cons in Hl as [->|Hl]);
      try (by apply elem_of_nil in Hl).
    + exists (lit "react.production.min.js").
      split; [decide_by_computation | compute_true].
    + exists (lit "vue.global.prod.js").
      split; [decide_by_computation | compute_true].
    + exists (lit "react-dom.production.min.js").
      split; [decide_by_computation | compute_true].
    + exists (lit "lodash.js").
      split; [decide_by_computation | compute_true].
    + exists (lit "three.js").
      split; [decide_by_computation | compute_true].
    + exists (lit "typescript.js").
      split; [decide_by_computation | compute_true].
Qed.
